(** * The plasma-etch prediction engine of the Virtual Radical Sensor

    A shallow embedding of the prediction engine of [server/storage.ts]
    (the 3D variant: [simulateRadicalDistribution], [predictQualityMetrics],
    [generateRecommendations], [generateStabilityTimeSeries],
    [calculateRoiMetrics] and [generatePrediction]) together with the data
    model of [shared/schema.ts], and the properties of the engine that the
    specification states.

    Modelling decisions.
    - A JavaScript number is an exact rational ([Q]).  The engine only
      handles finite values on validated input, so NaN and the infinities
      are not represented.  The engine computes in doubles, whose rounding
      error is not modelled: a double can sit a few units of its last bit
      away from the rational of the model, which matters where a value is
      rounded at a decimal tie or compared at a threshold it hits exactly.
      The statements are therefore about what both agree on: bounds,
      counts, orderings, and rounded values up to [roundedTo].
    - [Math.exp], [Math.sin], [Math.sqrt], [Math.log10], [Math.PI] and the
      successive results of [Math.random()] are supplied by the host: they
      are the fields of the class [JsEnv].  Every general theorem below holds
      for every host, hence for every outcome of the random noise.
    - The computation runs in the monad [Sim]: the state is the number of
      calls of [Math.random()] made so far, and a computation may stop with
      an [Error].  Division by a computed quantity goes through [divide],
      which reports a zero divisor; reading an array goes through [index],
      which reports an index outside the array.  Division by a non-zero
      literal is the division of [Q]. *)

From Stdlib Require Import QArith Qabs Qround Qminmax Lqa ZArith Lia.
From Stdlib Require Import String Bool List Permutation Sorted.
Import ListNotations.

Open Scope Q_scope.

(** ** Numbers *)

Module JsNumber.

(** A natural number (a loop index, an array length) as a number. *)
Definition num (n : nat) : Q := inject_Z (Z.of_nat n).

Definition Qltb (a b : Q) : bool := negb (Qle_bool b a).
Definition Qgtb (a b : Q) : bool := Qltb b a.
Definition Qleb (a b : Q) : bool := Qle_bool a b.
Definition Qgeb (a b : Q) : bool := Qle_bool b a.

(** [Number(x.toFixed(digits))]: the sign is split off, the magnitude is
    rounded to the nearest multiple of [10^-digits], the larger one on a
    tie (ECMA-262, Number.prototype.toFixed), and the decimal string is read
    back as a number. *)
Definition toFixed (digits : nat) (x : Q) : Q :=
  let scale := (10 ^ Z.of_nat digits)%Z in
  let n := Qfloor (Qabs x * inject_Z scale + (1 # 2)) in
  if Qltb x 0 then (- n # Z.to_pos scale) else (n # Z.to_pos scale).

(** [v || d] for an optional number [v]: [undefined] and [0] are falsy. *)
Definition orDefault (v : option Q) (d : Q) : Q :=
  match v with
  | Some a => if Qeq_bool a 0 then d else a
  | None => d
  end.

(** [l.reduce((a, b) => a + b, 0)] *)
Definition sum (l : list Q) : Q := fold_left Qplus l 0.

End JsNumber.
Import JsNumber.

Infix "<?" := Qltb (at level 70, no associativity) : Q_scope.
Infix ">?" := Qgtb (at level 70, no associativity) : Q_scope.
Infix "<=?" := Qleb (at level 70, no associativity) : Q_scope.
Infix ">=?" := Qgeb (at level 70, no associativity) : Q_scope.

(** ** The host: the [Math] object, the random source, identity and clock *)

Class JsEnv : Type := {
  Math_exp : Q -> Q;
  Math_sin : Q -> Q;
  Math_sqrt : Q -> Q;
  Math_log10 : Q -> Q;
  Math_PI : Q;
  (** [random_draw n] is what the call number [n] of [Math.random()] returns *)
  random_draw : nat -> Q;
  randomUUID : string;
  nowISOString : string
}.

(** ** The simulation monad: a counter of random draws, and errors *)

Inductive Error : Type :=
| DivisionByZero
| IndexOutOfRange.

Inductive Result (A : Type) : Type :=
| Ok (a : A)
| Err (e : Error).
Arguments Ok {A} a.
Arguments Err {A} e.

Definition Sim (A : Type) : Type := nat -> Result (A * nat).

Definition ret {A} (a : A) : Sim A := fun s => Ok (a, s).

Definition bind {A B} (c : Sim A) (k : A -> Sim B) : Sim B :=
  fun s => match c s with
           | Ok (a, s') => k a s'
           | Err e => Err e
           end.

Definition raise {A} (e : Error) : Sim A := fun _ => Err e.

Declare Scope sim_scope.
Delimit Scope sim_scope with sim.
Notation "x <- c ;; k" := (bind c (fun x => k))
  (at level 61, c at next level, right associativity) : sim_scope.
Open Scope sim_scope.

(** [a / b] for a computed divisor [b] *)
Definition divide (a b : Q) : Sim Q :=
  if Qeq_bool b 0 then raise DivisionByZero else ret (a / b).

(** [l[i]] where the element is used afterwards *)
Definition index {A} (l : list A) (i : nat) : Sim A :=
  match nth_error l i with
  | Some a => ret a
  | None => raise IndexOutOfRange
  end.

(** [Math.random()] *)
Definition Math_random `{JsEnv} : Sim Q :=
  fun s => Ok (random_draw s, S s).

(** [for (const i of idx) { out.push(body(i)) }] *)
Fixpoint forEach {A} (idx : list nat) (body : nat -> Sim A) : Sim (list A) :=
  match idx with
  | [] => ret []
  | i :: rest =>
      a <- body i ;;
      l <- forEach rest body ;;
      ret (a :: l)
  end.

(** [for (let i = 0; i < n; i++) { out.push(body(i)) }] *)
Definition for_push {A} (n : nat) (body : nat -> Sim A) : Sim (list A) :=
  forEach (seq 0 n) body.

(** [l.map(f)] for a callback that reads arrays *)
Fixpoint mapM {A B} (f : A -> Sim B) (l : list A) : Sim (list B) :=
  match l with
  | [] => ret []
  | a :: rest =>
      b <- f a ;;
      bs <- mapM f rest ;;
      ret (b :: bs)
  end.

(** ** The data model ([shared/schema.ts]) *)

Record ProcessParameters : Type := {
  rfPower : Q;
  pressure : Q;
  gasFlowCF4 : Q;
  gasFlowO2 : Q;
  gasFlowAr : Q;
  pulseEnabled : bool;
  pulseDutyCycle : option Q;
  pulseFrequency : option Q;
  processTime : Q;
  chamberRfHours : option Q
}.

(** An optional field, when present, obeys its bounds. *)
Definition within (lo hi : Q) (v : option Q) : Prop :=
  match v with
  | Some a => lo <= a /\ a <= hi
  | None => True
  end.

(** What [processParametersSchema.parse] accepts. *)
Definition valid_params (p : ProcessParameters) : Prop :=
  (100 <= rfPower p /\ rfPower p <= 2000) /\
  (1 <= pressure p /\ pressure p <= 100) /\
  (0 <= gasFlowCF4 p /\ gasFlowCF4 p <= 200) /\
  (0 <= gasFlowO2 p /\ gasFlowO2 p <= 100) /\
  (0 <= gasFlowAr p /\ gasFlowAr p <= 200) /\
  within 10 90 (pulseDutyCycle p) /\
  within 100 10000 (pulseFrequency p) /\
  (10 <= processTime p /\ processTime p <= 600) /\
  within 0 500 (chamberRfHours p).

Module Dimensions.
Record t : Type := { x : Q; y : Q; z : Q }.
End Dimensions.

Record RadicalDistribution : Type := {
  grid3D : list (list (list Q));
  grid : list (list Q);
  dimensions : Dimensions.t;
  centerEdgeRatio : Q;
  topBottomGradient : Q;
  highEnergyFraction : Q;
  residenceTimeIndex : Q;
  verticalUniformity : Q;
  wallLossFactor : Q
}.

Inductive DefectRisk : Type := risk_low | risk_medium | risk_high.

Record QualityMetrics : Type := {
  etchUniformity : Q;
  cdShift : Q;
  defectRisk : DefectRisk;
  defectRiskScore : Q
}.

Record RoiMetrics : Type := {
  estimatedBatchProfit : Q;
  potentialLossReduction : Q;
  waferCost : Q;
  batchSize : Q;
  yieldRate : Q
}.

Record StabilityDataPoint : Type := {
  time : Q;
  radicalDensity : Q;
  uniformity : Q;
  temperature : Q
}.

Inductive Priority : Type := high | medium | low.

Record ParameterRecommendation : Type := {
  parameter : string;
  currentValue : Q;
  recommendedValue : Q;
  reason : string;
  priority : Priority
}.

Inductive Status : Type := safe | warning | danger.

Record PredictionResult : Type := {
  id : string;
  timestamp : string;
  parameters : ProcessParameters;
  radicalDistribution : RadicalDistribution;
  qualityMetrics : QualityMetrics;
  roiMetrics : option RoiMetrics;
  stabilityTimeSeries : option (list StabilityDataPoint);
  status : Status;
  recommendations : option (list ParameterRecommendation)
}.

Definition DefectRisk_eqb (a b : DefectRisk) : bool :=
  match a, b with
  | risk_low, risk_low | risk_medium, risk_medium | risk_high, risk_high => true
  | _, _ => false
  end.

Definition Status_eqb (a b : Status) : bool :=
  match a, b with
  | safe, safe | warning, warning | danger, danger => true
  | _, _ => false
  end.


(** ** The engine ([server/storage.ts]) *)

Module ArraySort.

(** [Array.prototype.sort(cmp)] is a stable sort (ECMA-262, since ES2019):
    an element goes before the first element it does not have to follow.
    Insertion into the sorted tail realises this. *)
Fixpoint insert_by {A} (cmp : A -> A -> Q) (a : A) (l : list A) : list A :=
  match l with
  | [] => [a]
  | b :: rest =>
      if cmp a b <=? 0 then a :: b :: rest else b :: insert_by cmp a rest
  end.

Fixpoint sort {A} (cmp : A -> A -> Q) (l : list A) : list A :=
  match l with
  | [] => []
  | a :: rest => insert_by cmp a (sort cmp rest)
  end.

End ArraySort.

(** [l.push(a)] *)
Definition push {A} (l : list A) (a : A) : list A := l ++ [a].

(** [g[k][i][j]] and [layer[i][j]] *)
Definition at2 (layer : list (list Q)) (i j : nat) : Sim Q :=
  row <- index layer i ;; index row j.

Definition at3 (g : list (list (list Q))) (k i j : nat) : Sim Q :=
  layer <- index g k ;; at2 layer i j.

Section Engine.

Context `{JsEnv}.

Definition gridX : nat := 20.
Definition gridY : nat := 20.
Definition gridZ : nat := 10.

(** *** Normalised parameters (simulateRadicalDistribution, lines 93-125) *)

Definition powerFactor (params : ProcessParameters) : Q := rfPower params / 1000.
Definition pressureFactor (params : ProcessParameters) : Q := pressure params / 50.
Definition cf4Flow (params : ProcessParameters) : Q := gasFlowCF4 params / 100.
Definition o2Flow (params : ProcessParameters) : Q := gasFlowO2 params / 50.
Definition arFlow (params : ProcessParameters) : Q := gasFlowAr params / 100.

Definition rfHours (params : ProcessParameters) : Q :=
  orDefault (chamberRfHours params) 0.

Definition agingFactor (params : ProcessParameters) : Q :=
  1 + (rfHours params / 500) * 0.5.

Definition agingEdgePenalty (params : ProcessParameters) : Q :=
  1 - (rfHours params / 500) * 0.3.

Definition baseGeneration (params : ProcessParameters) : Q :=
  powerFactor params * (1 + cf4Flow params * 0.5) * (1 - pressureFactor params * 0.3).

Definition pulseModulation (params : ProcessParameters) : Q :=
  if pulseEnabled params
  then orDefault (pulseDutyCycle params) 50 / 100
       * (1 + Math_log10 (orDefault (pulseFrequency params) 1000 / 1000) * 0.1)
  else 1.

Definition wallLossCoeff (params : ProcessParameters) : Q :=
  (0.3 + (1 - pressureFactor params) * 0.2) * agingFactor params.

Definition injectionDecayRate (params : ProcessParameters) : Q :=
  0.2 + (1 - pressureFactor params) * 0.5 + arFlow params * 0.15.

(** *** One cell before the noise (loop body, lines 130-174) *)

Definition cellDensity (params : ProcessParameters) (k i j : nat) : Q :=
  let z := num k / (num gridZ - 1) in
  let heightDiffusion := Math_exp (- injectionDecayRate params * (1 - z)) in
  let waferLoss := 1 - 0.15 * Math_exp (- 4 * z) in
  let rfCouplingProfile := 1 + 0.2 * Math_sin (Math_PI * z) in
  let y := (num i - num gridY / 2) / (num gridY / 2) in
  let x := (num j - num gridX / 2) / (num gridX / 2) in
  let r := Math_sqrt (x * x + y * y) in
  let rWall := Qmax (Qabs x) (Qabs y) in
  let radialDecay :=
    0.2 + (1 - pressureFactor params) * 0.3 + powerFactor params * 0.2 in
  let radialProfile := Math_exp (- r * r * radialDecay) in
  let wallLoss :=
    Math_exp (- wallLossCoeff params * rWall * rWall * 0.6 * (1 + 0.2 * (1 - z))) in
  let pressureEdgeBoost :=
    pressureFactor params * 0.25 * (1 - Math_exp (- r * r * 2))
    * agingEdgePenalty params in
  let density := baseGeneration params * pulseModulation params in
  let density :=
    density * (radialProfile * heightDiffusion * waferLoss * rfCouplingProfile * wallLoss) in
  let density := density + pressureEdgeBoost * baseGeneration params * heightDiffusion in
  if powerFactor params >? 1.2
  then density + 0.1 * r * r * (powerFactor params - 1.2) * heightDiffusion
  else density.

(** The noise, the floor and the rounding of one cell (lines 177-180) *)
Definition noisyCell (density rnd : Q) : Q :=
  let noise := (rnd - 0.5) * 0.03 * density in
  let density := Qmax 0.05 (density + noise) in
  toFixed 4 density.

(** The three nested loops that fill [grid3D] (lines 128-185) *)
Definition generateGrid3D (params : ProcessParameters) : Sim (list (list (list Q))) :=
  for_push gridZ (fun k =>
    for_push gridY (fun i =>
      for_push gridX (fun j =>
        rnd <- Math_random ;;
        ret (noisyCell (cellDensity params k i j) rnd)))).

(** The mean of the four wall midpoints of one layer (line 219) *)
Definition wallMean (layer : list (list Q)) : Sim Q :=
  w1 <- at2 layer 0 (gridX / 2)%nat ;;
  w2 <- at2 layer (gridY - 1)%nat (gridX / 2)%nat ;;
  w3 <- at2 layer (gridY / 2)%nat 0 ;;
  w4 <- at2 layer (gridY / 2)%nat (gridX - 1)%nat ;;
  ret ((w1 + w2 + w3 + w4) / 4).

Definition simulateRadicalDistribution (params : ProcessParameters)
  : Sim RadicalDistribution :=
  diffusionCoeff <- divide 0.5 (pressureFactor params) ;;
  grid3D <- generateGrid3D params ;;
  let midZ := (gridZ / 2)%nat in
  grid2D <- index grid3D midZ ;;
  centerValue <- at3 grid3D midZ (gridY / 2)%nat (gridX / 2)%nat ;;
  e1 <- at3 grid3D midZ 0 (gridX / 2)%nat ;;
  e2 <- at3 grid3D midZ (gridY - 1)%nat (gridX / 2)%nat ;;
  e3 <- at3 grid3D midZ (gridY / 2)%nat 0 ;;
  e4 <- at3 grid3D midZ (gridY / 2)%nat (gridX - 1)%nat ;;
  let edgeValues := [e1; e2; e3; e4] in
  avgEdge <- divide (sum edgeValues) (num (length edgeValues)) ;;
  bottomLayer <- index grid3D 0 ;;
  topLayer <- index grid3D (gridZ - 1)%nat ;;
  let avgBottom := sum (concat bottomLayer) / (num gridX * num gridY) in
  let avgTop := sum (concat topLayer) / (num gridX * num gridY) in
  let allValues := concat (concat grid3D) in
  mean3D <- divide (sum allValues) (num (length allValues)) ;;
  variance3D <-
    divide (fold_left (fun acc v => acc + (v - mean3D) ^ 2) allValues 0)
           (num (length allValues)) ;;
  spread <- divide (Math_sqrt variance3D) mean3D ;;
  let verticalUniformity := toFixed 1 (100 - spread * 100) in
  centers <- mapM (fun layer => at2 layer (gridY / 2)%nat (gridX / 2)%nat) grid3D ;;
  let centerAvg := sum centers / num gridZ in
  walls <- mapM wallMean grid3D ;;
  let wallAvg := sum walls / num gridZ in
  lossRatio <- divide wallAvg centerAvg ;;
  let wallLossFactor := toFixed 3 (1 - lossRatio) in
  ratio <- divide centerValue avgEdge ;;
  gradient <- divide avgTop avgBottom ;;
  residence <- divide 10 (pressureFactor params) ;;
  ret {| grid3D := grid3D;
         grid := grid2D;
         dimensions := {| Dimensions.x := num gridX;
                          Dimensions.y := num gridY;
                          Dimensions.z := num gridZ |};
         centerEdgeRatio := toFixed 3 ratio;
         topBottomGradient := toFixed 3 gradient;
         highEnergyFraction :=
           toFixed 3 (0.15 + powerFactor params * 0.2 - pressureFactor params * 0.1);
         residenceTimeIndex := toFixed 2 (residence * (1 + arFlow params * 0.2));
         verticalUniformity := verticalUniformity;
         wallLossFactor := wallLossFactor |}.

(** *** Quality prediction *)

(** The uniformity after all penalties, bonuses and the clamp (lines 241-275) *)
Definition computeUniformity (params : ProcessParameters)
    (distribution : RadicalDistribution) : Q :=
  let ratioDeviation := Qabs (centerEdgeRatio distribution - 1) in
  let gradientDeviation := Qabs (topBottomGradient distribution - 1) in
  let uniformity := 100 - ratioDeviation * 15 - gradientDeviation * 10 in
  let uniformity :=
    if centerEdgeRatio distribution >? 1.5 then
      let excessRatio := centerEdgeRatio distribution - 1.5 in
      let penaltyFactor := Math_exp (- 2.5 * excessRatio * excessRatio) in
      let uniformity := uniformity * penaltyFactor in
      uniformity - excessRatio * 25
    else uniformity in
  let uniformity :=
    if centerEdgeRatio distribution <? 0.7 then
      let deficit := 0.7 - centerEdgeRatio distribution in
      uniformity - deficit * 30
    else uniformity in
  let uniformity := if pulseEnabled params then uniformity + 2 else uniformity in
  let uniformity :=
    if pressure params >? 60 then uniformity - (pressure params - 60) * 0.1
    else uniformity in
  Qmax 50 (Qmin 99.5 uniformity).

(** The CD shift for a given draw of the noise (lines 278-287) *)
Definition computeCdShift (distribution : RadicalDistribution) (rnd : Q) : Q :=
  let cdShift := (centerEdgeRatio distribution - 1) * 2 in
  let cdShift := cdShift + (highEnergyFraction distribution - 0.25) * 3 in
  let cdShift :=
    if centerEdgeRatio distribution >? 1.5
    then cdShift + (centerEdgeRatio distribution - 1.5) * 4
    else cdShift in
  let cdShift := cdShift + (rnd - 0.5) * 0.5 in
  toFixed 2 cdShift.

(** The risk score for a given draw of the noise (lines 290-302) *)
Definition computeRiskScore (params : ProcessParameters)
    (distribution : RadicalDistribution) (rnd : Q) : Q :=
  let ratioDeviation := Qabs (centerEdgeRatio distribution - 1) in
  let gradientDeviation := Qabs (topBottomGradient distribution - 1) in
  let riskScore := 0 in
  let riskScore := riskScore + ratioDeviation * 30 in
  let riskScore := riskScore + gradientDeviation * 20 in
  let riskScore := riskScore + Qmax 0 (highEnergyFraction distribution - 0.35) * 50 in
  let riskScore := riskScore + Qmax 0 (rfPower params - 1500) / 50 in
  let riskScore := riskScore + Qmax 0 (10 - pressure params) * 2 in
  let riskScore :=
    if centerEdgeRatio distribution >? 1.5
    then riskScore + (centerEdgeRatio distribution - 1.5) * 40
    else riskScore in
  Qmin 100 (Qmax 0 (riskScore + (rnd - 0.5) * 5)).

(** lines 304-306 *)
Definition classifyRisk (riskScore : Q) : DefectRisk :=
  if riskScore <? 25 then risk_low
  else if riskScore <? 55 then risk_medium
  else risk_high.

(** lines 309-316 *)
Definition classifyStatus (uniformity cdShift : Q) (defectRisk : DefectRisk) : Status :=
  if (uniformity >=? 94) && (Qabs cdShift <=? 2) && DefectRisk_eqb defectRisk risk_low
  then safe
  else if (uniformity >=? 88) && (Qabs cdShift <=? 4)
          && negb (DefectRisk_eqb defectRisk risk_high)
  then warning
  else danger.

Definition predictQualityMetrics (params : ProcessParameters)
    (distribution : RadicalDistribution) : Sim (QualityMetrics * Status) :=
  let uniformity := computeUniformity params distribution in
  rnd1 <- Math_random ;;
  let cdShift := computeCdShift distribution rnd1 in
  rnd2 <- Math_random ;;
  let riskScore := computeRiskScore params distribution rnd2 in
  let defectRisk := classifyRisk riskScore in
  let status := classifyStatus uniformity cdShift defectRisk in
  ret ({| etchUniformity := toFixed 1 uniformity;
          cdShift := cdShift;
          defectRisk := defectRisk;
          defectRiskScore := toFixed 1 riskScore |},
       status).

(** *** Recommendations *)

Definition priorityOrder (p : Priority) : Q :=
  match p with
  | high => 0
  | medium => 1
  | low => 2
  end.

(** The comparator handed to [sort] (line 455) *)
Definition byPriority (a b : ParameterRecommendation) : Q :=
  priorityOrder (priority a) - priorityOrder (priority b).

(** The recommendations in the order in which the triggers push them
    (lines 342-451), before they are sorted and cut *)
Definition triggeredRecommendations (params : ProcessParameters)
    (distribution : RadicalDistribution) (metrics : QualityMetrics)
  : list ParameterRecommendation :=
  let recommendations := [] in
  let recommendations :=
    if centerEdgeRatio distribution >? 1.5 then
      let recommendations :=
        if pressure params <? 30 then
          push recommendations
            {| parameter := "Pressure";
               currentValue := pressure params;
               recommendedValue := Qmin (pressure params + 10) 35;
               reason := "Center/Edge Ratio가 1.5를 초과했습니다. 압력을 높이면 라디칼 확산이 개선되어 균일도가 향상됩니다.";
               priority := high |}
        else recommendations in
      let recommendations :=
        if rfPower params >? 800 then
          push recommendations
            {| parameter := "RF Power";
               currentValue := rfPower params;
               recommendedValue := Qmax (rfPower params - 200) 500;
               reason := "RF Power가 높아 중앙부 플라즈마 밀도가 과도합니다. Power를 낮추면 Center/Edge Ratio가 개선됩니다.";
               priority := high |}
        else recommendations in
      if negb (pulseEnabled params) then
        push recommendations
          {| parameter := "Pulse Mode";
             currentValue := 0;
             recommendedValue := 1;
             reason := "펄스 모드를 활성화하면 플라즈마 분포가 균일해지고 Center/Edge Ratio가 감소합니다.";
             priority := medium |}
      else recommendations
    else recommendations in
  let recommendations :=
    if etchUniformity metrics <? 88 then
      if gasFlowAr params <? 80 then
        push recommendations
          {| parameter := "Ar Flow";
             currentValue := gasFlowAr params;
             recommendedValue := Qmin (gasFlowAr params + 30) 120;
             reason := "Ar 유량을 늘리면 플라즈마 안정성이 향상되어 에칭 균일도가 개선됩니다.";
             priority := medium |}
      else recommendations
    else recommendations in
  let recommendations :=
    if Qabs (cdShift metrics) >? 3 then
      let recommendations :=
        if highEnergyFraction distribution >? 0.35 then
          push recommendations
            {| parameter := "RF Power";
               currentValue := rfPower params;
               recommendedValue := Qmax (rfPower params - 150) 400;
               reason := "고에너지 라디칼 비율이 높아 CD Shift가 크게 발생합니다. RF Power를 낮춰주세요.";
               priority := high |}
        else recommendations in
      if (gasFlowO2 params <? 20) && (cdShift metrics >? 0) then
        push recommendations
          {| parameter := "O2 Flow";
             currentValue := gasFlowO2 params;
             recommendedValue := Qmin (gasFlowO2 params + 10) 30;
             reason := "O2 유량을 늘리면 에칭 속도가 조절되어 CD Shift가 감소합니다.";
             priority := medium |}
      else recommendations
    else recommendations in
  let recommendations :=
    if DefectRisk_eqb (defectRisk metrics) risk_high then
      let recommendations :=
        if pressure params <? 15 then
          push recommendations
            {| parameter := "Pressure";
               currentValue := pressure params;
               recommendedValue := Qmin (pressure params + 8) 25;
               reason := "저압 조건에서 결함 위험이 높습니다. 압력을 높이면 이온 에너지가 감소하여 결함이 줄어듭니다.";
               priority := high |}
        else recommendations in
      if gasFlowCF4 params >? 80 then
        push recommendations
          {| parameter := "CF4 Flow";
             currentValue := gasFlowCF4 params;
             recommendedValue := Qmax (gasFlowCF4 params - 20) 50;
             reason := "CF4 유량이 과도합니다. 유량을 줄이면 에칭 공격성이 감소하여 결함 위험이 낮아집니다.";
             priority := medium |}
      else recommendations
    else recommendations in
  if Qabs (topBottomGradient distribution - 1) >? 0.3 then
    if gasFlowAr params <? 100 then
      push recommendations
        {| parameter := "Ar Flow";
           currentValue := gasFlowAr params;
           recommendedValue := Qmin (gasFlowAr params + 25) 130;
           reason := "상하 그래디언트가 큽니다. Ar 유량을 늘려 수직 분포를 개선하세요.";
           priority := low |}
    else recommendations
  else recommendations.

Definition generateRecommendations (params : ProcessParameters)
    (distribution : RadicalDistribution) (metrics : QualityMetrics)
    (status : Status) : list ParameterRecommendation :=
  if Status_eqb status safe then []
  else
    let recommendations := triggeredRecommendations params distribution metrics in
    let recommendations := ArraySort.sort byPriority recommendations in
    firstn 3 recommendations.

(** *** Stability time series *)

(** [numPoints] (line 468) *)
Definition numPoints (params : ProcessParameters) : Z :=
  Z.min 60 (Qfloor (processTime params / 5) + 1).

(** The three phases (lines 491-511): the density multiplier, the change of
    uniformity and the temperature at normalised time [t] *)
Definition phase (agingInstability t : Q) : Q * Q * Q :=
  if t <? 0.1 then
    let densityMultiplier := 1 - Math_exp (- t * 30) in
    let uniformityDelta := - 5 * (1 - densityMultiplier) in
    let temperature := 0.3 + 0.4 * t / 0.1 in
    (densityMultiplier, uniformityDelta, temperature)
  else if t <? 0.8 then
    let driftPhase := (t - 0.1) / 0.7 in
    let densityMultiplier := 1 + agingInstability * Math_sin (driftPhase * Math_PI) in
    let uniformityDelta :=
      - agingInstability * 10 * Math_sin (driftPhase * Math_PI * 2) in
    let temperature := 0.7 + 0.2 * driftPhase in
    (densityMultiplier, uniformityDelta, temperature)
  else
    let densityMultiplier := 1 + agingInstability * 0.3 in
    let uniformityDelta := - agingInstability * 3 in
    let temperature := 0.85 + 0.1 * ((t - 0.8) / 0.2) in
    (densityMultiplier, uniformityDelta, temperature).

(** One sample (loop body, lines 483-524) *)
Definition stabilitySample (params : ProcessParameters) (baseDensity baseUniformity : Q)
    (i : nat) : Sim StabilityDataPoint :=
  let agingInstability := (rfHours params / 500) * 0.15 in
  let pulseStability := if pulseEnabled params then 0.98 else 0.85 in
  fraction <- divide (num i) (inject_Z (numPoints params) - 1) ;;
  let time := fraction * processTime params in
  t <- divide time (processTime params) ;;
  let '(densityMultiplier, uniformityDelta, temperature) := phase agingInstability t in
  let densityMultiplier := densityMultiplier * pulseStability in
  rnd <- Math_random ;;
  let noise := (rnd - 0.5) * 0.02 * (1 + agingInstability) in
  ret {| time := toFixed 1 time;
         radicalDensity := toFixed 4 (baseDensity * densityMultiplier * (1 + noise));
         uniformity :=
           toFixed 1 (Qmax 50 (Qmin 100 (baseUniformity + uniformityDelta + noise * 10)));
         temperature := toFixed 3 (Qmin 1 (Qmax 0 (temperature + noise * 0.1))) |}.

Definition generateStabilityTimeSeries (params : ProcessParameters)
    (distribution : RadicalDistribution) (metrics : QualityMetrics)
  : Sim (list StabilityDataPoint) :=
  let baseUniformity := etchUniformity metrics in
  baseDensity <- at3 (grid3D distribution) 5 10 10 ;;
  for_push (Z.to_nat (numPoints params))
    (stabilitySample params baseDensity baseUniformity).

(** *** Return on investment *)

Definition calculateRoiMetrics (params : ProcessParameters)
    (metrics : QualityMetrics) (status : Status) : RoiMetrics :=
  let waferCost := 150 in
  let batchSize := 25 in
  let baseSellingPrice := 200 in
  let yieldRate := etchUniformity metrics * 0.8 in
  let yieldRate :=
    match defectRisk metrics with
    | risk_medium => yieldRate - 10
    | risk_high => yieldRate - 25
    | risk_low => yieldRate
    end in
  let yieldRate := yieldRate - Qabs (cdShift metrics) * 2 in
  let yieldRate := Qmax 30 (Qmin 99 yieldRate) in
  let goodWafers := inject_Z (Qfloor (batchSize * yieldRate / 100)) in
  let scrappedWafers := batchSize - goodWafers in
  let revenue := goodWafers * baseSellingPrice in
  let materialCost := batchSize * waferCost in
  let scrapLoss := scrappedWafers * waferCost * 0.5 in
  let estimatedBatchProfit := revenue - materialCost - scrapLoss in
  let optimalYield := 98 in
  let optimalProfit :=
    inject_Z (Qfloor (batchSize * optimalYield / 100)) * baseSellingPrice
    - batchSize * waferCost in
  let potentialLossReduction :=
    match status with
    | danger => optimalProfit - estimatedBatchProfit
    | warning => (optimalProfit - estimatedBatchProfit) * 0.5
    | safe => 0
    end in
  {| estimatedBatchProfit := toFixed 0 estimatedBatchProfit;
     potentialLossReduction := toFixed 0 potentialLossReduction;
     waferCost := waferCost;
     batchSize := batchSize;
     yieldRate := toFixed 1 yieldRate |}.

(** *** The prediction *)

Definition generatePrediction (params : ProcessParameters) : Sim PredictionResult :=
  radicalDistribution <- simulateRadicalDistribution params ;;
  quality <- predictQualityMetrics params radicalDistribution ;;
  let '(metrics, status) := quality in
  let recommendations :=
    generateRecommendations params radicalDistribution metrics status in
  let roiMetrics := calculateRoiMetrics params metrics status in
  stabilityTimeSeries <-
    generateStabilityTimeSeries params radicalDistribution metrics ;;
  ret {| id := randomUUID;
         timestamp := nowISOString;
         parameters := params;
         radicalDistribution := radicalDistribution;
         qualityMetrics := metrics;
         roiMetrics := Some roiMetrics;
         stabilityTimeSeries := Some stabilityTimeSeries;
         status := status;
         recommendations :=
           if (0 <? List.length recommendations)%nat
           then Some recommendations else None |}.

End Engine.

(** ** A reference host

    A host on which the engine can be run: the transcendental functions are
    evaluated in fixed point with twelve decimals (truncated Taylor series
    after argument reduction, the integer square root), and every call of
    [Math.random()] returns [0.5], which switches the noise off. *)

Module ReferenceHost.

Definition one : Z := (10 ^ 12)%Z.

Definition toFix (x : Q) : Z := Qfloor (x * inject_Z one).
Definition ofFix (n : Z) : Q := n # Z.to_pos one.

(** [term + term*X/1 + term*X^2/2! + ...], [fuel] terms, from index [n] *)
Fixpoint expSeries (fuel : nat) (n term X : Z) : Z :=
  match fuel with
  | O => 0%Z
  | S fuel' =>
      (term + expSeries fuel' (n + 1) (term * X / (one * (n + 1))) X)%Z
  end.

Fixpoint squareTimes (k : nat) (e : Z) : Z :=
  match k with
  | O => e
  | S k' => squareTimes k' (e * e / one)%Z
  end.

(** [exp x = (exp (x / 64)) ^ 64] *)
Definition exp (x : Q) : Q :=
  ofFix (squareTimes 6 (expSeries 14 0 one (toFix (x / 64)))).

(** [X - X^3/3! + X^5/5! - ...] *)
Fixpoint sinSeries (fuel : nat) (n term X : Z) : Z :=
  match fuel with
  | O => 0%Z
  | S fuel' =>
      (term + sinSeries fuel' (n + 2)
                (- (term * X / one * X / one) / ((n + 1) * (n + 2))) X)%Z
  end.

Definition sin (x : Q) : Q :=
  let X := toFix x in ofFix (sinSeries 16 1 X X).

Definition sqrt (x : Q) : Q := ofFix (Z.sqrt (toFix x * one)).

(** [ln x = 2 (y + y^3/3 + y^5/5 + ...)] with [y = (x - 1) / (x + 1)] *)
Fixpoint lnSeries (fuel : nat) (n power Y : Z) : Z :=
  match fuel with
  | O => 0%Z
  | S fuel' =>
      (power / n + lnSeries fuel' (n + 2) (power * Y / one * Y / one) Y)%Z
  end.

Definition ln (x : Q) : Q :=
  let Y := toFix ((x - 1) / (x + 1)) in ofFix (2 * lnSeries 90 1 Y Y).

Definition log10 (x : Q) : Q := Qred (ln x / ln 10).

#[export] Instance host : JsEnv := {|
  Math_exp := exp;
  Math_sin := sin;
  Math_sqrt := sqrt;
  Math_log10 := log10;
  Math_PI := 3.141592653589793;
  random_draw := fun _ => 0.5;
  randomUUID := "00000000-0000-4000-8000-000000000000";
  nowISOString := "2024-01-01T00:00:00.000Z"
|}.

End ReferenceHost.

(** A valid parameter record for which no recommendation guard is open:
    the pressure is at least 30, the RF power at most 800, the pulse mode is
    on, the O2 flow at least 20, the CF4 flow at most 80 and the Ar flow at
    least 100. *)
Definition quietParams : ProcessParameters := {|
  rfPower := 500;
  pressure := 100;
  gasFlowCF4 := 80;
  gasFlowO2 := 20;
  gasFlowAr := 100;
  pulseEnabled := true;
  pulseDutyCycle := Some 10;
  pulseFrequency := Some 1000;
  processTime := 120;
  chamberRfHours := Some 0
|}.

(** ** Closed forms of the loops *)

Section ClosedForms.

Context `{JsEnv}.

(** What the loops of [generateGrid3D], entered after [s] calls of
    [Math.random()], store at [grid3D[k][i][j]]: the cells are filled layer
    by layer and row by row, one draw each. *)
Definition cellOf (params : ProcessParameters) (s k i j : nat) : Q :=
  noisyCell (cellDensity params k i j) (random_draw (s + k * 400 + i * 20 + j)).

Definition rowOf (params : ProcessParameters) (s k i : nat) : list Q :=
  map (cellOf params s k i) (seq 0 gridX).

Definition layerOf (params : ProcessParameters) (s k : nat) : list (list Q) :=
  map (rowOf params s k) (seq 0 gridY).

Definition gridOf (params : ProcessParameters) (s : nat) : list (list (list Q)) :=
  map (layerOf params s) (seq 0 gridZ).

(** The centre/edge ratio that [simulateRadicalDistribution] reports for
    that grid (lines 193-202 and 227) *)
Definition ratioOf (params : ProcessParameters) (s : nat) : Q :=
  toFixed 3
    (cellOf params s 5 10 10
     / (sum [cellOf params s 5 0 10; cellOf params s 5 19 10;
             cellOf params s 5 10 0; cellOf params s 5 10 19] / num 4)).

(** The top/bottom gradient reported for that grid (lines 205-208 and 228) *)
Definition gradientOf (params : ProcessParameters) (s : nat) : Q :=
  toFixed 3
    (sum (concat (layerOf params s 9)) / (num gridX * num gridY)
     / (sum (concat (layerOf params s 0)) / (num gridX * num gridY))).

End ClosedForms.

(** ** Vocabulary of the statements *)



(** The recommendation list of a result; an absent field is the empty list. *)
Definition recommendationList (r : PredictionResult) : list ParameterRecommendation :=
  match recommendations r with
  | Some l => l
  | None => []
  end.

(** The penalty of the yield for a defect risk (lines 546-550) *)
Definition riskPenalty (risk : DefectRisk) : Q :=
  match risk with
  | risk_low => 0
  | risk_medium => 10
  | risk_high => 25
  end.

(** ** Closed forms of the remaining descriptors *)

Section DescriptorForms.

Context `{JsEnv}.

(** The vertical uniformity reported for the grid (lines 211-214) *)
Definition verticalUniformityOf (params : ProcessParameters) (s : nat) : Q :=
  let allValues := concat (concat (gridOf params s)) in
  let mean3D := sum allValues / num (List.length allValues) in
  let variance3D :=
    fold_left (fun acc v => acc + (v - mean3D) ^ 2) allValues 0
    / num (List.length allValues) in
  toFixed 1 (100 - Math_sqrt variance3D / mean3D * 100).

(** The wall loss factor reported for the grid (lines 217-221) *)
Definition wallLossFactorOf (params : ProcessParameters) (s : nat) : Q :=
  let centerAvg :=
    sum (map (fun k => cellOf params s k 10 10) (seq 0 gridZ)) / num gridZ in
  let wallAvg :=
    sum (map (fun k => (cellOf params s k 0 10 + cellOf params s k 19 10
                        + cellOf params s k 10 0 + cellOf params s k 10 19) / 4)
             (seq 0 gridZ)) / num gridZ in
  toFixed 3 (1 - wallAvg / centerAvg).

(** The whole record that the simulator returns when it is entered after
    [s] draws (lines 223-233) *)
Definition distributionOf (params : ProcessParameters) (s : nat) : RadicalDistribution :=
  {| grid3D := gridOf params s;
     grid := layerOf params s 5;
     dimensions := {| Dimensions.x := 20; Dimensions.y := 20; Dimensions.z := 10 |};
     centerEdgeRatio := ratioOf params s;
     topBottomGradient := gradientOf params s;
     highEnergyFraction :=
       toFixed 3 (0.15 + powerFactor params * 0.2 - pressureFactor params * 0.1);
     residenceTimeIndex :=
       toFixed 2 (10 / pressureFactor params * (1 + arFlow params * 0.2));
     verticalUniformity := verticalUniformityOf params s;
     wallLossFactor := wallLossFactorOf params s |}.

End DescriptorForms.

(** The statuses and the risks from best to worst *)
Definition statusRank (st : Status) : nat :=
  match st with
  | safe => 0
  | warning => 1
  | danger => 2
  end.

Definition riskRank (r : DefectRisk) : nat :=
  match r with
  | risk_low => 0
  | risk_medium => 1
  | risk_high => 2
  end.

(** A recommendation for the RF power or the CF4 flow lowers the value; a
    recommendation for any other parameter raises it. *)
Definition lowering (name : string) : bool :=
  (String.eqb name "RF Power" || String.eqb name "CF4 Flow")%bool.

Definition helpful (r : ParameterRecommendation) : Prop :=
  if lowering (parameter r) then recommendedValue r < currentValue r
  else currentValue r < recommendedValue r.

(** The interval that [processParametersSchema] allows for the parameter a
    recommendation names; the pulse mode is a flag, 0 or 1. *)
Definition schemaRange (name : string) : Q * Q :=
  if String.eqb name "RF Power" then (100, 2000)
  else if String.eqb name "Pressure" then (1, 100)
  else if String.eqb name "CF4 Flow" then (0, 200)
  else if String.eqb name "O2 Flow" then (0, 100)
  else if String.eqb name "Ar Flow" then (0, 200)
  else (0, 1).

Definition inSchemaRange (r : ParameterRecommendation) : Prop :=
  fst (schemaRange (parameter r)) <= recommendedValue r
  /\ recommendedValue r <= snd (schemaRange (parameter r)).

(** ** The legacy two-dimensional engine ([server/storage.ts], first version) *)

Module Legacy.

Record RadicalDistribution : Type := {
  grid : list (list Q);
  centerEdgeRatio : Q;
  topBottomGradient : Q;
  highEnergyFraction : Q;
  residenceTimeIndex : Q
}.

Record PredictionResult : Type := {
  id : string;
  timestamp : string;
  parameters : ProcessParameters;
  radicalDistribution : RadicalDistribution;
  qualityMetrics : QualityMetrics;
  status : Status
}.

(** [g[i]?.[j]] *)
Definition optAt (g : list (list Q)) (i j : nat) : option Q :=
  match nth_error g i with
  | Some row => nth_error row j
  | None => None
  end.

(** [l.filter(v => v !== undefined)] *)
Definition defined (l : list (option Q)) : list Q :=
  flat_map (fun o => match o with Some v => [v] | None => [] end) l.

(** [g[i] || []] *)
Definition rowOr (g : list (list Q)) (i : nat) : list Q :=
  match nth_error g i with
  | Some row => row
  | None => []
  end.

Section Engine.

Context `{JsEnv}.

Definition gridSize : nat := 20.

(** One cell before the noise (loop body, lines 39-56) *)
Definition cellDensity (params : ProcessParameters) (i j : nat) : Q :=
  let y := (num i - num gridSize / 2) / (num gridSize / 2) in
  let x := (num j - num gridSize / 2) / (num gridSize / 2) in
  let r := Math_sqrt (x * x + y * y) in
  let radialProfile := Math_exp (- r * r * (0.5 + pressureFactor params * 0.3)) in
  let verticalProfile := 1 + y * 0.2 * (1 - arFlow params * 0.3) in
  let edgeEnhancement :=
    if powerFactor params >? 1.2 then 0.15 * r * r * powerFactor params else 0 in
  let density :=
    baseGeneration params * radialProfile * verticalProfile * pulseModulation params in
  density + edgeEnhancement.

(** The noise, the floor and the rounding of one cell (lines 58-62) *)
Definition noisyCell (density rnd : Q) : Q :=
  let noise := (rnd - 0.5) * 0.05 * density in
  let density := Qmax 0.1 (density + noise) in
  toFixed 4 density.

(** The two nested loops that fill [grid] (lines 37-65) *)
Definition generateGrid (params : ProcessParameters) : Sim (list (list Q)) :=
  for_push gridSize (fun i =>
    for_push gridSize (fun j =>
      rnd <- Math_random ;;
      ret (noisyCell (cellDensity params i j) rnd))).

Definition simulateRadicalDistribution (params : ProcessParameters)
  : Sim RadicalDistribution :=
  grid <- generateGrid params ;;
  let centerValue := orDefault (optAt grid (gridSize / 2)%nat (gridSize / 2)%nat) 1 in
  let edgeValues :=
    defined [optAt grid 0 (gridSize / 2)%nat;
             optAt grid (gridSize - 1)%nat (gridSize / 2)%nat;
             optAt grid (gridSize / 2)%nat 0;
             optAt grid (gridSize / 2)%nat (gridSize - 1)%nat] in
  avgEdge <- divide (sum edgeValues) (num (List.length edgeValues)) ;;
  let topRow := rowOr grid 0 in
  let bottomRow := rowOr grid (gridSize - 1)%nat in
  avgTop <- divide (sum topRow) (num (List.length topRow)) ;;
  avgBottom <- divide (sum bottomRow) (num (List.length bottomRow)) ;;
  ratio <- divide centerValue avgEdge ;;
  gradient <- divide avgTop avgBottom ;;
  residence <- divide 10 (pressureFactor params) ;;
  ret {| grid := grid;
         centerEdgeRatio := toFixed 3 ratio;
         topBottomGradient := toFixed 3 gradient;
         highEnergyFraction :=
           toFixed 3 (0.15 + powerFactor params * 0.2 - pressureFactor params * 0.1);
         residenceTimeIndex := toFixed 2 (residence * (1 + arFlow params * 0.2)) |}.

(** The uniformity after the bonus, the penalty and the clamp (lines 97-112) *)
Definition computeUniformity (params : ProcessParameters)
    (distribution : RadicalDistribution) : Q :=
  let ratioDeviation := Qabs (centerEdgeRatio distribution - 1) in
  let gradientDeviation := Qabs (topBottomGradient distribution - 1) in
  let uniformity := 100 - ratioDeviation * 15 - gradientDeviation * 10 in
  let uniformity := if pulseEnabled params then uniformity + 2 else uniformity in
  let uniformity :=
    if pressure params >? 60 then uniformity - (pressure params - 60) * 0.1
    else uniformity in
  Qmax 75 (Qmin 99.5 uniformity).

(** lines 115-118 *)
Definition computeCdShift (distribution : RadicalDistribution) (rnd : Q) : Q :=
  let cdShift := (centerEdgeRatio distribution - 1) * 2 in
  let cdShift := cdShift + (highEnergyFraction distribution - 0.25) * 3 in
  let cdShift := cdShift + (rnd - 0.5) * 0.5 in
  toFixed 2 cdShift.

(** lines 121-127 *)
Definition computeRiskScore (params : ProcessParameters)
    (distribution : RadicalDistribution) (rnd : Q) : Q :=
  let ratioDeviation := Qabs (centerEdgeRatio distribution - 1) in
  let gradientDeviation := Qabs (topBottomGradient distribution - 1) in
  let riskScore := 0 in
  let riskScore := riskScore + ratioDeviation * 30 in
  let riskScore := riskScore + gradientDeviation * 20 in
  let riskScore := riskScore + Qmax 0 (highEnergyFraction distribution - 0.35) * 50 in
  let riskScore := riskScore + Qmax 0 (rfPower params - 1500) / 50 in
  let riskScore := riskScore + Qmax 0 (10 - pressure params) * 2 in
  Qmin 100 (Qmax 0 (riskScore + (rnd - 0.5) * 5)).

Definition predictQualityMetrics (params : ProcessParameters)
    (distribution : RadicalDistribution) : Sim (QualityMetrics * Status) :=
  let uniformity := computeUniformity params distribution in
  rnd1 <- Math_random ;;
  let cdShift := computeCdShift distribution rnd1 in
  rnd2 <- Math_random ;;
  let riskScore := computeRiskScore params distribution rnd2 in
  let defectRisk := classifyRisk riskScore in
  let status := classifyStatus uniformity cdShift defectRisk in
  ret ({| etchUniformity := toFixed 1 uniformity;
          cdShift := cdShift;
          defectRisk := defectRisk;
          defectRiskScore := toFixed 1 riskScore |},
       status).

Definition generatePrediction (params : ProcessParameters) : Sim PredictionResult :=
  radicalDistribution <- simulateRadicalDistribution params ;;
  quality <- predictQualityMetrics params radicalDistribution ;;
  let '(metrics, status) := quality in
  ret {| id := randomUUID;
         timestamp := nowISOString;
         parameters := params;
         radicalDistribution := radicalDistribution;
         qualityMetrics := metrics;
         status := status |}.

(** What the loops store at [grid[i][j]] when entered after [s] draws *)
Definition cellOf (params : ProcessParameters) (s i j : nat) : Q :=
  noisyCell (cellDensity params i j) (random_draw (s + i * 20 + j)).

Definition rowOf (params : ProcessParameters) (s i : nat) : list Q :=
  map (cellOf params s i) (seq 0 gridSize).

Definition gridOf (params : ProcessParameters) (s : nat) : list (list Q) :=
  map (rowOf params s) (seq 0 gridSize).

End Engine.

End Legacy.

(** ** The in-memory storage ([server/storage.ts], class [MemStorage]) *)

(** A JavaScript [Map] with string keys: the entries in insertion order,
    at most one per key; [set] on a present key replaces the value where
    the entry stands. *)
Module JsMap.

Definition t (V : Type) : Type := list (string * V).

Fixpoint set {V} (k : string) (v : V) (m : t V) : t V :=
  match m with
  | [] => [(k, v)]
  | (k', v') :: rest =>
      if String.eqb k k' then (k, v) :: rest else (k', v') :: set k v rest
  end.

Fixpoint get {V} (k : string) (m : t V) : option V :=
  match m with
  | [] => None
  | (k', v') :: rest => if String.eqb k k' then Some v' else get k rest
  end.

Definition values {V} (m : t V) : list V := map snd m.

Definition keys {V} (m : t V) : list string := map fst m.

Definition clear {V} (m : t V) : t V := [].

End JsMap.

Module User.
Record t : Type := { id : string; username : string; password : string }.
End User.

Module InsertUser.
Record t : Type := { username : string; password : string }.
End InsertUser.

Module MemStorage.

Record t : Type := {
  users : JsMap.t User.t;
  predictions : JsMap.t PredictionResult
}.

(** [new MemStorage()] *)
Definition create : t := {| users := []; predictions := [] |}.

Definition getUser (id : string) (st : t) : option User.t :=
  JsMap.get id (users st).

Definition getUserByUsername (username : string) (st : t) : option User.t :=
  find (fun user => String.eqb (User.username user) username)
       (JsMap.values (users st)).

(** [createUser]; [uuid] is what [randomUUID()] returns at this call *)
Definition createUser (insertUser : InsertUser.t) (uuid : string) (st : t)
  : User.t * t :=
  let user := {| User.id := uuid;
                 User.username := InsertUser.username insertUser;
                 User.password := InsertUser.password insertUser |} in
  (user, {| users := JsMap.set uuid user (users st);
            predictions := predictions st |}).

(** [getAllPredictions]; [getTime ts] is [new Date(ts).getTime()] *)
Definition getAllPredictions (getTime : string -> Q) (st : t)
  : list PredictionResult :=
  ArraySort.sort (fun a b => getTime (timestamp b) - getTime (timestamp a))
                 (JsMap.values (predictions st)).

Definition getPrediction (key : string) (st : t) : option PredictionResult :=
  JsMap.get key (predictions st).

Definition savePrediction (prediction : PredictionResult) (st : t)
  : PredictionResult * t :=
  (prediction,
   {| users := users st;
      predictions := JsMap.set (id prediction) prediction (predictions st) |}).

Definition clearPredictions (st : t) : t :=
  {| users := users st; predictions := JsMap.clear (predictions st) |}.

(** Every prediction is filed under its own identifier, once. *)
Definition wellKeyed (st : t) : Prop :=
  NoDup (JsMap.keys (predictions st))
  /\ Forall (fun entry => fst entry = id (snd entry)) (predictions st).

End MemStorage.

(** ** Request validation ([shared/schema.ts], [processParametersSchema]) *)

(** A parsed JSON value; an object holds one entry per key. *)
#[warnings="-register-all"]
Inductive Json : Type :=
| JNull
| JBoolean (b : bool)
| JNumber (n : Q)
| JString (s : string)
| JArray (items : list Json)
| JObject (fields : list (string * Json)).

Module Zod.

Definition property (name : string) (fields : list (string * Json)) : option Json :=
  JsMap.get name fields.

(** [z.number().min(lo).max(hi)]; [None] is a validation issue *)
Definition number (lo hi : Q) (name : string) (fields : list (string * Json))
  : option Q :=
  match property name fields with
  | Some (JNumber n) => if (lo <=? n) && (n <=? hi) then Some n else None
  | _ => None
  end.

(** [z.number().min(lo).max(hi).optional()] *)
Definition optionalNumber (lo hi : Q) (name : string)
    (fields : list (string * Json)) : option (option Q) :=
  match property name fields with
  | None => Some None
  | Some (JNumber n) => if (lo <=? n) && (n <=? hi) then Some (Some n) else None
  | Some _ => None
  end.

(** [z.boolean()] *)
Definition boolean (name : string) (fields : list (string * Json)) : option bool :=
  match property name fields with
  | Some (JBoolean b) => Some b
  | _ => None
  end.

(** [processParametersSchema.parse]; [None] stands for the [ZodError] thrown.
    Keys the schema does not name are dropped. *)
Definition parse (body : Json) : option ProcessParameters :=
  match body with
  | JObject fields =>
      match number 100 2000 "rfPower" fields,
            number 1 100 "pressure" fields,
            number 0 200 "gasFlowCF4" fields,
            number 0 100 "gasFlowO2" fields,
            number 0 200 "gasFlowAr" fields,
            boolean "pulseEnabled" fields,
            optionalNumber 10 90 "pulseDutyCycle" fields,
            optionalNumber 100 10000 "pulseFrequency" fields,
            number 10 600 "processTime" fields,
            optionalNumber 0 500 "chamberRfHours" fields with
      | Some rfPower, Some pressure, Some gasFlowCF4, Some gasFlowO2,
        Some gasFlowAr, Some pulseEnabled, Some pulseDutyCycle,
        Some pulseFrequency, Some processTime, Some chamberRfHours =>
          Some {| rfPower := rfPower;
                  pressure := pressure;
                  gasFlowCF4 := gasFlowCF4;
                  gasFlowO2 := gasFlowO2;
                  gasFlowAr := gasFlowAr;
                  pulseEnabled := pulseEnabled;
                  pulseDutyCycle := pulseDutyCycle;
                  pulseFrequency := pulseFrequency;
                  processTime := processTime;
                  chamberRfHours := chamberRfHours |}
      | _, _, _, _, _, _, _, _, _, _ => None
      end
  | _ => None
  end.

End Zod.

(** The request body a client sends for given parameters: absent optional
    values are left out. *)
Definition field (name : string) (value : Json) : string * Json := (name, value).

Definition optionalField (name : string) (v : option Q) : list (string * Json) :=
  match v with
  | Some n => [field name (JNumber n)]
  | None => []
  end.

Definition requestBody (p : ProcessParameters) : Json :=
  JObject ([field "rfPower" (JNumber (rfPower p));
            field "pressure" (JNumber (pressure p));
            field "gasFlowCF4" (JNumber (gasFlowCF4 p));
            field "gasFlowO2" (JNumber (gasFlowO2 p));
            field "gasFlowAr" (JNumber (gasFlowAr p));
            field "pulseEnabled" (JBoolean (pulseEnabled p))]
           ++ optionalField "pulseDutyCycle" (pulseDutyCycle p)
           ++ optionalField "pulseFrequency" (pulseFrequency p)
           ++ [field "processTime" (JNumber (processTime p))]
           ++ optionalField "chamberRfHours" (chamberRfHours p)).

(** ** The HTTP routes ([server/routes.ts], [registerRoutes]) *)

Module Routes.

Inductive Payload : Type :=
| PredictionList (predictions : list PredictionResult)
| Prediction (prediction : PredictionResult)
(** [{ error }]; the issue list sent along with a 400 is not modelled *)
| ErrorMessage (error : string)
(** [{ success: true }] *)
| Success.

Record Response : Type := { statusCode : nat; payload : Payload }.

(** [res.json(payload)] *)
Definition json (payload : Payload) : Response :=
  {| statusCode := 200; payload := payload |}.

(** [res.status(code).json({ error })] *)
Definition failure (code : nat) (error : string) : Response :=
  {| statusCode := code; payload := ErrorMessage error |}.

(** The server between two requests: the storage singleton and the number
    of random draws made so far. *)
Record Server : Type := { storage : MemStorage.t; draws : nat }.

Inductive Request : Type :=
| GetPredictions
| GetPrediction (key : string)
| PostPredict (body : Json)
| DeletePredictions.

Section Handlers.

Context `{JsEnv}.
Variable getTime : string -> Q.

(** [GET /api/predictions] *)
Definition getPredictions (server : Server) : Response :=
  json (PredictionList (MemStorage.getAllPredictions getTime (storage server))).

(** [GET /api/predictions/:id] *)
Definition getPredictionById (key : string) (server : Server) : Response :=
  match MemStorage.getPrediction key (storage server) with
  | None => failure 404 "Prediction not found"
  | Some prediction => json (Prediction prediction)
  end.

(** [POST /api/predict].  A [ZodError] is answered with 400, an exception
    of the engine with 500; an engine run that leaves the finite numbers
    is not followed. *)
Definition postPredict (body : Json) (server : Server)
  : Result (Response * Server) :=
  match Zod.parse body with
  | None => Ok (failure 400 "Invalid parameters", server)
  | Some params =>
      match generatePrediction params (draws server) with
      | Ok (prediction, draws') =>
          let stored := MemStorage.savePrediction prediction (storage server) in
          Ok (json (Prediction prediction),
              {| storage := snd stored; draws := draws' |})
      | Err IndexOutOfRange => Ok (failure 500 "Failed to run prediction", server)
      | Err DivisionByZero => Err DivisionByZero
      end
  end.

(** [DELETE /api/predictions] *)
Definition deletePredictions (server : Server) : Response * Server :=
  (json Success,
   {| storage := MemStorage.clearPredictions (storage server);
      draws := draws server |}).

Definition handle (request : Request) (server : Server)
  : Result (Response * Server) :=
  match request with
  | GetPredictions => Ok (getPredictions server, server)
  | GetPrediction key => Ok (getPredictionById key server, server)
  | PostPredict body => postPredict body server
  | DeletePredictions => Ok (deletePredictions server)
  end.

End Handlers.

(** The status a request is answered with. *)
Definition answered (request : Request) (response : Response) : Prop :=
  match request with
  | GetPredictions | DeletePredictions => statusCode response = 200%nat
  | GetPrediction _ =>
      statusCode response = 200%nat \/ statusCode response = 404%nat
  | PostPredict body =>
      match Zod.parse body with
      | Some _ => statusCode response = 200%nat
      | None => statusCode response = 400%nat
      end
  end.

(** A request together with the host as it is when the request arrives
    (identifier and clock differ from one request to the next). *)
Record Call : Type := { host : JsEnv; request : Request }.

Fixpoint serve (getTime : string -> Q) (calls : list Call) (server : Server)
  : Result (list Response * Server) :=
  match calls with
  | [] => Ok ([], server)
  | call :: rest =>
      match @handle (host call) getTime (request call) server with
      | Ok (response, server') =>
          match serve getTime rest server' with
          | Ok (responses, final) => Ok (response :: responses, final)
          | Err e => Err e
          end
      | Err e => Err e
      end
  end.

(** [export const storage = new MemStorage()] at start-up *)
Definition start : Server := {| storage := MemStorage.create; draws := 0 |}.

End Routes.

(** ** The colour scale of the client
    ([client/src/components/chamber-3d.tsx], [radical-heatmap.tsx]) *)

Module Palette.

Record Rgb : Type := { r : Z; g : Z; b : Z }.

Definition colors : list Rgb :=
  [ {| r := 30; g := 58; b := 138 |};
    {| r := 6; g := 182; b := 212 |};
    {| r := 34; g := 197; b := 94 |};
    {| r := 250; g := 204; b := 21 |};
    {| r := 249; g := 115; b := 22 |};
    {| r := 239; g := 68; b := 68 |} ]%Z.

(** [Math.round] *)
Definition Math_round (x : Q) : Z := Qfloor (x + (1 # 2)).

(** [colors[i]] whose channels are read afterwards *)
Definition colorAt (i : Z) : Result Rgb :=
  if (i <? 0)%Z then Err IndexOutOfRange
  else match nth_error colors (Z.to_nat i) with
       | Some c => Ok c
       | None => Err IndexOutOfRange
       end.

Definition blend (c1 c2 : Z) (segmentProgress : Q) : Z :=
  Math_round (inject_Z c1 + (inject_Z c2 - inject_Z c1) * segmentProgress).

(** [interpolateColor(normalized)] of the chamber view; the result stands
    for the string [rgb(r, g, b)] *)
Definition interpolateColor (normalized : Q) : Result Rgb :=
  let segmentSize := 1 / (num (List.length colors) - 1) in
  let segmentIndex :=
    Z.min (Qfloor (normalized / segmentSize)) (Z.of_nat (List.length colors) - 2) in
  let segmentProgress :=
    (normalized - inject_Z segmentIndex * segmentSize) / segmentSize in
  match colorAt segmentIndex, colorAt (segmentIndex + 1) with
  | Ok c1, Ok c2 =>
      Ok {| r := blend (r c1) (r c2) segmentProgress;
            g := blend (g c1) (g c2) segmentProgress;
            b := blend (b c1) (b c2) segmentProgress |}
  | Err e, _ => Err e
  | _, Err e => Err e
  end.

(** [interpolateColor(value, min, max)] of the heat map: the value is
    normalised and clamped first, the rest is the body above.  For
    [max = min] the quotient is an infinity, which the clamp brings to 1 or
    to 0, or NaN, which passes the clamp and reads [colors[NaN]]. *)
Definition interpolateColorIn (value min max : Q) : Result Rgb :=
  if Qeq_bool (max - min) 0 then
    if 0 <? value - min then interpolateColor 1
    else if value - min <? 0 then interpolateColor 0
    else Err IndexOutOfRange
  else
    let normalized := Qmax 0 (Qmin 1 ((value - min) / (max - min))) in
    interpolateColor normalized.

(** A colour a style sheet accepts. *)
Definition inGamut (c : Rgb) : Prop :=
  (0 <= r c <= 255)%Z /\ (0 <= g c <= 255)%Z /\ (0 <= b c <= 255)%Z.

End Palette.

(** ** Sample values *)

Definition sampleDistribution : RadicalDistribution :=
  {| grid3D := [];
     grid := [];
     dimensions := {| Dimensions.x := 20; Dimensions.y := 20; Dimensions.z := 10 |};
     centerEdgeRatio := 1.2;
     topBottomGradient := 1.1;
     highEnergyFraction := 0.25;
     residenceTimeIndex := 10;
     verticalUniformity := 0.9;
     wallLossFactor := 0.5 |}.

Definition sampleLegacyDistribution : Legacy.RadicalDistribution :=
  {| Legacy.grid := [];
     Legacy.centerEdgeRatio := 1.2;
     Legacy.topBottomGradient := 1.1;
     Legacy.highEnergyFraction := 0.25;
     Legacy.residenceTimeIndex := 10 |}.

Definition sampleMetrics : QualityMetrics :=
  {| etchUniformity := 80;
     cdShift := 3;
     defectRisk := risk_high;
     defectRiskScore := 60 |}.

Definition samplePrediction : PredictionResult :=
  {| id := "prediction-1";
     timestamp := "2024-01-01T00:00:00.000Z";
     parameters := quietParams;
     radicalDistribution := sampleDistribution;
     qualityMetrics := sampleMetrics;
     roiMetrics := None;
     stabilityTimeSeries := None;
     status := danger;
     recommendations := None |}.

Definition sampleUser : InsertUser.t :=
  {| InsertUser.username := "operator"; InsertUser.password := "secret" |}.

(** A clock that reads every time stamp as the same instant. *)
Definition frozenClock (ts : string) : Q := 0.

(** ** Rounded values

    [roundedTo digits x v]: the number [v] is [x] rounded to [digits]
    decimals.  The model rounds the exact rational, the engine rounds the
    double it has computed, and the two can fall on different sides of a
    decimal tie; six tenths of a unit of the last decimal hold for both. *)
Definition roundedTo (digits : nat) (x v : Q) : Prop :=
  Qabs (v - x) <= (6 # 10) / inject_Z (10 ^ Z.of_nat digits).

(** [x] lies in [[lo, hi]] up to the rounding of the arithmetic. *)
Definition rounding_margin : Q := 1 # 1000000000.

Definition inRange (lo hi x : Q) : Prop :=
  lo - rounding_margin <= x /\ x <= hi + rounding_margin.

(** ** Further sample values *)

(** A host whose noise differs from the reference host's. *)
Definition driftingHost : JsEnv := {|
  Math_exp := ReferenceHost.exp;
  Math_sin := ReferenceHost.sin;
  Math_sqrt := ReferenceHost.sqrt;
  Math_log10 := ReferenceHost.log10;
  Math_PI := 3.141592653589793;
  random_draw := fun n => if Nat.even n then 1 # 4 else 3 # 4;
  randomUUID := "11111111-1111-4111-8111-111111111111";
  nowISOString := "2024-01-02T00:00:00.000Z"
|}.

(** Full power and pressure with a short pulse: the wall midpoints carry
    about five times the density of the centre. *)
Definition edgeHeavyParams : ProcessParameters := {|
  rfPower := 2000;
  pressure := 100;
  gasFlowCF4 := 200;
  gasFlowO2 := 20;
  gasFlowAr := 50;
  pulseEnabled := true;
  pulseDutyCycle := Some 10;
  pulseFrequency := Some 1000;
  processTime := 120;
  chamberRfHours := Some 0
|}.

(** Plain parameters at a given pressure. *)
Definition atPressure (p : Q) : ProcessParameters := {|
  rfPower := 500;
  pressure := p;
  gasFlowCF4 := 80;
  gasFlowO2 := 20;
  gasFlowAr := 100;
  pulseEnabled := false;
  pulseDutyCycle := None;
  pulseFrequency := None;
  processTime := 120;
  chamberRfHours := None
|}.




(** A second stored prediction, made a day after [samplePrediction]. *)
Definition laterPrediction : PredictionResult :=
  {| id := "prediction-2";
     timestamp := "2024-01-02T00:00:00.000Z";
     parameters := edgeHeavyParams;
     radicalDistribution := sampleDistribution;
     qualityMetrics := sampleMetrics;
     roiMetrics := None;
     stabilityTimeSeries := None;
     status := danger;
     recommendations := None |}.

(** The storage after [samplePrediction], then [laterPrediction], were saved. *)
Definition sampleStorage : MemStorage.t :=
  snd (MemStorage.savePrediction laterPrediction
         (snd (MemStorage.savePrediction samplePrediction MemStorage.create))).

(** A clock that knows the two sample time stamps, in milliseconds. *)
Definition sampleClock (ts : string) : Q :=
  if String.eqb ts "2024-01-01T00:00:00.000Z" then 1704067200000
  else if String.eqb ts "2024-01-02T00:00:00.000Z" then 1704153600000
  else 0.

(** Parameters whose run on the reference host computes a uniformity of
    93.97: centre 0.5944 against wall midpoints of 0.7009 and 0.7037, a
    centre/edge ratio of 0.846 and a top/bottom gradient of 1.020. *)
Definition thresholdParams : ProcessParameters := {|
  rfPower := 900;
  pressure := 95.2;
  gasFlowCF4 := 50;
  gasFlowO2 := 20;
  gasFlowAr := 100;
  pulseEnabled := false;
  pulseDutyCycle := None;
  pulseFrequency := None;
  processTime := 120;
  chamberRfHours := None
|}.

(** The descriptors of that run, the grids left out. *)
Definition thresholdDistribution : RadicalDistribution :=
  {| grid3D := [];
     grid := [];
     dimensions := {| Dimensions.x := 20; Dimensions.y := 20; Dimensions.z := 10 |};
     centerEdgeRatio := 0.846;
     topBottomGradient := 1.02;
     highEnergyFraction := 0.14;
     residenceTimeIndex := 6.3;
     verticalUniformity := 91.7;
     wallLossFactor := - 0.216 |}.

(** * Properties *)

(** ** Comparisons *)

Lemma Qltb_true a b : (a <? b) = true <-> a < b.
Proof.
  unfold Qltb. rewrite negb_true_iff.
  split; intro Hlt.
  - apply Qnot_le_lt. intro Hle. apply Qle_bool_iff in Hle. congruence.
  - destruct (Qle_bool b a) eqn:E; [|reflexivity].
    apply Qle_bool_iff in E. exfalso. apply (Qlt_not_le _ _ Hlt E).
Qed.

Lemma Qltb_false a b : (a <? b) = false <-> b <= a.
Proof.
  unfold Qltb. rewrite negb_false_iff. apply Qle_bool_iff.
Qed.

Lemma Qgtb_true a b : (a >? b) = true <-> b < a.
Proof. apply Qltb_true. Qed.

Lemma Qgtb_false a b : (a >? b) = false <-> a <= b.
Proof. apply Qltb_false. Qed.

Lemma Qleb_true a b : (a <=? b) = true <-> a <= b.
Proof. apply Qle_bool_iff. Qed.

Lemma Qgeb_true a b : (a >=? b) = true <-> b <= a.
Proof. apply Qle_bool_iff. Qed.

Lemma Qleb_false a b : (a <=? b) = false <-> b < a.
Proof.
  rewrite <- Qltb_true. unfold Qltb, Qleb.
  destruct (Qle_bool a b); simpl; intuition congruence.
Qed.

Lemma Qgeb_false a b : (a >=? b) = false <-> a < b.
Proof. apply Qleb_false. Qed.

(** ** Rounding to a fixed number of decimals *)

Lemma scale_pos (digits : nat) : (0 < 10 ^ Z.of_nat digits)%Z.
Proof. apply Z.pow_pos_nonneg; lia. Qed.

Lemma Qmake_le (a b : Z) (p : positive) : (a <= b)%Z -> (a # p) <= (b # p).
Proof. intro Hab. unfold Qle. simpl. nia. Qed.

Lemma Qfloor_nonneg (x : Q) : 0 <= x -> (0 <= Qfloor x)%Z.
Proof. intro Hx. apply (Qfloor_resp_le 0 x) in Hx. exact Hx. Qed.

Lemma roundedMagnitude_mono (digits : nat) (x y : Q) :
  Qabs x <= Qabs y ->
  (Qfloor (Qabs x * inject_Z (10 ^ Z.of_nat digits) + (1 # 2))
   <= Qfloor (Qabs y * inject_Z (10 ^ Z.of_nat digits) + (1 # 2)))%Z.
Proof.
  intro Hxy. apply Qfloor_resp_le.
  apply Qplus_le_l. apply Qmult_le_compat_r; [exact Hxy|].
  change 0 with (inject_Z 0). rewrite <- Zle_Qle.
  pose proof (scale_pos digits). lia.
Qed.

Lemma roundedMagnitude_nonneg (digits : nat) (x : Q) :
  (0 <= Qfloor (Qabs x * inject_Z (10 ^ Z.of_nat digits) + (1 # 2)))%Z.
Proof.
  apply Qfloor_nonneg.
  assert (0 <= Qabs x * inject_Z (10 ^ Z.of_nat digits)).
  { apply Qmult_le_0_compat; [apply Qabs_nonneg|].
    change 0 with (inject_Z 0). rewrite <- Zle_Qle.
    pose proof (scale_pos digits). lia. }
  lra.
Qed.

(** [toFixed] is monotone. *)
Lemma toFixed_mono (digits : nat) (x y : Q) :
  x <= y -> toFixed digits x <= toFixed digits y.
Proof.
  intro Hxy. unfold toFixed.
  destruct (x <? 0) eqn:Ex; destruct (y <? 0) eqn:Ey.
  - apply Qltb_true in Ex, Ey. apply Qmake_le.
    assert (Qabs y <= Qabs x).
    { rewrite (Qabs_neg x), (Qabs_neg y); lra. }
    pose proof (roundedMagnitude_mono digits y x H). lia.
  - apply Qmake_le.
    pose proof (roundedMagnitude_nonneg digits x).
    pose proof (roundedMagnitude_nonneg digits y). lia.
  - apply Qltb_false in Ex. apply Qltb_true in Ey. lra.
  - apply Qltb_false in Ex, Ey. apply Qmake_le.
    apply roundedMagnitude_mono.
    rewrite (Qabs_pos x), (Qabs_pos y); lra.
Qed.

(** [toFixed] only looks at the value of its argument. *)
Lemma toFixed_ext (digits : nat) (x y : Q) :
  x == y -> toFixed digits x = toFixed digits y.
Proof.
  intro Hxy. unfold toFixed, Qltb.
  assert (Es : Qle_bool 0 x = Qle_bool 0 y).
  { apply eq_true_iff_eq. rewrite !Qle_bool_iff, Hxy. reflexivity. }
  rewrite Es.
  assert (E : Qfloor (Qabs x * inject_Z (10 ^ Z.of_nat digits) + (1 # 2))
              = Qfloor (Qabs y * inject_Z (10 ^ Z.of_nat digits) + (1 # 2))).
  { apply Qfloor_comp. rewrite Hxy. reflexivity. }
  rewrite E. reflexivity.
Qed.

(** A bound that [toFixed] leaves in place passes from the argument to the
    rounded value. *)
Lemma toFixed_lower (digits : nat) (c x : Q) :
  toFixed digits c == c -> c <= x -> c <= toFixed digits x.
Proof.
  intros Hc Hx. rewrite <- Hc. apply toFixed_mono. exact Hx.
Qed.

Lemma toFixed_upper (digits : nat) (c x : Q) :
  toFixed digits c == c -> x <= c -> toFixed digits x <= c.
Proof.
  intros Hc Hx. rewrite <- Hc. apply toFixed_mono. exact Hx.
Qed.

(** The rounded value is within half a unit of the last decimal. *)
Lemma toFixed_close (digits : nat) (x : Q) :
  Qabs (toFixed digits x - x) <= (1 # 2) / inject_Z (10 ^ Z.of_nat digits).
Proof.
  pose proof (scale_pos digits) as Hs.
  set (S := (10 ^ Z.of_nat digits)%Z) in *.
  assert (HS : 0 < inject_Z S).
  { change 0 with (inject_Z 0). rewrite <- Zlt_Qlt. exact Hs. }
  assert (Hmk : forall n : Z, (n # Z.to_pos S) == inject_Z n / inject_Z S).
  { intro n. rewrite Qmake_Qdiv. rewrite Z2Pos.id by exact Hs. reflexivity. }
  apply Qabs_Qle_condition.
  unfold toFixed. fold S.
  pose proof (Qfloor_le (Qabs x * inject_Z S + (1 # 2))) as Hlo.
  pose proof (Qlt_floor (Qabs x * inject_Z S + (1 # 2))) as Hhi.
  set (n := Qfloor (Qabs x * inject_Z S + (1 # 2))) in *.
  rewrite inject_Z_plus in Hhi. change (inject_Z 1) with 1 in Hhi.
  assert (Hq : Qabs x - (1 # 2) / inject_Z S <= inject_Z n / inject_Z S
               /\ inject_Z n / inject_Z S <= Qabs x + (1 # 2) / inject_Z S).
  { split.
    - apply Qle_shift_div_l; [exact HS|].
      assert (E : (Qabs x - (1 # 2) / inject_Z S) * inject_Z S
                  == Qabs x * inject_Z S - (1 # 2)) by (field; lra).
      rewrite E. lra.
    - apply Qle_shift_div_r; [exact HS|].
      assert (E : (Qabs x + (1 # 2) / inject_Z S) * inject_Z S
                  == Qabs x * inject_Z S + (1 # 2)) by (field; lra).
      rewrite E. lra. }
  destruct (x <? 0) eqn:Ex.
  - apply Qltb_true in Ex. rewrite Hmk, inject_Z_opp.
    rewrite (Qabs_neg x) in Hq by lra.
    assert (E : - inject_Z n / inject_Z S == - (inject_Z n / inject_Z S))
      by (field; lra).
    rewrite E. lra.
  - apply Qltb_false in Ex. rewrite Hmk.
    rewrite (Qabs_pos x) in Hq by lra. lra.
Qed.


(** The rounded value, up to the rounding of the arithmetic. *)
Lemma toFixed_roundedTo (digits : nat) (x : Q) : roundedTo digits x (toFixed digits x).
Proof.
  unfold roundedTo. eapply Qle_trans; [apply toFixed_close|].
  pose proof (scale_pos digits) as Hs.
  assert (HS : 0 < inject_Z (10 ^ Z.of_nat digits)).
  { change 0 with (inject_Z 0). rewrite <- Zlt_Qlt. exact Hs. }
  apply Qle_shift_div_l; [exact HS|].
  assert (E : (1 # 2) / inject_Z (10 ^ Z.of_nat digits)
              * inject_Z (10 ^ Z.of_nat digits) == (1 # 2)).
  { field. intro E0. rewrite E0 in HS. revert HS. apply Qlt_irrefl. }
  rewrite E. discriminate.
Qed.


Lemma toFixed_integer (k : Z) : toFixed 0 (inject_Z k) == inject_Z k.
Proof.
  assert (Hc : Qabs (toFixed 0 (inject_Z k) - inject_Z k) <= 1 # 2).
  { eapply Qle_trans; [apply toFixed_close|].
    apply Qle_bool_imp_le. reflexivity. }
  apply Qabs_Qle_condition in Hc. destruct Hc as [Hlo Hhi].
  unfold toFixed in *. change (10 ^ Z.of_nat 0)%Z with 1%Z in *.
  change (Z.to_pos 1) with 1%positive in *.
  set (n := Qfloor (Qabs (inject_Z k) * inject_Z 1 + (1 # 2))) in *.
  destruct (inject_Z k <? 0).
  - change (- n # 1) with (inject_Z (- n)) in *.
    assert (Hz : (- n = k)%Z).
    { assert (H1 : inject_Z (- n) < inject_Z (k + 1)).
      { rewrite inject_Z_plus. change (inject_Z 1) with 1. lra. }
      assert (H2 : inject_Z (k - 1) < inject_Z (- n)).
      { unfold Z.sub. rewrite inject_Z_plus, inject_Z_opp.
        change (inject_Z 1) with 1. lra. }
      rewrite <- Zlt_Qlt in H1, H2. lia. }
    rewrite Hz. reflexivity.
  - change (n # 1) with (inject_Z n) in *.
    assert (Hz : (n = k)%Z).
    { assert (H1 : inject_Z n < inject_Z (k + 1)).
      { rewrite inject_Z_plus. change (inject_Z 1) with 1. lra. }
      assert (H2 : inject_Z (k - 1) < inject_Z n).
      { unfold Z.sub. rewrite inject_Z_plus, inject_Z_opp.
        change (inject_Z 1) with 1. lra. }
      rewrite <- Zlt_Qlt in H1, H2. lia. }
    rewrite Hz. reflexivity.
Qed.

(** ** The simulation monad *)

Lemma bind_Ok {A B} (c : Sim A) (k : A -> Sim B) (s s' : nat) (a : A) :
  c s = Ok (a, s') -> bind c k s = k a s'.
Proof. intro E. unfold bind. rewrite E. reflexivity. Qed.

(** One step of a computation whose first action is known to return *)
Ltac sim_step tac := erewrite bind_Ok by tac; cbv beta zeta.

Lemma divide_Ok (a b : Q) (s : nat) :
  ~ b == 0 -> divide a b s = Ok (a / b, s).
Proof.
  intro Hb. unfold divide.
  destruct (Qeq_bool b 0) eqn:E; [|reflexivity].
  apply Qeq_bool_eq in E. contradiction.
Qed.

Lemma index_Ok {A} (l : list A) (i : nat) (a : A) (s : nat) :
  nth_error l i = Some a -> index l i s = Ok (a, s).
Proof. intro E. unfold index. rewrite E. reflexivity. Qed.

(** A loop whose body always succeeds and makes [c] draws succeeds, makes
    [c] draws per turn, and collects the values of the body. *)
Lemma forEach_seq {A} (body : nat -> Sim A) (f : nat -> nat -> A) (c n : nat) :
  forall a s,
    (forall i s', (a <= i < a + n)%nat -> body i s' = Ok (f i s', (s' + c)%nat)) ->
    forEach (seq a n) body s
    = Ok (map (fun i => f i (s + (i - a) * c)%nat) (seq a n), (s + n * c)%nat).
Proof.
  induction n as [|n IH]; intros a s Hbody.
  - simpl. unfold ret. rewrite Nat.add_0_r. reflexivity.
  - simpl seq. simpl forEach.
    rewrite (bind_Ok _ _ s (s + c)%nat (f a s)) by (apply Hbody; lia).
    rewrite (bind_Ok _ _ (s + c)%nat (s + c + n * c)%nat
               (map (fun i => f i (s + c + (i - S a) * c)%nat) (seq (S a) n))).
    + unfold ret. simpl map. rewrite Nat.sub_diag. simpl Nat.mul.
      rewrite Nat.add_0_r. f_equal. f_equal.
      * f_equal. apply map_ext_in. intros i Hi. apply in_seq in Hi.
        f_equal. replace (i - a)%nat with (S (i - S a)) by lia. simpl. lia.
      * lia.
    + apply IH. intros i s' Hi. apply Hbody. lia.
Qed.

Lemma for_push_spec {A} (body : nat -> Sim A) (f : nat -> nat -> A) (c n s : nat) :
  (forall i s', (i < n)%nat -> body i s' = Ok (f i s', (s' + c)%nat)) ->
  for_push n body s
  = Ok (map (fun i => f i (s + i * c)%nat) (seq 0 n), (s + n * c)%nat).
Proof.
  intro Hbody. unfold for_push.
  rewrite (forEach_seq body f c n 0 s) by (intros i s' Hi; apply Hbody; lia).
  f_equal. f_equal. apply map_ext. intro i. rewrite Nat.sub_0_r. reflexivity.
Qed.

(** A [map] whose callback succeeds without drawing on every element *)
Lemma mapM_pure {A B} (f : A -> Sim B) (g : A -> B) (l : list A) (s : nat) :
  (forall a, In a l -> f a s = Ok (g a, s)) ->
  mapM f l s = Ok (map g l, s).
Proof.
  induction l as [|a l IH]; intro Hf.
  - reflexivity.
  - simpl mapM.
    rewrite (bind_Ok _ _ s s (g a)) by (apply Hf; left; reflexivity).
    rewrite (bind_Ok _ _ s s (map g l)).
    + reflexivity.
    + apply IH. intros b Hb. apply Hf. right. exact Hb.
Qed.

Lemma mapM_tabulate {A B} (f : A -> Sim B) (h : nat -> A) (g : nat -> B)
    (idx : list nat) (s : nat) :
  (forall i, In i idx -> f (h i) s = Ok (g i, s)) ->
  mapM f (map h idx) s = Ok (map g idx, s).
Proof.
  induction idx as [|i idx IH]; intro Hf.
  - reflexivity.
  - simpl map. simpl mapM.
    rewrite (bind_Ok _ _ s s (g i)) by (apply Hf; left; reflexivity).
    rewrite (bind_Ok _ _ s s (map g idx)).
    + reflexivity.
    + apply IH. intros j Hj. apply Hf. right. exact Hj.
Qed.

(** ** The grid *)

Section GridFacts.

Context `{JsEnv}.

Lemma generateGrid3D_spec (params : ProcessParameters) (s : nat) :
  generateGrid3D params s = Ok (gridOf params s, (s + 4000)%nat).
Proof.
  unfold generateGrid3D.
  rewrite (for_push_spec _
             (fun k s' => map (fun i => map (fun j =>
                 noisyCell (cellDensity params k i j)
                           (random_draw (s' + i * 20 + j * 1)))
               (seq 0 gridX)) (seq 0 gridY)) 400 gridZ s).
  - apply f_equal. apply (f_equal2 pair); [|reflexivity].
    unfold gridOf. apply map_ext. intro k.
    unfold layerOf. apply map_ext. intro i.
    unfold rowOf. apply map_ext. intro j.
    unfold cellOf. rewrite Nat.mul_1_r. reflexivity.
  - intros k s1 _.
    rewrite (for_push_spec _
               (fun i s' => map (fun j =>
                   noisyCell (cellDensity params k i j) (random_draw (s' + j * 1)))
                 (seq 0 gridX)) 20 gridY s1).
    + reflexivity.
    + intros i s2 _.
      rewrite (for_push_spec _
                 (fun j s' => noisyCell (cellDensity params k i j) (random_draw s'))
                 1 gridX s2).
      * reflexivity.
      * intros j s3 _. unfold bind, Math_random, ret.
        rewrite Nat.add_1_r. reflexivity.
Qed.

Lemma noisyCell_floor (density rnd : Q) : 0.05 <= noisyCell density rnd.
Proof.
  unfold noisyCell. apply toFixed_lower; [reflexivity | apply Q.le_max_l].
Qed.

Lemma cellOf_floor (params : ProcessParameters) (s k i j : nat) :
  0.05 <= cellOf params s k i j.
Proof. apply noisyCell_floor. Qed.

Lemma rowOf_floor (params : ProcessParameters) (s k i : nat) :
  Forall (fun v => 0.05 <= v) (rowOf params s k i).
Proof.
  apply Forall_forall. intros v Hv. unfold rowOf in Hv.
  apply in_map_iff in Hv. destruct Hv as [j [<- _]]. apply cellOf_floor.
Qed.

Lemma layerOf_floor (params : ProcessParameters) (s k : nat) :
  Forall (Forall (fun v => 0.05 <= v)) (layerOf params s k).
Proof.
  apply Forall_forall. intros row Hrow. unfold layerOf in Hrow.
  apply in_map_iff in Hrow. destruct Hrow as [i [<- _]]. apply rowOf_floor.
Qed.

Lemma gridOf_floor (params : ProcessParameters) (s : nat) :
  Forall (Forall (Forall (fun v => 0.05 <= v))) (gridOf params s).
Proof.
  apply Forall_forall. intros layer Hlayer. unfold gridOf in Hlayer.
  apply in_map_iff in Hlayer. destruct Hlayer as [k [<- _]]. apply layerOf_floor.
Qed.

Lemma nth_error_tabulate {A} (f : nat -> A) (n i : nat) :
  (i <? n)%nat = true -> nth_error (map f (seq 0 n)) i = Some (f i).
Proof.
  intro Hi. rewrite nth_error_map, nth_error_seq, Hi. reflexivity.
Qed.

Lemma at2_layerOf (params : ProcessParameters) (s k i j s' : nat) :
  (i <? gridY)%nat = true -> (j <? gridX)%nat = true ->
  at2 (layerOf params s k) i j s' = Ok (cellOf params s k i j, s').
Proof.
  intros Hi Hj. unfold at2.
  rewrite (bind_Ok _ _ s' s' (rowOf params s k i)).
  - apply index_Ok. unfold rowOf. apply nth_error_tabulate. exact Hj.
  - apply index_Ok. unfold layerOf. apply nth_error_tabulate. exact Hi.
Qed.

Lemma index_gridOf (params : ProcessParameters) (s k s' : nat) :
  (k <? gridZ)%nat = true ->
  index (gridOf params s) k s' = Ok (layerOf params s k, s').
Proof.
  intro Hk. apply index_Ok. unfold gridOf. apply nth_error_tabulate. exact Hk.
Qed.

Lemma at3_gridOf (params : ProcessParameters) (s k i j s' : nat) :
  (k <? gridZ)%nat = true -> (i <? gridY)%nat = true -> (j <? gridX)%nat = true ->
  at3 (gridOf params s) k i j s' = Ok (cellOf params s k i j, s').
Proof.
  intros Hk Hi Hj. unfold at3.
  rewrite (bind_Ok _ _ s' s' (layerOf params s k)) by (apply index_gridOf; exact Hk).
  apply at2_layerOf; assumption.
Qed.

End GridFacts.

(** ** Sums and means of values that stay above a floor *)

Lemma num_succ (n : nat) : num (S n) == num n + 1.
Proof.
  unfold num. rewrite Nat2Z.inj_succ. unfold Z.succ.
  rewrite inject_Z_plus. reflexivity.
Qed.

Lemma num_nonneg (n : nat) : 0 <= num n.
Proof.
  unfold num. change 0 with (inject_Z 0). rewrite <- Zle_Qle. lia.
Qed.

Lemma fold_sum_floor (c : Q) (l : list Q) :
  Forall (fun v => c <= v) l ->
  forall a, a + c * num (List.length l) <= fold_left Qplus l a.
Proof.
  induction 1 as [|v l Hv Hl IH]; intro a.
  - simpl. change (num 0) with 0. lra.
  - simpl fold_left. simpl List.length. rewrite num_succ.
    specialize (IH (a + v)). lra.
Qed.

Lemma sum_floor (c : Q) (l : list Q) :
  Forall (fun v => c <= v) l -> c * num (List.length l) <= sum l.
Proof.
  intro Hl. pose proof (fold_sum_floor c l Hl 0) as Hs. unfold sum. lra.
Qed.

Lemma sum_positive (l : list Q) :
  l <> [] -> Forall (fun v => 0.05 <= v) l -> 0 < sum l.
Proof.
  intros Hne Hl. pose proof (sum_floor _ l Hl) as Hs.
  destruct l as [|v l]; [contradiction|].
  simpl List.length in Hs. rewrite num_succ in Hs.
  pose proof (num_nonneg (List.length l)). lra.
Qed.

Lemma mean_positive (l : list Q) (d : Q) :
  l <> [] -> Forall (fun v => 0.05 <= v) l -> 0 < d -> 0 < sum l / d.
Proof.
  intros Hne Hl Hd. apply Qlt_shift_div_l; [exact Hd|].
  pose proof (sum_positive l Hne Hl). lra.
Qed.

Lemma positive_not_zero (a : Q) : 0 < a -> ~ a == 0.
Proof. intros Ha E. rewrite E in Ha. apply (Qlt_irrefl 0). exact Ha. Qed.

(** ** The simulator *)

Section SimulatorFacts.

Context `{JsEnv}.

Lemma layerOf_nonempty (params : ProcessParameters) (s k : nat) :
  concat (layerOf params s k) <> [].
Proof. discriminate. Qed.

Lemma allValues_nonempty (params : ProcessParameters) (s : nat) :
  concat (concat (gridOf params s)) <> [].
Proof. discriminate. Qed.

Lemma allValues_floor (params : ProcessParameters) (s : nat) :
  Forall (fun v => 0.05 <= v) (concat (concat (gridOf params s))).
Proof.
  apply Forall_concat, Forall_concat, gridOf_floor.
Qed.

Lemma length_not_zero {A} (l : list A) : l <> [] -> ~ num (List.length l) == 0.
Proof.
  intro Hne. destruct l as [|a l]; [contradiction|].
  simpl List.length. rewrite num_succ.
  pose proof (num_nonneg (List.length l)). lra.
Qed.

Lemma length_positive {A} (l : list A) : l <> [] -> 0 < num (List.length l).
Proof.
  intro Hne. destruct l as [|a l]; [contradiction|].
  simpl List.length. rewrite num_succ.
  pose proof (num_nonneg (List.length l)). lra.
Qed.

Lemma pressureFactor_not_zero (params : ProcessParameters) :
  1 <= pressure params -> ~ pressureFactor params == 0.
Proof.
  intros Hp E. unfold pressureFactor in E.
  assert (E' : pressure params == pressure params / 50 * 50) by (field; lra).
  rewrite E in E'. lra.
Qed.

Lemma wallMean_layerOf (params : ProcessParameters) (s k s' : nat) :
  wallMean (layerOf params s k) s'
  = Ok ((cellOf params s k 0 10 + cellOf params s k 19 10
         + cellOf params s k 10 0 + cellOf params s k 10 19) / 4, s').
Proof.
  unfold wallMean.
  rewrite (bind_Ok _ _ s' s' (cellOf params s k 0 10))
    by (apply at2_layerOf; reflexivity).
  rewrite (bind_Ok _ _ s' s' (cellOf params s k 19 10))
    by (apply at2_layerOf; reflexivity).
  rewrite (bind_Ok _ _ s' s' (cellOf params s k 10 0))
    by (apply at2_layerOf; reflexivity).
  rewrite (bind_Ok _ _ s' s' (cellOf params s k 10 19))
    by (apply at2_layerOf; reflexivity).
  reflexivity.
Qed.

Lemma tabulate_floor (f : nat -> Q) (n : nat) :
  (forall k, 0.05 <= f k) -> Forall (fun v => 0.05 <= v) (map f (seq 0 n)).
Proof.
  intro Hf. apply Forall_forall. intros v Hv.
  apply in_map_iff in Hv. destruct Hv as [k [<- _]]. apply Hf.
Qed.

(** The simulator returns on every input whose pressure is not zero, after
    4000 draws, and its result is described by the closed forms. *)
Lemma simulateRadicalDistribution_spec (params : ProcessParameters) (s : nat) :
  1 <= pressure params ->
  exists d,
    simulateRadicalDistribution params s = Ok (d, (s + 4000)%nat)
    /\ grid3D d = gridOf params s
    /\ grid d = layerOf params s 5
    /\ centerEdgeRatio d = ratioOf params s
    /\ topBottomGradient d = gradientOf params s
    /\ highEnergyFraction d
       = toFixed 3 (0.15 + powerFactor params * 0.2 - pressureFactor params * 0.1)
    /\ residenceTimeIndex d
       = toFixed 2 (10 / pressureFactor params * (1 + arFlow params * 0.2)).
Proof.
  intro Hp. pose proof (pressureFactor_not_zero params Hp) as Hpf.
  eexists. split.
  - unfold simulateRadicalDistribution.
    sim_step ltac:(apply divide_Ok; exact Hpf).
    sim_step ltac:(apply generateGrid3D_spec).
    sim_step ltac:(apply index_gridOf; reflexivity).
    do 5 sim_step ltac:(apply at3_gridOf; reflexivity).
    sim_step ltac:(apply divide_Ok; apply length_not_zero; discriminate).
    do 2 sim_step ltac:(apply index_gridOf; reflexivity).
    sim_step ltac:(apply divide_Ok; apply length_not_zero, allValues_nonempty).
    sim_step ltac:(apply divide_Ok; apply length_not_zero, allValues_nonempty).
    sim_step ltac:(apply divide_Ok, positive_not_zero, mean_positive;
                   [apply allValues_nonempty | apply allValues_floor
                   | apply length_positive, allValues_nonempty]).
    sim_step ltac:(unfold gridOf;
                   apply (mapM_tabulate _ _ (fun k => cellOf params s k 10 10));
                   intros k _; apply at2_layerOf; reflexivity).
    sim_step ltac:(unfold gridOf;
                   apply (mapM_tabulate _ _
                            (fun k => (cellOf params s k 0 10 + cellOf params s k 19 10
                                       + cellOf params s k 10 0
                                       + cellOf params s k 10 19) / 4));
                   intros k _; apply wallMean_layerOf).
    sim_step ltac:(apply divide_Ok, positive_not_zero, mean_positive;
                   [discriminate
                   | apply tabulate_floor; intro k; apply cellOf_floor
                   | reflexivity]).
    sim_step ltac:(apply divide_Ok, positive_not_zero, mean_positive;
                   [discriminate
                   | repeat constructor; apply cellOf_floor
                   | reflexivity]).
    sim_step ltac:(apply divide_Ok, positive_not_zero, mean_positive;
                   [apply layerOf_nonempty
                   | apply Forall_concat, layerOf_floor
                   | reflexivity]).
    sim_step ltac:(apply divide_Ok; exact Hpf).
    reflexivity.
  - do 3 (split; [reflexivity|]).
    split; [cbn [topBottomGradient]; unfold gradientOf; f_equal|].
    split; reflexivity.
Qed.

End SimulatorFacts.

(** ** Loops with a postcondition *)

Lemma forEach_post {A} (body : nat -> Sim A) (P : nat -> A -> Prop) (c : nat) :
  forall idx s,
    (forall i s', In i idx -> exists a, body i s' = Ok (a, (s' + c)%nat) /\ P i a) ->
    exists l,
      forEach idx body s = Ok (l, (s + List.length idx * c)%nat) /\ Forall2 P idx l.
Proof.
  induction idx as [|i idx IH]; intros s Hbody.
  - exists []. split; [|constructor].
    simpl. unfold ret. rewrite Nat.add_0_r. reflexivity.
  - destruct (Hbody i s (or_introl eq_refl)) as [a [Ea Pa]].
    destruct (IH (s + c)%nat) as [l [El Pl]].
    { intros j s' Hj. apply Hbody. right. exact Hj. }
    exists (a :: l). split; [|constructor; assumption].
    simpl forEach. rewrite (bind_Ok _ _ _ _ _ Ea), (bind_Ok _ _ _ _ _ El).
    unfold ret. simpl List.length. do 2 f_equal. lia.
Qed.

Lemma Forall2_seq_nth {A} (P : nat -> A -> Prop) (l : list A) :
  forall n a, Forall2 P (seq a n) l ->
    List.length l = n
    /\ forall i v, nth_error l i = Some v -> P (a + i)%nat v.
Proof.
  induction l as [|x l IH]; intros n a Hl.
  - inversion Hl as [E|]. destruct n; [|discriminate].
    split; [reflexivity|]. intros [|i] v Hv; discriminate.
  - destruct n as [|n]; [inversion Hl|]. simpl seq in Hl.
    inversion Hl as [|? ? ? ? Px Hrest]; subst.
    destruct (IH n (S a) Hrest) as [Hlen Hnth].
    split; [simpl; congruence|].
    intros [|i] v Hv.
    + simpl in Hv. injection Hv as <-. rewrite Nat.add_0_r. exact Px.
    + simpl in Hv. replace (a + S i)%nat with (S a + i)%nat by lia.
      apply Hnth. exact Hv.
Qed.

Lemma for_push_post {A} (body : nat -> Sim A) (P : nat -> A -> Prop) (c n s : nat) :
  (forall i s', (i < n)%nat -> exists a, body i s' = Ok (a, (s' + c)%nat) /\ P i a) ->
  exists l,
    for_push n body s = Ok (l, (s + n * c)%nat)
    /\ List.length l = n
    /\ forall i v, nth_error l i = Some v -> P i v.
Proof.
  intro Hbody. unfold for_push.
  destruct (forEach_post body P c (seq 0 n) s) as [l [El Pl]].
  { intros i s' Hi. apply in_seq in Hi. apply Hbody. lia. }
  rewrite length_seq in El.
  destruct (Forall2_seq_nth P l n 0%nat Pl) as [Hlen Hnth].
  exists l. repeat split; assumption.
Qed.

(** ** The quality predictor *)

Section PredictorFacts.

Context `{JsEnv}.

(** The predictor always returns, after two draws. *)
Lemma predictQualityMetrics_spec (params : ProcessParameters)
    (distribution : RadicalDistribution) (s : nat) :
  exists metrics st,
    predictQualityMetrics params distribution s = Ok ((metrics, st), S (S s))
    /\ etchUniformity metrics = toFixed 1 (computeUniformity params distribution)
    /\ cdShift metrics = computeCdShift distribution (random_draw s)
    /\ defectRisk metrics
       = classifyRisk (computeRiskScore params distribution (random_draw (S s)))
    /\ st = classifyStatus (computeUniformity params distribution)
                           (cdShift metrics) (defectRisk metrics).
Proof.
  do 2 eexists. split.
  - unfold predictQualityMetrics, bind, Math_random, ret. cbv beta zeta.
    reflexivity.
  - repeat split; reflexivity.
Qed.

End PredictorFacts.

(** ** The stability time series *)

Section StabilityFacts.

Context `{JsEnv}.

Lemma numPoints_lower (params : ProcessParameters) :
  10 <= processTime params -> (3 <= numPoints params)%Z.
Proof.
  intro Hp. unfold numPoints.
  assert (Hf : (2 <= Qfloor (processTime params / 5))%Z).
  { change 2%Z with (Qfloor (inject_Z 2)). apply Qfloor_resp_le.
    apply Qle_shift_div_l; [reflexivity|]. change (inject_Z 2 * 5) with 10.
    exact Hp. }
  lia.
Qed.

Lemma numPoints_upper (params : ProcessParameters) : (numPoints params <= 60)%Z.
Proof. unfold numPoints. lia. Qed.

Lemma lastIndex_not_zero (params : ProcessParameters) :
  10 <= processTime params -> ~ inject_Z (numPoints params) - 1 == 0.
Proof.
  intros Hp E. pose proof (numPoints_lower params Hp) as Hn.
  rewrite Zle_Qle in Hn. change (inject_Z 3) with 3 in Hn. lra.
Qed.

(** One turn of the loop returns after one draw; the sample is stamped with
    the rounded time [i / (numPoints - 1) * processTime]. *)
Lemma stabilitySample_spec (params : ProcessParameters)
    (baseDensity baseUniformity : Q) (i s : nat) :
  10 <= processTime params ->
  exists pt,
    stabilitySample params baseDensity baseUniformity i s = Ok (pt, (s + 1)%nat)
    /\ time pt
       = toFixed 1 (num i / (inject_Z (numPoints params) - 1) * processTime params).
Proof.
  intro Hp. unfold stabilitySample. cbv zeta.
  sim_step ltac:(apply divide_Ok, lastIndex_not_zero; exact Hp).
  sim_step ltac:(apply divide_Ok; intro E; rewrite E in Hp; lra).
  destruct (phase _ _) as [[densityMultiplier uniformityDelta] temperature].
  eexists. split.
  - unfold bind, Math_random, ret. rewrite Nat.add_1_r. reflexivity.
  - reflexivity.
Qed.

Lemma generateStabilityTimeSeries_spec (params : ProcessParameters)
    (distribution : RadicalDistribution) (metrics : QualityMetrics)
    (baseDensity : Q) (s : nat) :
  10 <= processTime params ->
  at3 (grid3D distribution) 5 10 10 s = Ok (baseDensity, s) ->
  exists series,
    generateStabilityTimeSeries params distribution metrics s
    = Ok (series, (s + Z.to_nat (numPoints params))%nat)
    /\ List.length series = Z.to_nat (numPoints params)
    /\ forall i pt, nth_error series i = Some pt ->
         time pt
         = toFixed 1 (num i / (inject_Z (numPoints params) - 1) * processTime params).
Proof.
  intros Hp Hbase. unfold generateStabilityTimeSeries. cbv zeta.
  rewrite (bind_Ok _ _ _ _ _ Hbase).
  destruct (for_push_post
              (stabilitySample params baseDensity (etchUniformity metrics))
              (fun i pt => time pt
                 = toFixed 1 (num i / (inject_Z (numPoints params) - 1)
                              * processTime params))
              1 (Z.to_nat (numPoints params)) s) as [series [E [Hlen Hnth]]].
  { intros i s' _. apply stabilitySample_spec. exact Hp. }
  exists series. rewrite Nat.mul_1_r in E. repeat split; assumption.
Qed.

End StabilityFacts.

(** ** The prediction *)

Section PredictionFacts.

Context `{JsEnv}.

(** On valid parameters [generatePrediction] returns; its result is
    assembled from the results of the five stages, which all return. *)
Lemma generatePrediction_spec (params : ProcessParameters) (s : nat) :
  valid_params params ->
  exists r d m st series,
    generatePrediction params s
    = Ok (r, (S (S (s + 4000)) + Z.to_nat (numPoints params))%nat)
    /\ simulateRadicalDistribution params s = Ok (d, (s + 4000)%nat)
    /\ predictQualityMetrics params d (s + 4000)%nat = Ok ((m, st), S (S (s + 4000)))
    /\ generateStabilityTimeSeries params d m (S (S (s + 4000)))
       = Ok (series, (S (S (s + 4000)) + Z.to_nat (numPoints params))%nat)
    /\ r = {| id := randomUUID;
              timestamp := nowISOString;
              parameters := params;
              radicalDistribution := d;
              qualityMetrics := m;
              roiMetrics := Some (calculateRoiMetrics params m st);
              stabilityTimeSeries := Some series;
              status := st;
              recommendations :=
                if (0 <? List.length (generateRecommendations params d m st))%nat
                then Some (generateRecommendations params d m st) else None |}.
Proof.
  intros (_ & (Hp & _) & _ & _ & _ & _ & _ & (Ht & _) & _).
  destruct (simulateRadicalDistribution_spec params s Hp)
    as (d & Ed & Hgrid & _).
  destruct (predictQualityMetrics_spec params d (s + 4000)%nat)
    as (m & st & Eq & _).
  destruct (generateStabilityTimeSeries_spec params d m
              (cellOf params s 5 10 10) (S (S (s + 4000))) Ht)
    as (series & Es & _).
  { rewrite Hgrid. apply at3_gridOf; reflexivity. }
  eexists. exists d, m, st, series.
  split; [|repeat split; try eassumption; reflexivity].
  unfold generatePrediction.
  rewrite (bind_Ok _ _ _ _ _ Ed). rewrite (bind_Ok _ _ _ _ _ Eq).
  cbv beta iota zeta.
  rewrite (bind_Ok _ _ _ _ _ Es).
  reflexivity.
Qed.

End PredictionFacts.

(** ** Sorting by priority *)




Lemma insert_by_perm {A} (cmp : A -> A -> Q) (a : A) (l : list A) :
  Permutation (a :: l) (ArraySort.insert_by cmp a l).
Proof.
  induction l as [|b l IH]; simpl.
  - apply Permutation_refl.
  - destruct (cmp a b <=? 0).
    + apply Permutation_refl.
    + apply perm_trans with (b :: a :: l); [apply perm_swap|].
      apply perm_skip. exact IH.
Qed.

Lemma sort_perm {A} (cmp : A -> A -> Q) (l : list A) :
  Permutation l (ArraySort.sort cmp l).
Proof.
  induction l as [|a l IH]; simpl.
  - apply perm_nil.
  - apply perm_trans with (a :: ArraySort.sort cmp l).
    + apply perm_skip. exact IH.
    + apply insert_by_perm.
Qed.







(** ** The status thresholds *)

Lemma DefectRisk_eqb_eq (a b : DefectRisk) : DefectRisk_eqb a b = true <-> a = b.
Proof. destruct a, b; simpl; split; intro E; congruence. Qed.

Lemma Status_eqb_eq (a b : Status) : Status_eqb a b = true <-> a = b.
Proof. destruct a, b; simpl; split; intro E; congruence. Qed.

(** C2.  The status is decided by two ordered tests on the uniformity as it
    was computed, before it is rounded for the report, on the rounded CD
    shift and on the defect risk: [safe] exactly when uniformity >= 94,
    |cdShift| <= 2 and the risk is low; otherwise [warning] exactly when
    uniformity >= 88, |cdShift| <= 4 and the risk is not high; otherwise
    [danger].  The three cases partition all triples, and the three triples
    of the specification fall as it says.  In the metrics that
    [predictQualityMetrics] returns the uniformity is that tested value
    rounded to one decimal: a [safe] status comes with reported metrics
    that pass the first test and a [warning] status with reported metrics
    that pass the second; reported metrics with a uniformity above 94 that
    pass the first test come with [safe], and a reported uniformity below
    88 comes with [danger]. *)
Theorem status_thresholds_partition :
  (forall (u c : Q) (r : DefectRisk),
      (classifyStatus u c r = safe
       <-> (94 <= u /\ Qabs c <= 2 /\ r = risk_low))
      /\ (classifyStatus u c r = warning
          <-> (~ (94 <= u /\ Qabs c <= 2 /\ r = risk_low)
               /\ 88 <= u /\ Qabs c <= 4 /\ r <> risk_high))
      /\ (classifyStatus u c r = danger
          <-> (~ (94 <= u /\ Qabs c <= 2 /\ r = risk_low)
               /\ ~ (88 <= u /\ Qabs c <= 4 /\ r <> risk_high))))
  /\ classifyStatus 95 0 risk_low = safe
  /\ classifyStatus 90 3 risk_medium = warning
  /\ (forall (c : Q) (r : DefectRisk), classifyStatus 80 c r = danger)
  /\ (forall (env : JsEnv) (params : ProcessParameters)
             (distribution : RadicalDistribution) (s : nat),
         exists metrics st u,
           predictQualityMetrics params distribution s = Ok ((metrics, st), S (S s))
           /\ st = classifyStatus u (cdShift metrics) (defectRisk metrics)
           /\ roundedTo 1 u (etchUniformity metrics)
           /\ (st = safe ->
               94 <= etchUniformity metrics /\ Qabs (cdShift metrics) <= 2
               /\ defectRisk metrics = risk_low)
           /\ (st = warning ->
               88 <= etchUniformity metrics /\ Qabs (cdShift metrics) <= 4
               /\ defectRisk metrics <> risk_high)
           /\ (94 < etchUniformity metrics -> Qabs (cdShift metrics) <= 2 ->
               defectRisk metrics = risk_low -> st = safe)
           /\ (etchUniformity metrics < 88 -> st = danger)).
Proof.
  assert (Hcases : forall (u c : Q) (r : DefectRisk),
      (classifyStatus u c r = safe
       <-> (94 <= u /\ Qabs c <= 2 /\ r = risk_low))
      /\ (classifyStatus u c r = warning
          <-> (~ (94 <= u /\ Qabs c <= 2 /\ r = risk_low)
               /\ 88 <= u /\ Qabs c <= 4 /\ r <> risk_high))
      /\ (classifyStatus u c r = danger
          <-> (~ (94 <= u /\ Qabs c <= 2 /\ r = risk_low)
               /\ ~ (88 <= u /\ Qabs c <= 4 /\ r <> risk_high)))).
  { intros u c r.
    pose proof (Qgeb_true u 94) as H94. pose proof (Qgeb_true u 88) as H88.
    pose proof (Qleb_true (Qabs c) 2) as H2. pose proof (Qleb_true (Qabs c) 4) as H4.
    pose proof (DefectRisk_eqb_eq r risk_low) as Hlow.
    pose proof (DefectRisk_eqb_eq r risk_high) as Hhigh.
    unfold classifyStatus.
    destruct (u >=? 94), (Qabs c <=? 2), (DefectRisk_eqb r risk_low),
             (u >=? 88), (Qabs c <=? 4), (DefectRisk_eqb r risk_high);
      simpl; intuition (try discriminate; try congruence). }
  split; [exact Hcases|].
  split; [reflexivity|]. split; [reflexivity|]. split.
  - intros c r. unfold classifyStatus.
    destruct (Qabs c <=? 2), (Qabs c <=? 4), (DefectRisk_eqb r risk_low),
             (DefectRisk_eqb r risk_high); reflexivity.
  - intros env params distribution s.
    pose proof (predictQualityMetrics_spec params distribution s)
      as (m & st & E & Hu & _ & _ & Hst).
    set (u := computeUniformity params distribution) in *.
    pose proof (Hcases u (cdShift m) (defectRisk m)) as (Hsafe & Hwarn & _).
    exists m, st, u. split; [exact E|]. split; [exact Hst|].
    split; [rewrite Hu; apply toFixed_roundedTo|].
    split; [|split; [|split]].
    + intro Es. rewrite Es in Hst. symmetry in Hst.
      apply Hsafe in Hst. destruct Hst as (H94 & Hc & Hr).
      split; [|split; assumption].
      rewrite Hu. apply toFixed_lower; [reflexivity | exact H94].
    + intro Ew. rewrite Ew in Hst. symmetry in Hst.
      apply Hwarn in Hst. destruct Hst as (_ & H88 & Hc & Hr).
      split; [|split; assumption].
      rewrite Hu. apply toFixed_lower; [reflexivity | exact H88].
    + intros Habove Hc Hr. rewrite Hst. apply Hsafe.
      split; [|split; assumption].
      destruct (Qlt_le_dec u 94) as [Hlt|Hge]; [|exact Hge].
      exfalso. apply (Qlt_not_le _ _ Habove). rewrite Hu.
      apply toFixed_upper; [reflexivity | lra].
    + intro Hbelow. rewrite Hst.
      assert (Hlt : u < 88).
      { destruct (Qlt_le_dec u 88) as [Hlt|Hge]; [exact Hlt|].
        exfalso. apply (Qlt_not_le _ _ Hbelow). rewrite Hu.
        apply toFixed_lower; [reflexivity | exact Hge]. }
      apply (Hcases u (cdShift m) (defectRisk m)).
      split; intros (H & _); lra.
Qed.


(** C2, as the specification states it, fails: the parameters
    [thresholdParams] are valid, and on the descriptors of their run the
    predictor computes a uniformity of 93.97.  It reports 94.0 with a CD
    shift of -0.64 and a low defect risk, metrics that pass the test for
    [safe], and answers [warning]. *)
Lemma reported_metrics_do_not_decide_status :
  valid_params thresholdParams
  /\ centerEdgeRatio thresholdDistribution
     = @ratioOf ReferenceHost.host thresholdParams 0
  /\ highEnergyFraction thresholdDistribution
     == toFixed 3 (0.15 + powerFactor thresholdParams * 0.2
                   - pressureFactor thresholdParams * 0.1)
  /\ (exists metrics st s',
         @predictQualityMetrics ReferenceHost.host thresholdParams
           thresholdDistribution 4000%nat = Ok ((metrics, st), s')
         /\ @computeUniformity ReferenceHost.host thresholdParams thresholdDistribution
            == 93.97
         /\ etchUniformity metrics == 94
         /\ cdShift metrics == - 0.64
         /\ defectRisk metrics = risk_low
         /\ st = warning)
  /\ ~ (forall (env : JsEnv) (params : ProcessParameters)
               (distribution : RadicalDistribution) (s : nat)
               (metrics : QualityMetrics) (st : Status) (s' : nat),
           @predictQualityMetrics env params distribution s = Ok ((metrics, st), s') ->
           (st = safe
            <-> (94 <= etchUniformity metrics /\ Qabs (cdShift metrics) <= 2
                 /\ defectRisk metrics = risk_low))).
Proof.
  assert (Hrun : exists metrics st s',
             @predictQualityMetrics ReferenceHost.host thresholdParams
               thresholdDistribution 4000%nat = Ok ((metrics, st), s')
             /\ @computeUniformity ReferenceHost.host thresholdParams
                  thresholdDistribution == 93.97
             /\ etchUniformity metrics == 94
             /\ cdShift metrics == - 0.64
             /\ defectRisk metrics = risk_low
             /\ st = warning).
  { eexists. eexists. eexists. split; [vm_compute; reflexivity|].
    split; [vm_compute; reflexivity|]. split; [vm_compute; reflexivity|].
    split; [vm_compute; reflexivity|]. split; reflexivity. }
  split.
  { unfold valid_params, within, thresholdParams; simpl.
    repeat split; apply Qle_bool_imp_le; reflexivity. }
  split; [vm_compute; reflexivity|]. split; [vm_compute; reflexivity|].
  split; [exact Hrun|].
  intro Hall. destruct Hrun as (m & st & s' & E & _ & Hu & Hc & Hr & Hst).
  pose proof (proj2 (Hall ReferenceHost.host thresholdParams thresholdDistribution
                       4000%nat m st s' E)) as Hsafe.
  assert (Hs : st = safe).
  { apply Hsafe. split; [rewrite Hu; discriminate|].
    split; [rewrite Hc; discriminate | exact Hr]. }
  rewrite Hst in Hs. discriminate Hs.
Qed.

(** ** The recommendations *)

Section RecommendationFacts.

Context `{JsEnv}.


End RecommendationFacts.

(** ** Bounds of the reported metrics *)

Section MetricFacts.

Context `{JsEnv}.

Lemma computeUniformity_range (params : ProcessParameters)
    (distribution : RadicalDistribution) :
  50 <= computeUniformity params distribution
  /\ computeUniformity params distribution <= 99.5.
Proof.
  unfold computeUniformity. cbv zeta. split.
  - apply Q.le_max_l.
  - apply Q.max_lub; [discriminate | apply Q.le_min_l].
Qed.

(** C3.  On valid parameters the simulator returns, whatever the host draws,
    and every cell of the grid it returns is at least 0.05: a cell is
    [toFixed 4 (max 0.05 (density + noise))], the floor being applied after
    the noise and before the rounding to four decimals, which keeps the
    bound.  The same holds of the mid-height slice [grid], which is layer 5
    of [grid3D]. *)
Theorem density_floor (params : ProcessParameters) (s : nat) :
  valid_params params ->
  exists d s',
    simulateRadicalDistribution params s = Ok (d, s')
    /\ Forall (Forall (Forall (fun v => 0.05 <= v))) (grid3D d)
    /\ Forall (Forall (fun v => 0.05 <= v)) (grid d)
    /\ nth_error (grid3D d) 5 = Some (grid d)
    /\ (forall (k : nat) (layer : list (list Q)) (i : nat) (row : list Q),
           nth_error (grid3D d) k = Some layer -> nth_error layer i = Some row ->
           Forall (fun cell =>
                     exists density rnd,
                       cell = toFixed 4 (Qmax 0.05 (density + (rnd - 0.5) * 0.03 * density))
                       /\ 0.05 <= Qmax 0.05 (density + (rnd - 0.5) * 0.03 * density)
                       /\ 0.05 <= cell) row).
Proof.
  intros (_ & (Hp & _) & _).
  destruct (simulateRadicalDistribution_spec params s Hp)
    as (d & Ed & Hgrid & Hslice & _).
  exists d, (s + 4000)%nat. split; [exact Ed|].
  split; [rewrite Hgrid; apply gridOf_floor|].
  split; [rewrite Hslice; apply layerOf_floor|].
  split.
  { rewrite Hgrid, Hslice. unfold gridOf. apply nth_error_tabulate. reflexivity. }
  intros k layer i row Hlayer Hrow. rewrite Hgrid in Hlayer.
  apply nth_error_In in Hlayer. unfold gridOf in Hlayer.
  apply in_map_iff in Hlayer. destruct Hlayer as [k' [<- _]].
  apply nth_error_In in Hrow. unfold layerOf in Hrow.
  apply in_map_iff in Hrow. destruct Hrow as [i' [<- _]].
  apply Forall_forall. intros cell Hcell. unfold rowOf in Hcell.
  apply in_map_iff in Hcell. destruct Hcell as [j' [<- _]].
  exists (cellDensity params k' i' j'), (random_draw (s + k' * 400 + i' * 20 + j')).
  split; [reflexivity|]. split; [apply Q.le_max_l | apply cellOf_floor].
Qed.

(** C4.  On valid parameters [generatePrediction] returns a result: no
    division meets a zero divisor and no array is read outside its bounds,
    whatever the host computes and draws. *)
Theorem generatePrediction_total (params : ProcessParameters) (s : nat) :
  valid_params params ->
  exists r s', generatePrediction params s = Ok (r, s').
Proof.
  intro Hv.
  destruct (generatePrediction_spec params s Hv) as (r & d & m & st & series & E & _).
  eauto.
Qed.

(** Below a centre/edge ratio of 0.7 the exponential penalty is off and the
    uniformity is at most linear in the ratio. *)
Lemma computeUniformity_edge_bound (params : ProcessParameters)
    (distribution : RadicalDistribution) :
  centerEdgeRatio distribution < 0.7 ->
  computeUniformity params distribution
  <= Qmax 50 (68 + 45 * centerEdgeRatio distribution
              - Qmax 0 (pressure params - 60) * 0.1).
Proof.
  intro Hc. unfold computeUniformity. cbv zeta.
  assert (E1 : (centerEdgeRatio distribution >? 1.5) = false)
    by (apply Qgtb_false; lra).
  assert (E2 : (centerEdgeRatio distribution <? 0.7) = true)
    by (apply Qltb_true; lra).
  rewrite E1, E2.
  pose proof (Qabs_nonneg (topBottomGradient distribution - 1)) as Hg.
  assert (Hr : Qabs (centerEdgeRatio distribution - 1)
               == 1 - centerEdgeRatio distribution).
  { rewrite Qabs_neg by lra. ring. }
  apply Q.max_lub; [apply Q.le_max_l|].
  eapply Qle_trans; [apply Q.le_min_r|].
  eapply Qle_trans; [|apply Q.le_max_r].
  destruct (Q.max_spec 0 (pressure params - 60)) as [[Hlt Em]|[Hge Em]];
    rewrite Em;
    destruct (pulseEnabled params);
    destruct (pressure params >? 60) eqn:E60;
    try (apply Qgtb_true in E60); try (apply Qgtb_false in E60);
    rewrite Hr; lra.
Qed.


Lemma reported_uniformity_edge_bound (params : ProcessParameters)
    (distribution : RadicalDistribution) :
  centerEdgeRatio distribution < 0.7 ->
  toFixed 1 (computeUniformity params distribution)
  <= Qmax 50 (68.1 + 45 * centerEdgeRatio distribution
              - Qmax 0 (pressure params - 60) * 0.1).
Proof.
  intro Hc. pose proof (computeUniformity_edge_bound params distribution Hc) as Hu.
  set (a := 68 + 45 * centerEdgeRatio distribution
            - Qmax 0 (pressure params - 60) * 0.1) in *.
  assert (Ea : 68.1 + 45 * centerEdgeRatio distribution
               - Qmax 0 (pressure params - 60) * 0.1 == a + 0.1).
  { unfold a. ring. }
  rewrite Ea.
  destruct (Qlt_le_dec 50 a) as [Hhi|Hlo].
  - assert (Hua : computeUniformity params distribution <= a).
    { eapply Qle_trans; [exact Hu|]. apply Q.max_lub; lra. }
    eapply Qle_trans; [apply toFixed_mono; exact Hua|].
    eapply Qle_trans; [|apply Q.le_max_r].
    assert (Hc1 : Qabs (toFixed 1 a - a) <= 1 # 20).
    { eapply Qle_trans; [apply toFixed_close|].
      apply Qle_bool_imp_le. reflexivity. }
    apply Qabs_Qle_condition in Hc1. lra.
  - assert (Hu50 : computeUniformity params distribution <= 50).
    { eapply Qle_trans; [exact Hu|]. apply Q.max_lub; lra. }
    eapply Qle_trans; [|apply Q.le_max_l].
    apply toFixed_upper; [reflexivity | exact Hu50].
Qed.


(** C5.  On valid parameters the reported etch uniformity lies in
    [50, 99.5].  The lower end is 50 and not the 75 of the two-dimensional
    variant: on an edge-heavy grid (centre/edge ratio below 0.7) the
    reported value is at most [68.1 + 45 * ratio] less a tenth of the
    pressure above 60, or 50 where that is smaller, which is below 75 for
    small ratios, whereas the two-dimensional predictor never goes below
    75. *)
Theorem etchUniformity_range (params : ProcessParameters) (s : nat) :
  valid_params params ->
  exists r s',
    generatePrediction params s = Ok (r, s')
    /\ 50 <= etchUniformity (qualityMetrics r)
    /\ etchUniformity (qualityMetrics r) <= 99.5
    /\ (centerEdgeRatio (radicalDistribution r) < 0.7 ->
        etchUniformity (qualityMetrics r)
        <= Qmax 50 (68.1 + 45 * centerEdgeRatio (radicalDistribution r)
                    - Qmax 0 (pressure params - 60) * 0.1))
    /\ (forall legacy : Legacy.RadicalDistribution,
           75 <= Legacy.computeUniformity params legacy
           /\ 75 <= toFixed 1 (Legacy.computeUniformity params legacy)).
Proof.
  intro Hv.
  pose proof (generatePrediction_spec params s Hv)
    as (r & d & m & st & series & E & _ & Eq & _ & ->).
  pose proof (predictQualityMetrics_spec params d (s + 4000)%nat)
    as (m' & st' & Eq' & Hu & _).
  rewrite Eq in Eq'. injection Eq' as <- <-.
  pose proof (computeUniformity_range params d) as [Hlo Hhi].
  eexists. eexists. split; [exact E|].
  cbn [radicalDistribution qualityMetrics]. rewrite Hu.
  split; [apply toFixed_lower; [reflexivity | exact Hlo]|].
  split; [apply toFixed_upper; [reflexivity | exact Hhi]|].
  split; [apply reported_uniformity_edge_bound|].
  intro legacy.
  assert (H75 : 75 <= Legacy.computeUniformity params legacy).
  { unfold Legacy.computeUniformity. cbv zeta. apply Q.le_max_l. }
  split; [exact H75|]. apply toFixed_lower; [reflexivity | exact H75].
Qed.

End MetricFacts.

(** ** The return on investment *)

Lemma calculateRoiMetrics_spec (params : ProcessParameters)
    (metrics : QualityMetrics) (st : Status) :
  let y := Qmax 30 (Qmin 99 (etchUniformity metrics * 0.8
                             - riskPenalty (defectRisk metrics)
                             - Qabs (cdShift metrics) * 2)) in
  let g := Qfloor (25 * y / 100) in
  let roi := calculateRoiMetrics params metrics st in
  yieldRate roi = toFixed 1 y
  /\ 30 <= yieldRate roi /\ yieldRate roi <= 99
  /\ (7 <= g <= 24)%Z
  /\ estimatedBatchProfit roi
     = toFixed 0 (inject_Z g * 200 - 25 * 150 - (25 - inject_Z g) * 150 * 0.5)
  /\ - 3700 <= estimatedBatchProfit roi /\ estimatedBatchProfit roi <= 975
  /\ waferCost roi = 150 /\ batchSize roi = 25.
Proof.
  intros y g roi.
  assert (Ey : Qmax 30 (Qmin 99
                 (match defectRisk metrics with
                  | risk_low => etchUniformity metrics * 0.8
                  | risk_medium => etchUniformity metrics * 0.8 - 10
                  | risk_high => etchUniformity metrics * 0.8 - 25
                  end - Qabs (cdShift metrics) * 2)) == y).
  { unfold y. apply Q.max_compat; [reflexivity|].
    apply Q.min_compat; [reflexivity|].
    destruct (defectRisk metrics); simpl riskPenalty; ring. }
  assert (Hy : 30 <= y /\ y <= 99).
  { unfold y. split; [apply Q.le_max_l|].
    apply Q.max_lub; [discriminate | apply Q.le_min_l]. }
  assert (Hg : (7 <= g <= 24)%Z).
  { unfold g. split.
    - change 7%Z with (Qfloor 7.5). apply Qfloor_resp_le.
      apply Qle_shift_div_l; [reflexivity | lra].
    - change 24%Z with (Qfloor 24.75). apply Qfloor_resp_le.
      apply Qle_shift_div_r; [reflexivity | lra]. }
  assert (Hgq : 7 <= inject_Z g /\ inject_Z g <= 24).
  { split; [change 7 with (inject_Z 7) | change 24 with (inject_Z 24)];
      rewrite <- Zle_Qle; lia. }
  assert (Eg : Qfloor (25 * Qmax 30 (Qmin 99
                 (match defectRisk metrics with
                  | risk_low => etchUniformity metrics * 0.8
                  | risk_medium => etchUniformity metrics * 0.8 - 10
                  | risk_high => etchUniformity metrics * 0.8 - 25
                  end - Qabs (cdShift metrics) * 2)) / 100) = g).
  { unfold g. apply Qfloor_comp. rewrite Ey. reflexivity. }
  assert (Hyield : yieldRate roi = toFixed 1 y).
  { unfold roi, calculateRoiMetrics. cbv zeta. cbn [yieldRate].
    apply toFixed_ext. exact Ey. }
  assert (Hprofit : estimatedBatchProfit roi
                    = toFixed 0 (inject_Z g * 200 - 25 * 150
                                 - (25 - inject_Z g) * 150 * 0.5)).
  { unfold roi, calculateRoiMetrics. cbv zeta. cbn [estimatedBatchProfit].
    rewrite Eg. reflexivity. }
  split; [exact Hyield|]. rewrite Hyield, Hprofit.
  split; [apply toFixed_lower; [reflexivity | apply Hy]|].
  split; [apply toFixed_upper; [reflexivity | apply Hy]|].
  split; [exact Hg|]. split; [reflexivity|].
  split; [apply toFixed_lower; [reflexivity | lra]|].
  split; [apply toFixed_upper; [reflexivity | lra]|].
  split; reflexivity.
Qed.

Section RoiFacts.

Context `{JsEnv}.

(** C8.  On valid parameters the result carries ROI metrics whose yield rate
    is [etchUniformity * 0.8 - penalty - |cdShift| * 2] clamped to [30, 99]
    and rounded to one decimal (penalty 10 for medium risk, 25 for high
    risk), and lies in [30, 99].  The number of good wafers is a whole
    number between 7 and 24, a quarter of the yield rate rounded down, and
    the estimated batch profit is computed from it with 25 wafers per
    batch, 150 USD per wafer, 200 USD per processed wafer and half of the
    wafer cost lost per scrapped wafer: a number between -3700 and 975. *)
Theorem roi_bounds (params : ProcessParameters) (s : nat) :
  valid_params params ->
  exists r s' roi (g : Z),
    generatePrediction params s = Ok (r, s')
    /\ roiMetrics r = Some roi
    /\ roundedTo 1 (Qmax 30 (Qmin 99 (etchUniformity (qualityMetrics r) * 0.8
                                      - riskPenalty (defectRisk (qualityMetrics r))
                                      - Qabs (cdShift (qualityMetrics r)) * 2)))
                 (yieldRate roi)
    /\ 30 <= yieldRate roi /\ yieldRate roi <= 99
    /\ (7 <= g <= 24)%Z
    /\ 25 * yieldRate roi / 100 - 1.02 <= inject_Z g
    /\ inject_Z g <= 25 * yieldRate roi / 100 + 0.02
    /\ estimatedBatchProfit roi
       == inject_Z g * 200 - 25 * 150 - (25 - inject_Z g) * 150 * 0.5
    /\ - 3700 <= estimatedBatchProfit roi /\ estimatedBatchProfit roi <= 975
    /\ waferCost roi = 150 /\ batchSize roi = 25.
Proof.
  intro Hv.
  pose proof (generatePrediction_spec params s Hv)
    as (r & d & m & st & series & E & _ & _ & _ & ->).
  pose proof (calculateRoiMetrics_spec params m st) as Hroi. cbv zeta in Hroi.
  destruct Hroi as (Hy & Hlo & Hhi & Hg & Hp & Hplo & Hphi & Hw & Hb).
  set (y := Qmax 30 (Qmin 99 (etchUniformity m * 0.8 - riskPenalty (defectRisk m)
                              - Qabs (cdShift m) * 2))) in *.
  set (g := Qfloor (25 * y / 100)) in *.
  eexists. eexists. exists (calculateRoiMetrics params m st), g.
  split; [exact E|]. cbn [roiMetrics qualityMetrics].
  split; [reflexivity|]. fold y.
  assert (Hclose : Qabs (yieldRate (calculateRoiMetrics params m st) - y) <= 1 # 20).
  { rewrite Hy. eapply Qle_trans; [apply toFixed_close|].
    apply Qle_bool_imp_le. reflexivity. }
  split; [rewrite Hy; apply toFixed_roundedTo|].
  split; [exact Hlo|]. split; [exact Hhi|]. split; [exact Hg|].
  apply Qabs_Qle_condition in Hclose.
  pose proof (Qfloor_le (25 * y / 100)) as Hfl.
  pose proof (Qlt_floor (25 * y / 100)) as Hfu. fold g in Hfl, Hfu.
  rewrite inject_Z_plus in Hfu. change (inject_Z 1) with 1 in Hfu.
  assert (Eq4 : forall x : Q, 25 * x / 100 == x * (1 # 4)) by (intro x; field).
  rewrite Eq4 in Hfl, Hfu.
  split; [rewrite Eq4; lra|]. split; [rewrite Eq4; lra|].
  split; [|split; [exact Hplo|split; [exact Hphi|split; assumption]]].
  rewrite Hp.
  assert (Ei : inject_Z g * 200 - 25 * 150 - (25 - inject_Z g) * 150 * 0.5
               == inject_Z (275 * g - 5625)).
  { unfold Z.sub. rewrite inject_Z_plus, inject_Z_mult, inject_Z_opp.
    change (inject_Z 275) with 275. change (inject_Z 5625) with 5625. ring. }
  rewrite (toFixed_ext 0 _ _ Ei), Ei. apply toFixed_integer.
Qed.

(** C6.  On valid parameters the stability series has
    [min 60 (floor (processTime / 5) + 1)] samples, between 3 and 60.  The
    sample of index [i] is stamped with [i / (n - 1) * processTime] rounded
    to one decimal, so the samples are evenly spaced over [0, processTime]
    up to that rounding; the first is stamped 0 and the last is stamped with
    the process time rounded to one decimal. *)
Theorem stability_series_shape (params : ProcessParameters) (s : nat) :
  valid_params params ->
  exists r s' series n,
    generatePrediction params s = Ok (r, s')
    /\ stabilityTimeSeries r = Some series
    /\ n = Z.min 60 (Qfloor (processTime params / 5) + 1)
    /\ (3 <= n <= 60)%Z
    /\ List.length series = Z.to_nat n
    /\ (forall (i : nat) (pt : StabilityDataPoint),
           nth_error series i = Some pt ->
           roundedTo 1 (num i / (inject_Z n - 1) * processTime params) (time pt))
    /\ (exists first, nth_error series 0 = Some first /\ time first == 0)
    /\ (exists last,
           nth_error series (Z.to_nat n - 1) = Some last
           /\ time last = toFixed 1 (processTime params)
           /\ roundedTo 1 (processTime params) (time last)).
Proof.
  intro Hv. pose proof Hv as (_ & _ & _ & _ & _ & _ & _ & (Ht & _) & _).
  pose proof (generatePrediction_spec params s Hv)
    as (r & d & m & st & series & E & Ed & _ & Es & ->).
  pose proof (numPoints_lower params Ht) as Hn3.
  pose proof (numPoints_upper params) as Hn60.
  pose proof (lastIndex_not_zero params Ht) as Hnz.
  assert (Hp : 1 <= pressure params).
  { destruct Hv as (_ & (Hp & _) & _). exact Hp. }
  pose proof (simulateRadicalDistribution_spec params s Hp) as (d' & Ed' & Hgrid & _).
  rewrite Ed in Ed'. injection Ed' as <-.
  assert (Hat : at3 (grid3D d) 5 10 10 (S (S (s + 4000)))
                = Ok (cellOf params s 5 10 10, S (S (s + 4000)))).
  { rewrite Hgrid. apply at3_gridOf; reflexivity. }
  pose proof (generateStabilityTimeSeries_spec params d m
                (cellOf params s 5 10 10) (S (S (s + 4000))) Ht Hat)
    as (series' & Es' & Hlen & Hnth).
  rewrite Es in Es'. injection Es' as <-.
  eexists. eexists. exists series, (numPoints params).
  split; [exact E|]. cbn [stabilityTimeSeries].
  split; [reflexivity|]. split; [reflexivity|]. split; [lia|].
  split; [exact Hlen|]. split; [|split].
  - intros i pt Hi. rewrite (Hnth i pt Hi). apply toFixed_roundedTo.
  - destruct (nth_error series 0) as [first|] eqn:E0.
    + exists first. split; [reflexivity|].
      rewrite (Hnth 0%nat first E0).
      rewrite (toFixed_ext 1 _ 0); [reflexivity|].
      change (num 0) with 0. field. exact Hnz.
    + apply nth_error_None in E0. lia.
  - destruct (nth_error series (Z.to_nat (numPoints params) - 1)) as [last|] eqn:El.
    + exists last. split; [reflexivity|].
      assert (Elast : time last = toFixed 1 (processTime params)).
      { rewrite (Hnth _ last El). apply toFixed_ext.
        unfold num. rewrite Nat2Z.inj_sub by lia. rewrite Z2Nat.id by lia.
        unfold Z.sub. rewrite inject_Z_plus, inject_Z_opp.
        change (inject_Z (Z.of_nat 1)) with 1.
        field. intro Hz. apply Hnz. rewrite <- Hz. ring. }
      split; [exact Elast|]. rewrite Elast. apply toFixed_roundedTo.
    + apply nth_error_None in El. lia.
Qed.

End RoiFacts.

(** ** Descriptors that do not depend on the noise *)

(** C9.  [highEnergyFraction] and [residenceTimeIndex] are computed from the
    parameters alone: two runs of the simulator on the same valid
    parameters, on any two hosts and after any numbers of draws, return the
    same two values, namely [0.15 + powerFactor * 0.2 - pressureFactor * 0.1]
    rounded to three decimals and
    [10 / pressureFactor * (1 + arFlow * 0.2)] rounded to two decimals. *)
Theorem closed_form_descriptors (env1 env2 : JsEnv) (params : ProcessParameters)
    (s1 s2 : nat) :
  valid_params params ->
  exists d1 d2 t1 t2,
    @simulateRadicalDistribution env1 params s1 = Ok (d1, t1)
    /\ @simulateRadicalDistribution env2 params s2 = Ok (d2, t2)
    /\ highEnergyFraction d1 = highEnergyFraction d2
    /\ residenceTimeIndex d1 = residenceTimeIndex d2
    /\ roundedTo 3 (0.15 + powerFactor params * 0.2 - pressureFactor params * 0.1)
                 (highEnergyFraction d1)
    /\ roundedTo 2 (10 / pressureFactor params * (1 + arFlow params * 0.2))
                 (residenceTimeIndex d1).
Proof.
  intros (_ & (Hp & _) & _).
  pose proof (@simulateRadicalDistribution_spec env1 params s1 Hp)
    as (d1 & E1 & _ & _ & _ & _ & Hh1 & Hr1).
  pose proof (@simulateRadicalDistribution_spec env2 params s2 Hp)
    as (d2 & E2 & _ & _ & _ & _ & Hh2 & Hr2).
  exists d1, d2, (s1 + 4000)%nat, (s2 + 4000)%nat.
  split; [exact E1|]. split; [exact E2|].
  split; [congruence|]. split; [congruence|].
  split; [rewrite Hh1 | rewrite Hr1]; apply toFixed_roundedTo.
Qed.

(** ** When no recommendation is made *)

(** With every guard closed no trigger can push a recommendation. *)
Lemma closed_guards_silent (params : ProcessParameters)
    (distribution : RadicalDistribution) (metrics : QualityMetrics) :
  30 <= pressure params -> rfPower params <= 800 -> pulseEnabled params = true ->
  100 <= gasFlowAr params -> 20 <= gasFlowO2 params -> gasFlowCF4 params <= 80 ->
  highEnergyFraction distribution <= 0.35 ->
  triggeredRecommendations params distribution metrics = [].
Proof.
  intros Hp Hrf Hpulse Har Ho2 Hcf4 Hhef.
  unfold triggeredRecommendations. cbv zeta.
  assert (G1 : (pressure params <? 30) = false) by (apply Qltb_false; exact Hp).
  assert (G2 : (rfPower params >? 800) = false) by (apply Qgtb_false; exact Hrf).
  assert (G3 : (gasFlowAr params <? 80) = false) by (apply Qltb_false; lra).
  assert (G4 : (gasFlowAr params <? 100) = false) by (apply Qltb_false; exact Har).
  assert (G5 : (highEnergyFraction distribution >? 0.35) = false)
    by (apply Qgtb_false; exact Hhef).
  assert (G6 : (gasFlowO2 params <? 20) = false) by (apply Qltb_false; exact Ho2).
  assert (G7 : (pressure params <? 15) = false) by (apply Qltb_false; lra).
  assert (G8 : (gasFlowCF4 params >? 80) = false) by (apply Qgtb_false; exact Hcf4).
  rewrite G1, G2, G3, G4, G5, G6, G7, G8, Hpulse. cbn [negb andb].
  destruct (centerEdgeRatio distribution >? 1.5),
           (etchUniformity metrics <? 88),
           (Qabs (cdShift metrics) >? 3),
           (DefectRisk_eqb (defectRisk metrics) risk_high),
           (Qabs (topBottomGradient distribution - 1) >? 0.3); reflexivity.
Qed.

Lemma insert_by_not_nil {A} (cmp : A -> A -> Q) (a : A) (l : list A) :
  ArraySort.insert_by cmp a l <> [].
Proof. destruct l as [|b l]; simpl; [|destruct (cmp a b <=? 0)]; discriminate. Qed.

Lemma sort_nil_iff {A} (cmp : A -> A -> Q) (l : list A) :
  ArraySort.sort cmp l = [] <-> l = [].
Proof.
  destruct l as [|a l]; simpl; split; intro E; try reflexivity; try discriminate.
  exfalso. exact (insert_by_not_nil cmp a _ E).
Qed.

(** The returned list is empty exactly when the status is safe or no
    trigger has pushed anything. *)
Lemma generateRecommendations_nil_iff (params : ProcessParameters)
    (distribution : RadicalDistribution) (metrics : QualityMetrics) (st : Status) :
  generateRecommendations params distribution metrics st = []
  <-> (st = safe \/ triggeredRecommendations params distribution metrics = []).
Proof.
  unfold generateRecommendations.
  destruct (Status_eqb st safe) eqn:Est.
  - apply Status_eqb_eq in Est. split; [left; exact Est | reflexivity].
  - assert (Hns : st <> safe).
    { intro E. apply Status_eqb_eq in E. congruence. }
    cbv zeta. split.
    + intro E. right. apply (sort_nil_iff byPriority).
      destruct (ArraySort.sort byPriority _) as [|a l]; [reflexivity|discriminate].
    + intros [E|E]; [contradiction|]. rewrite E. reflexivity.
Qed.

Lemma generateRecommendations_length (params : ProcessParameters)
    (distribution : RadicalDistribution) (metrics : QualityMetrics) (st : Status) :
  (List.length (generateRecommendations params distribution metrics st) <= 3)%nat.
Proof.
  unfold generateRecommendations. destruct (Status_eqb st safe).
  - simpl. lia.
  - apply firstn_le_length.
Qed.

(** The optional field against the list it is built from (line 600) *)
Lemma optional_list {A} (l : list A) :
  (if (0 <? List.length l)%nat then Some l else None)
  = match l with [] => None | _ :: _ => Some l end.
Proof. destruct l; reflexivity. Qed.

(** ** A dangerous run without recommendations *)

Lemma classifyStatus_low_uniformity (u c : Q) (r : DefectRisk) :
  u < 88 -> classifyStatus u c r = danger.
Proof.
  intro Hu. unfold classifyStatus.
  assert (E94 : (u >=? 94) = false) by (apply Qgeb_false; lra).
  assert (E88 : (u >=? 88) = false) by (apply Qgeb_false; lra).
  rewrite E94, E88. reflexivity.
Qed.

Section EdgeHeavy.

Context `{JsEnv}.

(** A strongly edge-heavy grid caps the uniformity below the warning level,
    whatever the other descriptors and the parameters are. *)
Lemma computeUniformity_edge_heavy (params : ProcessParameters)
    (distribution : RadicalDistribution) :
  centerEdgeRatio distribution <= 0.4 ->
  computeUniformity params distribution <= 84.
Proof.
  intro Hc. unfold computeUniformity. cbv zeta.
  assert (E1 : (centerEdgeRatio distribution >? 1.5) = false)
    by (apply Qgtb_false; lra).
  assert (E2 : (centerEdgeRatio distribution <? 0.7) = true)
    by (apply Qltb_true; lra).
  rewrite E1, E2.
  pose proof (Qabs_nonneg (topBottomGradient distribution - 1)) as Hg.
  assert (Hr : Qabs (centerEdgeRatio distribution - 1)
               == 1 - centerEdgeRatio distribution).
  { rewrite Qabs_neg by lra. ring. }
  apply Q.max_lub; [discriminate|].
  eapply Qle_trans; [apply Q.le_min_r|].
  destruct (pulseEnabled params);
    destruct (pressure params >? 60) eqn:E60;
    try (apply Qgtb_true in E60); rewrite Hr; lra.
Qed.

End EdgeHeavy.

Lemma quietParams_valid : valid_params quietParams.
Proof.
  unfold valid_params, within, quietParams; simpl.
  repeat split; apply Qle_bool_imp_le; reflexivity.
Qed.

(** On the reference host the grid of [quietParams] is edge-heavy: the
    centre is at the floor, 0.05, and the wall midpoints are near 0.16. *)
Lemma quiet_ratio : @ratioOf ReferenceHost.host quietParams 0 = (317 # 1000).
Proof. vm_compute. reflexivity. Qed.

(** The run of [quietParams] on the reference host ends in [danger]
    without any recommendation. *)
Lemma quiet_run :
  exists r s',
    @generatePrediction ReferenceHost.host quietParams 0%nat = Ok (r, s')
    /\ status r = danger
    /\ triggeredRecommendations quietParams (radicalDistribution r)
         (qualityMetrics r) = []
    /\ recommendations r = None.
Proof.
  destruct (@generatePrediction_spec ReferenceHost.host quietParams 0%nat quietParams_valid)
    as (r & d & m & st & series & E & Ed & Eq & _ & ->).
  destruct (@simulateRadicalDistribution_spec ReferenceHost.host quietParams 0%nat)
    as (d' & Ed' & _ & _ & Hratio & _ & Hhef & _).
  { apply Qle_bool_imp_le. reflexivity. }
  rewrite Ed in Ed'. injection Ed' as <-.
  destruct (@predictQualityMetrics_spec ReferenceHost.host quietParams d 4000%nat)
    as (m' & st' & Eq' & _ & _ & _ & Hst).
  change (0 + 4000)%nat with 4000%nat in Eq. rewrite Eq in Eq'.
  injection Eq' as <- <-.
  rewrite quiet_ratio in Hratio.
  assert (Hu : @computeUniformity ReferenceHost.host quietParams d <= 84).
  { apply computeUniformity_edge_heavy. rewrite Hratio.
    apply Qle_bool_imp_le. reflexivity. }
  assert (Hdanger : st = danger).
  { rewrite Hst. apply classifyStatus_low_uniformity. lra. }
  assert (Hquiet : triggeredRecommendations quietParams d m = []).
  { apply closed_guards_silent;
      try reflexivity; try (apply Qle_bool_imp_le; reflexivity).
    rewrite Hhef. apply Qle_bool_imp_le. vm_compute. reflexivity. }
  assert (Hnone : generateRecommendations quietParams d m st = []).
  { apply generateRecommendations_nil_iff. right. exact Hquiet. }
  eexists. eexists. split; [exact E|].
  cbn [status recommendations radicalDistribution qualityMetrics].
  split; [exact Hdanger|]. split; [exact Hquiet|]. rewrite Hnone. reflexivity.
Qed.

(** ** The recommendation list of a prediction *)

Section ListFacts.

Context `{JsEnv}.

(** C1, as the code has it.  On valid parameters the recommendation list of
    the result has at most three elements, and it is empty whenever the
    status is safe.  It is empty exactly when the status is safe or no
    guarded trigger has pushed a recommendation, so a warning or a danger
    does not by itself produce one. *)
Theorem recommendation_list_bound (params : ProcessParameters) (s : nat) :
  valid_params params ->
  exists r s',
    generatePrediction params s = Ok (r, s')
    /\ (List.length (recommendationList r) <= 3)%nat
    /\ (status r = safe -> recommendationList r = [])
    /\ (recommendationList r = []
        <-> (status r = safe
             \/ triggeredRecommendations params (radicalDistribution r)
                  (qualityMetrics r) = [])).
Proof.
  intro Hv.
  destruct (generatePrediction_spec params s Hv)
    as (r & d & m & st & series & E & _ & _ & _ & ->).
  eexists. eexists. split; [exact E|].
  unfold recommendationList.
  cbn [recommendations status radicalDistribution qualityMetrics].
  rewrite optional_list.
  pose proof (generateRecommendations_length params d m st) as Hlen.
  pose proof (generateRecommendations_nil_iff params d m st) as Hnil.
  destruct (generateRecommendations params d m st) as [|a l] eqn:El.
  - split; [simpl; lia|]. split; [reflexivity|].
    split; [intros _; apply Hnil; reflexivity | reflexivity].
  - split; [exact Hlen|]. split.
    + intro Hs. apply Hnil. left. exact Hs.
    + exact Hnil.
Qed.

End ListFacts.

(** C1, as the specification states it, fails: on the reference host the
    valid parameters [quietParams] give the status [danger] and an empty
    recommendation list, so an empty list does not imply a safe status. *)
Lemma recommendation_list_not_iff_safe :
  valid_params quietParams
  /\ (exists r s',
         @generatePrediction ReferenceHost.host quietParams 0%nat = Ok (r, s')
         /\ status r = danger
         /\ recommendationList r = [])
  /\ ~ (forall (env : JsEnv) (params : ProcessParameters) (s : nat)
               (r : PredictionResult) (s' : nat),
           valid_params params ->
           @generatePrediction env params s = Ok (r, s') ->
           (List.length (recommendationList r) <= 3)%nat
           /\ (recommendationList r = [] <-> status r = safe)).
Proof.
  destruct quiet_run as (r & s' & E & Hd & _ & Hn).
  assert (Hl : recommendationList r = []).
  { unfold recommendationList. rewrite Hn. reflexivity. }
  split; [exact quietParams_valid|]. split.
  - exists r, s'. split; [exact E|]. split; assumption.
  - intro Hall.
    destruct (Hall ReferenceHost.host quietParams 0%nat r s' quietParams_valid E)
      as [_ [Hsafe _]].
    specialize (Hsafe Hl). rewrite Hd in Hsafe. discriminate Hsafe.
Qed.

(** C10.  The [recommendations] field of the result is present exactly when
    [generateRecommendations] has returned a non-empty list, and then holds
    that list; for an empty list the field is absent.  The field can be
    absent for a status that is not safe: the valid parameters
    [quietParams] yield [danger] on the reference host although no trigger
    pushes a recommendation. *)
Theorem recommendations_field_optional :
  (forall (env : JsEnv) (params : ProcessParameters) (s : nat),
      valid_params params ->
      exists r s' l,
        @generatePrediction env params s = Ok (r, s')
        /\ l = generateRecommendations params (radicalDistribution r)
                 (qualityMetrics r) (status r)
        /\ (l <> [] <-> recommendations r = Some l)
        /\ (l = [] <-> recommendations r = None))
  /\ (exists (env : JsEnv) (params : ProcessParameters) (s : nat)
             (r : PredictionResult) (s' : nat),
         valid_params params
         /\ @generatePrediction env params s = Ok (r, s')
         /\ status r = danger
         /\ triggeredRecommendations params (radicalDistribution r)
              (qualityMetrics r) = []
         /\ recommendations r = None).
Proof.
  split.
  - intros env params s Hv.
    destruct (@generatePrediction_spec env params s Hv)
      as (r & d & m & st & series & E & _ & _ & _ & ->).
    eexists. eexists. eexists. split; [exact E|].
    cbn [recommendations status radicalDistribution qualityMetrics].
    split; [reflexivity|]. rewrite optional_list.
    destruct (generateRecommendations params d m st) as [|a l].
    + split; split; intro E'; try reflexivity; try discriminate.
      contradiction.
    + split; split; intro E'; try reflexivity; discriminate.
  - destruct quiet_run as (r & s' & E & Hd & Ht & Hn).
    exists ReferenceHost.host, quietParams, 0%nat, r, s'.
    split; [exact quietParams_valid|]. split; [exact E|].
    split; [exact Hd|]. split; [exact Ht | exact Hn].
Qed.

(** * Further properties of the code *)
(** ** The whole result of the simulator *)

Section SimulatorRun.

Context `{JsEnv}.

Lemma RadicalDistribution_ext
    (g3 g3' : list (list (list Q))) (g g' : list (list Q)) (dm dm' : Dimensions.t)
    (a a' b b' c c' e e' f f' h h' : Q) :
  g3 = g3' -> g = g' -> dm = dm' -> a = a' -> b = b' -> c = c' -> e = e' ->
  f = f' -> h = h' ->
  Build_RadicalDistribution g3 g dm a b c e f h
  = Build_RadicalDistribution g3' g' dm' a' b' c' e' f' h'.
Proof. intros; subst; reflexivity. Qed.

(** On a pressure of at least 1 the simulator returns exactly the record of
    closed forms, after 4000 draws. *)
Lemma simulateRadicalDistribution_run (params : ProcessParameters) (s : nat) :
  1 <= pressure params ->
  simulateRadicalDistribution params s
  = Ok (distributionOf params s, (s + 4000)%nat).
Proof.
  intro Hp. pose proof (pressureFactor_not_zero params Hp) as Hpf.
  unfold simulateRadicalDistribution.
  sim_step ltac:(apply divide_Ok; exact Hpf).
  sim_step ltac:(apply generateGrid3D_spec).
  sim_step ltac:(apply index_gridOf; reflexivity).
  do 5 sim_step ltac:(apply at3_gridOf; reflexivity).
  sim_step ltac:(apply divide_Ok; apply length_not_zero; discriminate).
  do 2 sim_step ltac:(apply index_gridOf; reflexivity).
  sim_step ltac:(apply divide_Ok; apply length_not_zero, allValues_nonempty).
  sim_step ltac:(apply divide_Ok; apply length_not_zero, allValues_nonempty).
  sim_step ltac:(apply divide_Ok, positive_not_zero, mean_positive;
                 [apply allValues_nonempty | apply allValues_floor
                 | apply length_positive, allValues_nonempty]).
  sim_step ltac:(unfold gridOf;
                 apply (mapM_tabulate _ _ (fun k => cellOf params s k 10 10));
                 intros k _; apply at2_layerOf; reflexivity).
  sim_step ltac:(unfold gridOf;
                 apply (mapM_tabulate _ _
                          (fun k => (cellOf params s k 0 10 + cellOf params s k 19 10
                                     + cellOf params s k 10 0
                                     + cellOf params s k 10 19) / 4));
                 intros k _; apply wallMean_layerOf).
  sim_step ltac:(apply divide_Ok, positive_not_zero, mean_positive;
                 [discriminate
                 | apply tabulate_floor; intro k; apply cellOf_floor
                 | reflexivity]).
  sim_step ltac:(apply divide_Ok, positive_not_zero, mean_positive;
                 [discriminate
                 | repeat constructor; apply cellOf_floor
                 | reflexivity]).
  sim_step ltac:(apply divide_Ok, positive_not_zero, mean_positive;
                 [apply layerOf_nonempty
                 | apply Forall_concat, layerOf_floor
                 | reflexivity]).
  sim_step ltac:(apply divide_Ok; exact Hpf).
  unfold ret. apply f_equal. apply (f_equal2 pair); [|reflexivity].
  apply RadicalDistribution_ext.
  - reflexivity.
  - reflexivity.
  - reflexivity.
  - reflexivity.
  - unfold gradientOf. f_equal.
  - reflexivity.
  - reflexivity.
  - unfold verticalUniformityOf. cbv zeta. do 2 f_equal.
  - unfold wallLossFactorOf. cbv zeta. do 2 f_equal.
Qed.


Lemma predictQualityMetrics_run (params : ProcessParameters)
    (distribution : RadicalDistribution) (s : nat) :
  predictQualityMetrics params distribution s
  = Ok (({| etchUniformity := toFixed 1 (computeUniformity params distribution);
            cdShift := computeCdShift distribution (random_draw s);
            defectRisk :=
              classifyRisk (computeRiskScore params distribution (random_draw (S s)));
            defectRiskScore :=
              toFixed 1 (computeRiskScore params distribution (random_draw (S s))) |},
         classifyStatus (computeUniformity params distribution)
           (computeCdShift distribution (random_draw s))
           (classifyRisk (computeRiskScore params distribution (random_draw (S s))))),
        S (S s)).
Proof.
  unfold predictQualityMetrics, bind, Math_random, ret. reflexivity.
Qed.

(** The stages of a prediction on valid parameters, with the distribution
    and the metrics in closed form *)
Lemma generatePrediction_stages (params : ProcessParameters) (s : nat) :
  valid_params params ->
  exists r m st series,
    generatePrediction params s
    = Ok (r, (S (S (s + 4000)) + Z.to_nat (numPoints params))%nat)
    /\ predictQualityMetrics params (distributionOf params s) (s + 4000)%nat
       = Ok ((m, st), S (S (s + 4000)))
    /\ generateStabilityTimeSeries params (distributionOf params s) m (S (S (s + 4000)))
       = Ok (series, (S (S (s + 4000)) + Z.to_nat (numPoints params))%nat)
    /\ r = {| id := randomUUID;
              timestamp := nowISOString;
              parameters := params;
              radicalDistribution := distributionOf params s;
              qualityMetrics := m;
              roiMetrics := Some (calculateRoiMetrics params m st);
              stabilityTimeSeries := Some series;
              status := st;
              recommendations :=
                if (0 <? List.length
                           (generateRecommendations params (distributionOf params s) m st))%nat
                then Some (generateRecommendations params (distributionOf params s) m st)
                else None |}.
Proof.
  intro Hv.
  pose proof (generatePrediction_spec params s Hv)
    as (r & d & m & st & series & E & Ed & Eq & Es & Er).
  destruct Hv as (_ & (Hp & _) & _).
  rewrite (simulateRadicalDistribution_run params s Hp) in Ed.
  injection Ed as <-.
  exists r, m, st, series. split; [exact E|]. split; [exact Eq|].
  split; [exact Es | exact Er].
Qed.

End SimulatorRun.

(** ** Shape of the grid and number of draws *)

Section ShapeFacts.

Context `{JsEnv}.

Lemma rowOf_length (params : ProcessParameters) (s k i : nat) :
  List.length (rowOf params s k i) = 20%nat.
Proof. unfold rowOf. rewrite length_map, length_seq. reflexivity. Qed.

Lemma layerOf_shape (params : ProcessParameters) (s k : nat) :
  List.length (layerOf params s k) = 20%nat
  /\ Forall (fun row => List.length row = 20%nat) (layerOf params s k).
Proof.
  split.
  - unfold layerOf. rewrite length_map, length_seq. reflexivity.
  - apply Forall_forall. intros row Hrow. unfold layerOf in Hrow.
    apply in_map_iff in Hrow. destruct Hrow as [i [<- _]]. apply rowOf_length.
Qed.

(** The simulator fills a grid of 10 layers of 20 rows of 20 cells with one
    call of [Math.random()] per cell, 4000 in all; the slice [grid] is a
    20 x 20 plane and [dimensions] reports 20, 20 and 10. *)
Theorem grid_shape (params : ProcessParameters) (s : nat) :
  valid_params params ->
  exists d s',
    simulateRadicalDistribution params s = Ok (d, s')
    /\ s' = (s + 4000)%nat
    /\ List.length (grid3D d) = 10%nat
    /\ Forall (fun layer =>
                 List.length layer = 20%nat
                 /\ Forall (fun row => List.length row = 20%nat) layer) (grid3D d)
    /\ List.length (grid d) = 20%nat
    /\ Forall (fun row => List.length row = 20%nat) (grid d)
    /\ dimensions d
       = {| Dimensions.x := 20; Dimensions.y := 20; Dimensions.z := 10 |}.
Proof.
  intros (_ & (Hp & _) & _).
  exists (distributionOf params s), (s + 4000)%nat.
  split; [apply simulateRadicalDistribution_run; exact Hp|].
  split; [reflexivity|]. cbn [distributionOf grid3D grid dimensions].
  split; [unfold gridOf; rewrite length_map, length_seq; reflexivity|].
  split.
  { apply Forall_forall. intros layer Hlayer. unfold gridOf in Hlayer.
    apply in_map_iff in Hlayer. destruct Hlayer as [k [<- _]].
    apply layerOf_shape. }
  split; [apply layerOf_shape|]. split; [apply layerOf_shape | reflexivity].
Qed.

(** A prediction on valid parameters calls [Math.random()] 4000 times for
    the grid, twice for the quality metrics and once per stability sample:
    between 4005 and 4062 times in all. *)
Theorem draw_budget (params : ProcessParameters) (s : nat) :
  valid_params params ->
  exists r s' series,
    generatePrediction params s = Ok (r, s')
    /\ stabilityTimeSeries r = Some series
    /\ s' = (s + 4000 + 2 + List.length series)%nat
    /\ (s + 4005 <= s' <= s + 4062)%nat.
Proof.
  intro Hv. pose proof Hv as (_ & _ & _ & _ & _ & _ & _ & (Ht & _) & _).
  pose proof (generatePrediction_stages params s Hv)
    as (r & m & st & series & E & _ & Es & ->).
  destruct (generateStabilityTimeSeries_spec params (distributionOf params s) m
              (cellOf params s 5 10 10) (S (S (s + 4000))) Ht)
    as (series' & Es' & Hlen & _).
  { apply at3_gridOf; reflexivity. }
  rewrite Es in Es'. injection Es' as <-.
  pose proof (numPoints_lower params Ht) as Hlo.
  pose proof (numPoints_upper params) as Hhi.
  eexists. eexists. exists series. split; [exact E|].
  split; [reflexivity|]. rewrite Hlen. split; lia.
Qed.

End ShapeFacts.

(** ** The defect risk *)

Section RiskFacts.

Context `{JsEnv}.

Lemma computeRiskScore_range (params : ProcessParameters)
    (distribution : RadicalDistribution) (rnd : Q) :
  0 <= computeRiskScore params distribution rnd
  /\ computeRiskScore params distribution rnd <= 100.
Proof.
  unfold computeRiskScore. cbv zeta. split.
  - apply Q.min_glb; [discriminate | apply Q.le_max_l].
  - apply Q.le_min_l.
Qed.

Lemma classifyRisk_cases (score : Q) :
  (classifyRisk score = risk_low /\ score < 25)
  \/ (classifyRisk score = risk_medium /\ 25 <= score /\ score < 55)
  \/ (classifyRisk score = risk_high /\ 55 <= score).
Proof.
  unfold classifyRisk.
  destruct (score <? 25) eqn:E25.
  - left. split; [reflexivity | apply Qltb_true; exact E25].
  - apply Qltb_false in E25. destruct (score <? 55) eqn:E55.
    + right. left. split; [reflexivity|]. split; [exact E25|].
      apply Qltb_true. exact E55.
    + right. right. split; [reflexivity | apply Qltb_false; exact E55].
Qed.

(** The reported defect risk score lies in [0, 100], and the reported
    category agrees with it up to the rounding of the score to one decimal:
    a low risk comes with a score of at most 25, a medium risk with a score
    between 25 and 55, a high risk with a score of at least 55. *)
Theorem defect_risk_consistent (params : ProcessParameters) (s : nat) :
  valid_params params ->
  exists r s',
    generatePrediction params s = Ok (r, s')
    /\ 0 <= defectRiskScore (qualityMetrics r)
    /\ defectRiskScore (qualityMetrics r) <= 100
    /\ match defectRisk (qualityMetrics r) with
       | risk_low => defectRiskScore (qualityMetrics r) <= 25
       | risk_medium =>
           25 <= defectRiskScore (qualityMetrics r)
           /\ defectRiskScore (qualityMetrics r) <= 55
       | risk_high => 55 <= defectRiskScore (qualityMetrics r)
       end.
Proof.
  intro Hv.
  pose proof (generatePrediction_stages params s Hv)
    as (r & m & st & series & E & Eq & _ & ->).
  rewrite predictQualityMetrics_run in Eq. injection Eq as <- _.
  eexists. eexists. split; [exact E|].
  cbn [qualityMetrics defectRiskScore defectRisk].
  set (score := computeRiskScore params (distributionOf params s)
                  (random_draw (S (s + 4000)))).
  destruct (computeRiskScore_range params (distributionOf params s)
              (random_draw (S (s + 4000)))) as [Hlo Hhi].
  fold score in Hlo, Hhi.
  split; [apply toFixed_lower; [reflexivity | exact Hlo]|].
  split; [apply toFixed_upper; [reflexivity | exact Hhi]|].
  destruct (classifyRisk_cases score) as [[-> Hs]|[[-> [Hs1 Hs2]]|[-> Hs]]].
  - apply toFixed_upper; [reflexivity | lra].
  - split; [apply toFixed_lower | apply toFixed_upper];
      try reflexivity; lra.
  - apply toFixed_lower; [reflexivity | exact Hs].
Qed.

End RiskFacts.

(** ** Monotonicity of the classifications *)

(** A higher score never gives a lower risk category. *)
Lemma classifyRisk_monotone (score score' : Q) :
  score <= score' ->
  (riskRank (classifyRisk score) <= riskRank (classifyRisk score'))%nat.
Proof.
  intro Hs.
  destruct (classifyRisk_cases score) as [[-> H1]|[[-> [H1 H2]]|[-> H1]]];
    destruct (classifyRisk_cases score') as [[-> H1']|[[-> [H1' H2']]|[-> H1']]];
    simpl; try lia; lra.
Qed.

Lemma classifyStatus_cases (u c : Q) (r : DefectRisk) :
  (classifyStatus u c r = safe
   <-> (94 <= u /\ Qabs c <= 2 /\ r = risk_low))
  /\ (classifyStatus u c r = warning
      <-> (~ (94 <= u /\ Qabs c <= 2 /\ r = risk_low)
           /\ 88 <= u /\ Qabs c <= 4 /\ r <> risk_high))
  /\ (classifyStatus u c r = danger
      <-> (~ (94 <= u /\ Qabs c <= 2 /\ r = risk_low)
           /\ ~ (88 <= u /\ Qabs c <= 4 /\ r <> risk_high))).
Proof.
  pose proof (Qgeb_true u 94) as H94. pose proof (Qgeb_true u 88) as H88.
  pose proof (Qleb_true (Qabs c) 2) as H2. pose proof (Qleb_true (Qabs c) 4) as H4.
  pose proof (DefectRisk_eqb_eq r risk_low) as Hlow.
  pose proof (DefectRisk_eqb_eq r risk_high) as Hhigh.
  unfold classifyStatus.
  destruct (u >=? 94), (Qabs c <=? 2), (DefectRisk_eqb r risk_low),
           (u >=? 88), (Qabs c <=? 4), (DefectRisk_eqb r risk_high);
    simpl; intuition (try discriminate; try congruence).
Qed.

Lemma classifyStatus_monotone (u u' c c' : Q) (r r' : DefectRisk) :
  u <= u' -> Qabs c' <= Qabs c -> (riskRank r' <= riskRank r)%nat ->
  (statusRank (classifyStatus u' c' r') <= statusRank (classifyStatus u c r))%nat.
Proof.
  intros Hu Hc Hr.
  destruct (classifyStatus_cases u c r) as (Hs & Hw & _).
  destruct (classifyStatus_cases u' c' r') as (Hs' & Hw' & Hd').
  destruct (classifyStatus u c r) eqn:E.
  - destruct (proj1 Hs eq_refl) as (H1 & H2 & ->).
    assert (Hr' : r' = risk_low) by (destruct r'; simpl in Hr; try lia; reflexivity).
    rewrite (proj2 Hs'); [simpl; lia|].
    split; [lra|]. split; [lra | exact Hr'].
  - destruct (proj1 Hw eq_refl) as (_ & H1 & H2 & H3).
    destruct (classifyStatus u' c' r') eqn:E'; simpl; try lia.
    exfalso. destruct (proj1 Hd' eq_refl) as [_ Hnw]. apply Hnw.
    split; [lra|]. split; [lra|].
    intros ->. destruct r; simpl in Hr; try lia. apply H3. reflexivity.
  - destruct (classifyStatus u' c' r'); simpl; lia.
Qed.

(** The status never gets worse when the uniformity rises, the magnitude of
    the CD shift falls and the risk score falls: the two threshold tests and
    the risk categories are ordered consistently. *)
Theorem status_monotone (u u' c c' score score' : Q) :
  u <= u' -> Qabs c' <= Qabs c -> score' <= score ->
  (statusRank (classifyStatus u' c' (classifyRisk score'))
   <= statusRank (classifyStatus u c (classifyRisk score)))%nat.
Proof.
  intros Hu Hc Hs. apply classifyStatus_monotone; try assumption.
  apply classifyRisk_monotone. exact Hs.
Qed.

(** ** Bounds of the stability samples *)

Section SampleFacts.

Context `{JsEnv}.

Lemma stabilitySample_fields (params : ProcessParameters)
    (baseDensity baseUniformity : Q) (i s : nat) :
  10 <= processTime params ->
  exists pt,
    stabilitySample params baseDensity baseUniformity i s = Ok (pt, (s + 1)%nat)
    /\ time pt
       = toFixed 1 (num i / (inject_Z (numPoints params) - 1) * processTime params)
    /\ (50 <= uniformity pt /\ uniformity pt <= 100)
    /\ (0 <= temperature pt /\ temperature pt <= 1).
Proof.
  intro Hp. unfold stabilitySample. cbv zeta.
  sim_step ltac:(apply divide_Ok, lastIndex_not_zero; exact Hp).
  sim_step ltac:(apply divide_Ok; intro E; rewrite E in Hp; lra).
  destruct (phase _ _) as [[densityMultiplier uniformityDelta] temp].
  eexists. split.
  - unfold bind, Math_random, ret. rewrite Nat.add_1_r. reflexivity.
  - cbn [time uniformity temperature]. split; [reflexivity|]. split; split.
    + apply toFixed_lower; [reflexivity | apply Q.le_max_l].
    + apply toFixed_upper; [reflexivity|].
      apply Q.max_lub; [discriminate | apply Q.le_min_l].
    + apply toFixed_lower; [reflexivity|].
      apply Q.min_glb; [discriminate | apply Q.le_max_l].
    + apply toFixed_upper; [reflexivity | apply Q.le_min_l].
Qed.

Lemma stamp_monotone (params : ProcessParameters) (i j : nat) :
  10 <= processTime params -> (i <= j)%nat ->
  toFixed 1 (num i / (inject_Z (numPoints params) - 1) * processTime params)
  <= toFixed 1 (num j / (inject_Z (numPoints params) - 1) * processTime params).
Proof.
  intros Hp Hij. apply toFixed_mono.
  pose proof (numPoints_lower params Hp) as Hn. rewrite Zle_Qle in Hn.
  change (inject_Z 3) with 3 in Hn.
  assert (Hnum : num i <= num j).
  { unfold num. rewrite <- Zle_Qle. lia. }
  apply Qmult_le_compat_r; [|lra].
  apply Qmult_le_compat_r; [exact Hnum|].
  apply Qlt_le_weak, Qinv_lt_0_compat. lra.
Qed.

(** Every stability sample of a prediction on valid parameters has its
    uniformity in [50, 100] and its temperature in [0, 1]; the time stamps
    start at 0, never decrease along the series, and none exceeds the
    rounded process time. *)
Theorem stability_samples_bounded (params : ProcessParameters) (s : nat) :
  valid_params params ->
  exists r s' series,
    generatePrediction params s = Ok (r, s')
    /\ stabilityTimeSeries r = Some series
    /\ Forall (fun pt =>
                 50 <= uniformity pt /\ uniformity pt <= 100
                 /\ 0 <= temperature pt /\ temperature pt <= 1
                 /\ 0 <= time pt /\ time pt <= toFixed 1 (processTime params))
              series
    /\ (forall (i j : nat) (a b : StabilityDataPoint),
           (i <= j)%nat -> nth_error series i = Some a -> nth_error series j = Some b ->
           time a <= time b).
Proof.
  intro Hv. pose proof Hv as (_ & _ & _ & _ & _ & _ & _ & (Ht & _) & _).
  pose proof (generatePrediction_stages params s Hv)
    as (r & m & st & series & E & _ & Es & ->).
  pose proof (numPoints_lower params Ht) as Hn3.
  pose proof (lastIndex_not_zero params Ht) as Hnz.
  assert (Hbase : at3 (grid3D (distributionOf params s)) 5 10 10 (S (S (s + 4000)))
                  = Ok (cellOf params s 5 10 10, S (S (s + 4000)))).
  { apply at3_gridOf; reflexivity. }
  unfold generateStabilityTimeSeries in Es. cbv zeta in Es.
  rewrite (bind_Ok _ _ _ _ _ Hbase) in Es.
  destruct (for_push_post
              (stabilitySample params (cellOf params s 5 10 10) (etchUniformity m))
              (fun i pt =>
                 time pt = toFixed 1 (num i / (inject_Z (numPoints params) - 1)
                                      * processTime params)
                 /\ (50 <= uniformity pt /\ uniformity pt <= 100)
                 /\ (0 <= temperature pt /\ temperature pt <= 1))
              1 (Z.to_nat (numPoints params)) (S (S (s + 4000))))
    as (series' & Es' & Hlen & Hnth).
  { intros i s0 _. apply stabilitySample_fields. exact Ht. }
  rewrite Es in Es'. injection Es' as <-.
  eexists. eexists. exists series. split; [exact E|].
  split; [reflexivity|]. split.
  - apply Forall_forall. intros pt Hin.
    apply In_nth_error in Hin. destruct Hin as [i Hi].
    destruct (Hnth i pt Hi) as (Htime & Hu & Htemp).
    assert (Hi' : (i < Z.to_nat (numPoints params))%nat).
    { rewrite <- Hlen. apply nth_error_Some. rewrite Hi. discriminate. }
    split; [apply Hu|]. split; [apply Hu|].
    split; [apply Htemp|]. split; [apply Htemp|].
    rewrite Htime. split.
    + apply toFixed_lower; [reflexivity|].
      assert (Hq : 3 <= inject_Z (numPoints params)).
      { change 3 with (inject_Z 3). rewrite <- Zle_Qle. exact Hn3. }
      apply Qmult_le_0_compat; [|lra].
      apply Qmult_le_0_compat; [apply num_nonneg|].
      apply Qlt_le_weak, Qinv_lt_0_compat. lra.
    + eapply Qle_trans;
        [apply (stamp_monotone params i (Z.to_nat (numPoints params) - 1) Ht); lia|].
      apply Qle_lteq. right.
      rewrite (toFixed_ext 1 _ (processTime params)); [reflexivity|].
      unfold num. rewrite Nat2Z.inj_sub by lia. rewrite Z2Nat.id by lia.
      unfold Z.sub. rewrite inject_Z_plus, inject_Z_opp.
      change (inject_Z (Z.of_nat 1)) with 1.
      field. intro Hz. apply Hnz. rewrite <- Hz. ring.
  - intros i j a b Hij Ha Hb.
    destruct (Hnth i a Ha) as (-> & _). destruct (Hnth j b Hb) as (-> & _).
    apply stamp_monotone; assumption.
Qed.

End SampleFacts.

(** ** Where recommendations come from *)

Lemma Forall_push {A} (P : A -> Prop) (l : list A) (a : A) :
  Forall P l -> P a -> Forall P (push l a).
Proof.
  intros Hl Ha. unfold push. apply Forall_app. split; [exact Hl|].
  constructor; [exact Ha | constructor].
Qed.

Lemma Forall_let {A} (P : A -> Prop) (e : list A) (b : list A -> list A) :
  Forall P e -> (forall l, Forall P l -> Forall P (b l)) ->
  Forall P (let r := e in b r).
Proof. intros He Hb. cbv zeta. apply Hb. exact He. Qed.

(** Walks through the pushes of [triggeredRecommendations], one binding of
    the list after the other. *)
Ltac walk_pushes :=
  lazymatch goal with
  | |- Forall _ [] => constructor
  | |- Forall ?P (let r := ?e in @?b r) =>
      let l := fresh "l" in
      let Hl := fresh "Hl" in
      refine (Forall_let P e b _ _);
      [walk_pushes | intros l Hl; cbv beta; walk_pushes]
  | |- Forall _ (push _ _) => apply Forall_push; [walk_pushes|]
  | |- Forall _ (if ?c then _ else _) =>
      let E := fresh "E" in destruct c eqn:E; walk_pushes
  | |- Forall _ _ => assumption
  end.

Ltac guard_fact :=
  match goal with
  | E : (?a >? ?b) = true |- ?b < ?a => apply Qgtb_true; exact E
  | E : (?a <? ?b) = true |- ?a < ?b => apply Qltb_true; exact E
  | E : DefectRisk_eqb ?a ?b = true |- ?a = ?b => apply DefectRisk_eqb_eq; exact E
  | E : negb ?x = true |- ?x = false => apply negb_true_iff; exact E
  | E : (?x && ?y)%bool = true |- _ =>
      apply andb_prop in E; destruct E; guard_fact
  end.

(** Every recommendation that the triggers push is made by one of nine
    rules, each under its trigger and its guard. *)
Lemma triggered_Forall (P : ParameterRecommendation -> Prop)
    (params : ProcessParameters) (distribution : RadicalDistribution)
    (metrics : QualityMetrics) :
  (1.5 < centerEdgeRatio distribution -> pressure params < 30 ->
   forall why, P {| parameter := "Pressure"; currentValue := pressure params;
                    recommendedValue := Qmin (pressure params + 10) 35;
                    reason := why; priority := high |}) ->
  (1.5 < centerEdgeRatio distribution -> 800 < rfPower params ->
   forall why, P {| parameter := "RF Power"; currentValue := rfPower params;
                    recommendedValue := Qmax (rfPower params - 200) 500;
                    reason := why; priority := high |}) ->
  (1.5 < centerEdgeRatio distribution -> pulseEnabled params = false ->
   forall why, P {| parameter := "Pulse Mode"; currentValue := 0;
                    recommendedValue := 1;
                    reason := why; priority := medium |}) ->
  (etchUniformity metrics < 88 -> gasFlowAr params < 80 ->
   forall why, P {| parameter := "Ar Flow"; currentValue := gasFlowAr params;
                    recommendedValue := Qmin (gasFlowAr params + 30) 120;
                    reason := why; priority := medium |}) ->
  (3 < Qabs (cdShift metrics) -> 0.35 < highEnergyFraction distribution ->
   forall why, P {| parameter := "RF Power"; currentValue := rfPower params;
                    recommendedValue := Qmax (rfPower params - 150) 400;
                    reason := why; priority := high |}) ->
  (3 < Qabs (cdShift metrics) -> gasFlowO2 params < 20 -> 0 < cdShift metrics ->
   forall why, P {| parameter := "O2 Flow"; currentValue := gasFlowO2 params;
                    recommendedValue := Qmin (gasFlowO2 params + 10) 30;
                    reason := why; priority := medium |}) ->
  (defectRisk metrics = risk_high -> pressure params < 15 ->
   forall why, P {| parameter := "Pressure"; currentValue := pressure params;
                    recommendedValue := Qmin (pressure params + 8) 25;
                    reason := why; priority := high |}) ->
  (defectRisk metrics = risk_high -> 80 < gasFlowCF4 params ->
   forall why, P {| parameter := "CF4 Flow"; currentValue := gasFlowCF4 params;
                    recommendedValue := Qmax (gasFlowCF4 params - 20) 50;
                    reason := why; priority := medium |}) ->
  (0.3 < Qabs (topBottomGradient distribution - 1) -> gasFlowAr params < 100 ->
   forall why, P {| parameter := "Ar Flow"; currentValue := gasFlowAr params;
                    recommendedValue := Qmin (gasFlowAr params + 25) 130;
                    reason := why; priority := low |}) ->
  Forall P (triggeredRecommendations params distribution metrics).
Proof.
  intros H1 H2 H3 H4 H5 H6 H7 H8 H9.
  cbv beta delta [triggeredRecommendations].
  walk_pushes;
    first [ apply H1; guard_fact | apply H2; guard_fact | apply H3; guard_fact
          | apply H4; guard_fact | apply H5; guard_fact | apply H6; guard_fact
          | apply H7; guard_fact | apply H8; guard_fact | apply H9; guard_fact ].
Qed.

Lemma generateRecommendations_incl (params : ProcessParameters)
    (distribution : RadicalDistribution) (metrics : QualityMetrics) (st : Status)
    (r : ParameterRecommendation) :
  In r (generateRecommendations params distribution metrics st) ->
  In r (triggeredRecommendations params distribution metrics).
Proof.
  unfold generateRecommendations. destruct (Status_eqb st safe); [contradiction|].
  cbv zeta. intro Hin.
  apply (Permutation_in r (Permutation_sym (sort_perm byPriority _))).
  rewrite <- (firstn_skipn 3). apply in_or_app. left. exact Hin.
Qed.

Lemma toFixed_above (digits : nat) (c x : Q) :
  toFixed digits c == c -> c < toFixed digits x -> c < x.
Proof.
  intros Hc Hx. apply Qnot_le_lt. intro Hle.
  apply (Qlt_not_le _ _ Hx). apply toFixed_upper; assumption.
Qed.

(** The high energy fraction reported for valid parameters exceeds 0.35
    only when the RF power exceeds 1000 W. *)
Lemma energetic_needs_power (params : ProcessParameters) :
  1 <= pressure params ->
  0.35 < toFixed 3 (0.15 + powerFactor params * 0.2 - pressureFactor params * 0.1) ->
  1000 < rfPower params.
Proof.
  intros Hp Hh. apply toFixed_above in Hh; [|reflexivity].
  unfold powerFactor, pressureFactor in Hh.
  assert (E : 0.15 + rfPower params / 1000 * 0.2 - pressure params / 50 * 0.1
              == 0.15 + rfPower params * (1 # 5000) - pressure params * (1 # 500))
    by field.
  rewrite E in Hh. lra.
Qed.

Section AdviceFacts.

Context `{JsEnv}.

(** Every recommendation of a prediction on valid parameters moves its
    parameter, and in the direction its rule intends: the RF power and the
    CF4 flow go down, the pressure and the Ar and O2 flows go up, the pulse
    mode goes from 0 to 1.  None proposes the current value. *)
Theorem recommendations_change_parameters (params : ProcessParameters) (s : nat) :
  valid_params params ->
  exists r s',
    generatePrediction params s = Ok (r, s')
    /\ Forall helpful (recommendationList r)
    /\ Forall (fun a => ~ recommendedValue a == currentValue a) (recommendationList r).
Proof.
  intro Hv. pose proof Hv as (_ & (Hp & _) & _).
  pose proof (generatePrediction_stages params s Hv)
    as (r & m & st & series & E & _ & _ & ->).
  eexists. eexists. split; [exact E|].
  unfold recommendationList. cbn [recommendations]. rewrite optional_list.
  assert (Hall : Forall helpful
                   (triggeredRecommendations params (distributionOf params s) m)).
  { apply triggered_Forall; intros; unfold helpful; cbn; try lra.
    - apply Q.min_glb_lt; lra.
    - apply Q.max_lub_lt; lra.
    - apply Q.min_glb_lt; lra.
    - match goal with Hh : 0.35 < _ |- _ =>
        pose proof (energetic_needs_power params Hp Hh) end.
      apply Q.max_lub_lt; lra.
    - apply Q.min_glb_lt; lra.
    - apply Q.min_glb_lt; lra.
    - apply Q.max_lub_lt; lra.
    - apply Q.min_glb_lt; lra. }
  assert (Hret : Forall helpful
                   (generateRecommendations params (distributionOf params s) m st)).
  { apply Forall_forall. intros a Ha. rewrite Forall_forall in Hall.
    apply Hall. eapply generateRecommendations_incl. exact Ha. }
  assert (Hne : Forall (fun a => ~ recommendedValue a == currentValue a)
                  (generateRecommendations params (distributionOf params s) m st)).
  { eapply Forall_impl; [|exact Hret]. intros a Ha E'. unfold helpful in Ha.
    destruct (lowering (parameter a)); rewrite E' in Ha;
      exact (Qlt_irrefl _ Ha). }
  destruct (generateRecommendations params (distributionOf params s) m st);
    [split; constructor | split; assumption].
Qed.

(** Every recommended value of a prediction on valid parameters is itself
    a value that [processParametersSchema] accepts for that parameter, so
    following a recommendation keeps the parameters valid. *)
Theorem recommendations_within_schema (params : ProcessParameters) (s : nat) :
  valid_params params ->
  exists r s',
    generatePrediction params s = Ok (r, s')
    /\ Forall inSchemaRange (recommendationList r).
Proof.
  intro Hv.
  pose proof Hv as ((Hrf1 & Hrf2) & (Hp1 & Hp2) & (Hc1 & Hc2) & (Ho1 & Ho2)
                    & (Ha1 & Ha2) & _).
  pose proof (generatePrediction_stages params s Hv)
    as (r & m & st & series & E & _ & _ & ->).
  eexists. eexists. split; [exact E|].
  unfold recommendationList. cbn [recommendations]. rewrite optional_list.
  assert (Hall : Forall inSchemaRange
                   (triggeredRecommendations params (distributionOf params s) m)).
  { apply triggered_Forall; intros; unfold inSchemaRange; cbn; split;
      try (apply Q.min_glb; lra);
      try (apply Q.max_lub; lra);
      try (eapply Qle_trans; [|apply Q.le_max_r]; lra);
      try (eapply Qle_trans; [apply Q.le_min_r|]; lra);
      try lra. }
  assert (Hret : Forall inSchemaRange
                   (generateRecommendations params (distributionOf params s) m st)).
  { apply Forall_forall. intros a Ha. rewrite Forall_forall in Hall.
    apply Hall. eapply generateRecommendations_incl. exact Ha. }
  destruct (generateRecommendations params (distributionOf params s) m st);
    [constructor | assumption].
Qed.

End AdviceFacts.

(** ** What the cut to three recommendations drops *)



(** ** More on the return on investment *)

(** The potential loss reduction is zero for a safe status; for a warning
    it is half of the shortfall against the optimal profit of 1050 USD,
    between 38 and 2375 USD, and for a danger the whole shortfall, between
    75 and 4750 USD. *)
Theorem loss_reduction_by_status (params : ProcessParameters)
    (metrics : QualityMetrics) (st : Status) :
  match st with
  | safe => potentialLossReduction (calculateRoiMetrics params metrics st) == 0
  | warning =>
      38 <= potentialLossReduction (calculateRoiMetrics params metrics st)
      /\ potentialLossReduction (calculateRoiMetrics params metrics st) <= 2375
  | danger =>
      75 <= potentialLossReduction (calculateRoiMetrics params metrics st)
      /\ potentialLossReduction (calculateRoiMetrics params metrics st) <= 4750
  end.
Proof.
  pose proof (calculateRoiMetrics_spec params metrics st) as Hroi.
  cbv zeta in Hroi. destruct Hroi as (_ & _ & _ & Hg & _).
  set (y := Qmax 30 (Qmin 99 (etchUniformity metrics * 0.8
                              - riskPenalty (defectRisk metrics)
                              - Qabs (cdShift metrics) * 2))) in *.
  assert (Ey : Qmax 30 (Qmin 99
                 (match defectRisk metrics with
                  | risk_low => etchUniformity metrics * 0.8
                  | risk_medium => etchUniformity metrics * 0.8 - 10
                  | risk_high => etchUniformity metrics * 0.8 - 25
                  end - Qabs (cdShift metrics) * 2)) == y).
  { unfold y. apply Q.max_compat; [reflexivity|].
    apply Q.min_compat; [reflexivity|].
    destruct (defectRisk metrics); simpl riskPenalty; ring. }
  assert (Eg : Qfloor (25 * Qmax 30 (Qmin 99
                 (match defectRisk metrics with
                  | risk_low => etchUniformity metrics * 0.8
                  | risk_medium => etchUniformity metrics * 0.8 - 10
                  | risk_high => etchUniformity metrics * 0.8 - 25
                  end - Qabs (cdShift metrics) * 2)) / 100)
               = Qfloor (25 * y / 100)).
  { apply Qfloor_comp. rewrite Ey. reflexivity. }
  assert (Hgq : 7 <= inject_Z (Qfloor (25 * y / 100))
                /\ inject_Z (Qfloor (25 * y / 100)) <= 24).
  { split; [change 7 with (inject_Z 7) | change 24 with (inject_Z 24)];
      rewrite <- Zle_Qle; lia. }
  assert (Eopt : inject_Z (Qfloor (25 * 98 / 100)) == 24) by reflexivity.
  destruct st; unfold calculateRoiMetrics; cbv zeta;
    cbn [potentialLossReduction]; try rewrite Eg.
  - reflexivity.
  - split.
    + apply Qle_trans with (toFixed 0 37.5); [discriminate|].
      apply toFixed_mono. rewrite Eopt. lra.
    + apply toFixed_upper; [reflexivity|]. rewrite Eopt. lra.
  - split; [apply toFixed_lower | apply toFixed_upper];
      try reflexivity; rewrite Eopt; lra.
Qed.

Section ProfitFacts.

Context `{JsEnv}.

(** On valid parameters the yield rate is at most 79.6 %, so at most 19 of
    the 25 wafers are good and the estimated batch profit is at most
    -400 USD: the calculator never reports a profit. *)
Theorem profit_never_positive (params : ProcessParameters) (s : nat) :
  valid_params params ->
  exists r s' roi,
    generatePrediction params s = Ok (r, s')
    /\ roiMetrics r = Some roi
    /\ yieldRate roi <= 79.6
    /\ estimatedBatchProfit roi <= - 400.
Proof.
  intro Hv.
  pose proof (generatePrediction_stages params s Hv)
    as (r & m & st & series & E & Eq & _ & ->).
  rewrite predictQualityMetrics_run in Eq. injection Eq as <- _.
  eexists. eexists. eexists. split; [exact E|].
  cbn [roiMetrics]. split; [reflexivity|].
  set (m := {| etchUniformity :=
                 toFixed 1 (computeUniformity params (distributionOf params s));
               cdShift := computeCdShift (distributionOf params s)
                            (random_draw (s + 4000));
               defectRisk := classifyRisk
                               (computeRiskScore params (distributionOf params s)
                                  (random_draw (S (s + 4000))));
               defectRiskScore := toFixed 1
                                    (computeRiskScore params (distributionOf params s)
                                       (random_draw (S (s + 4000)))) |}).
  pose proof (calculateRoiMetrics_spec params m st) as Hroi.
  cbv zeta in Hroi. destruct Hroi as (Hy & _ & _ & _ & Hp & _).
  assert (Hu : etchUniformity m <= 99.5).
  { unfold m. cbn [etchUniformity]. apply toFixed_upper; [reflexivity|].
    apply computeUniformity_range. }
  set (y := Qmax 30 (Qmin 99 (etchUniformity m * 0.8 - riskPenalty (defectRisk m)
                              - Qabs (cdShift m) * 2))) in *.
  assert (Hyb : y <= 79.6).
  { unfold y. apply Q.max_lub; [discriminate|].
    eapply Qle_trans; [apply Q.le_min_r|].
    pose proof (Qabs_nonneg (cdShift m)).
    assert (0 <= riskPenalty (defectRisk m))
      by (destruct (defectRisk m); discriminate).
    lra. }
  assert (Hg : (Qfloor (25 * y / 100) <= 19)%Z).
  { change 19%Z with (Qfloor 19.9). apply Qfloor_resp_le.
    apply Qle_shift_div_r; [reflexivity | lra]. }
  assert (Hgq : inject_Z (Qfloor (25 * y / 100)) <= 19).
  { change 19 with (inject_Z 19). rewrite <- Zle_Qle. exact Hg. }
  split.
  - rewrite Hy. apply toFixed_upper; [reflexivity | exact Hyb].
  - rewrite Hp. apply toFixed_upper; [reflexivity | lra].
Qed.

End ProfitFacts.

(** ** The normalised parameters *)

Lemma orDefault_range (v : option Q) (lo hi : Q) :
  lo <= 0 -> 0 <= hi -> within lo hi v ->
  lo <= orDefault v 0 /\ orDefault v 0 <= hi.
Proof.
  intros Hlo Hhi Hv. destruct v as [a|]; simpl in *.
  - destruct (Qeq_bool a 0); [split; assumption | exact Hv].
  - split; assumption.
Qed.

(** In exact arithmetic the normalised factors stay within the ranges that
    the bounds of the schema give them. *)
Lemma normalised_factor_bounds (params : ProcessParameters) :
  valid_params params ->
  (0.1 <= powerFactor params /\ powerFactor params <= 2)
  /\ (0.02 <= pressureFactor params /\ pressureFactor params <= 2)
  /\ (1 <= agingFactor params /\ agingFactor params <= 1.5)
  /\ (0.7 <= agingEdgePenalty params /\ agingEdgePenalty params <= 1)
  /\ (0.04 <= baseGeneration params /\ baseGeneration params <= 4)
  /\ (0.1 <= wallLossCoeff params /\ wallLossCoeff params <= 0.75)
  /\ (- 0.3 <= injectionDecayRate params /\ injectionDecayRate params <= 0.99)
  /\ (injectionDecayRate params < 0
      <-> 70 + gasFlowAr params * 0.15 < pressure params).
Proof.
  intros ((Hrf1 & Hrf2) & (Hp1 & Hp2) & (Hc1 & Hc2) & _ & (Ha1 & Ha2) & _ & _ & _ & Hh).
  destruct (orDefault_range (chamberRfHours params) 0 500) as [Hh1 Hh2];
    [discriminate | discriminate | exact Hh |].
  assert (Epow : powerFactor params == rfPower params * (1 # 1000))
    by (unfold powerFactor; field).
  assert (Epre : pressureFactor params == pressure params * (1 # 50))
    by (unfold pressureFactor; field).
  assert (Ecf4 : cf4Flow params == gasFlowCF4 params * (1 # 100))
    by (unfold cf4Flow; field).
  assert (Ear : arFlow params == gasFlowAr params * (1 # 100))
    by (unfold arFlow; field).
  assert (Eage : agingFactor params == 1 + rfHours params * (1 # 1000))
    by (unfold agingFactor; field).
  assert (Epen : agingEdgePenalty params == 1 - rfHours params * (3 # 5000))
    by (unfold agingEdgePenalty; field).
  fold (rfHours params) in Hh1, Hh2.
  assert (Hpow : 0.1 <= powerFactor params /\ powerFactor params <= 2)
    by (rewrite Epow; split; lra).
  assert (Hpre : 0.02 <= pressureFactor params /\ pressureFactor params <= 2)
    by (rewrite Epre; split; lra).
  assert (Hage : 1 <= agingFactor params /\ agingFactor params <= 1.5)
    by (rewrite Eage; split; lra).
  split; [exact Hpow|]. split; [exact Hpre|]. split; [exact Hage|].
  split; [rewrite Epen; split; lra|].
  split.
  { unfold baseGeneration.
    assert (H1 : 1 <= 1 + cf4Flow params * 0.5 /\ 1 + cf4Flow params * 0.5 <= 2)
      by (rewrite Ecf4; split; lra).
    assert (H2 : 0.4 <= 1 - pressureFactor params * 0.3
                 /\ 1 - pressureFactor params * 0.3 <= 1)
      by (rewrite Epre; split; lra).
    destruct Hpow as [Hpow1 Hpow2]. destruct H1 as [H1a H1b].
    destruct H2 as [H2a H2b].
    set (a := powerFactor params) in *. set (b := 1 + cf4Flow params * 0.5) in *.
    set (c := 1 - pressureFactor params * 0.3) in *.
    assert (Hab : 0.1 <= a * b /\ a * b <= 4) by (split; nra).
    destruct Hab as [Hab1 Hab2]. set (ab := a * b) in *. split; nra. }
  split.
  { unfold wallLossCoeff.
    assert (H1 : 0.1 <= 0.3 + (1 - pressureFactor params) * 0.2
                 /\ 0.3 + (1 - pressureFactor params) * 0.2 <= 0.5)
      by (rewrite Epre; split; lra).
    destruct H1 as [H1a H1b]. destruct Hage as [Hage1 Hage2].
    set (a := 0.3 + (1 - pressureFactor params) * 0.2) in *.
    set (b := agingFactor params) in *. split; nra. }
  assert (Erate : injectionDecayRate params
                  == (7 # 10) - pressure params * (1 # 100)
                     + gasFlowAr params * (3 # 2000)).
  { unfold injectionDecayRate. rewrite Epre, Ear. ring. }
  split; [rewrite Erate; split; lra|].
  rewrite Erate. split; intro; lra.
Qed.


(** For valid parameters the factors of the simulator stay in the ranges
    that the bounds of the schema give them, up to the rounding of the
    arithmetic.  The injection decay rate is
    [(70 + 0.15 * gasFlowAr - pressure) / 100]: negative once the pressure
    is above [70 + 0.15 * gasFlowAr], positive below. *)
Theorem normalised_factor_ranges (params : ProcessParameters) :
  valid_params params ->
  inRange 0.1 2 (powerFactor params)
  /\ inRange 0.02 2 (pressureFactor params)
  /\ inRange 1 1.5 (agingFactor params)
  /\ inRange 0.7 1 (agingEdgePenalty params)
  /\ inRange 0.04 4 (baseGeneration params)
  /\ inRange 0.1 0.75 (wallLossCoeff params)
  /\ inRange (- 0.3) 0.99 (injectionDecayRate params)
  /\ Qabs (injectionDecayRate params
           - (70 + gasFlowAr params * 0.15 - pressure params) / 100)
     <= rounding_margin
  /\ (70.001 + gasFlowAr params * 0.15 <= pressure params ->
      injectionDecayRate params < 0)
  /\ (pressure params <= 69.999 + gasFlowAr params * 0.15 ->
      0 < injectionDecayRate params).
Proof.
  intro Hv.
  pose proof (normalised_factor_bounds params Hv)
    as (H1 & H2 & H3 & H4 & H5 & H6 & H7 & _).
  assert (Hm : 0 <= rounding_margin) by discriminate.
  assert (Erate : injectionDecayRate params
                  == (70 + gasFlowAr params * 0.15 - pressure params) / 100).
  { unfold injectionDecayRate, pressureFactor, arFlow. field. }
  unfold inRange.
  split; [split; lra|]. split; [split; lra|]. split; [split; lra|].
  split; [split; lra|]. split; [split; lra|]. split; [split; lra|].
  split; [split; lra|].
  split.
  { rewrite Erate.
    assert (E0 : forall x : Q, x - x == 0) by (intro x; ring).
    rewrite E0. exact Hm. }
  assert (Erate' : injectionDecayRate params
                   == (70 + gasFlowAr params * 0.15 - pressure params) * (1 # 100)).
  { rewrite Erate. field. }
  split; intro Hb; rewrite Erate'; lra.
Qed.

(** ** The legacy two-dimensional engine *)

Section LegacyFacts.

Context `{JsEnv}.

Lemma legacy_grid_spec (params : ProcessParameters) (s : nat) :
  Legacy.generateGrid params s = Ok (Legacy.gridOf params s, (s + 400)%nat).
Proof.
  unfold Legacy.generateGrid.
  rewrite (for_push_spec _
             (fun i s' => map (fun j =>
                 Legacy.noisyCell (Legacy.cellDensity params i j)
                                  (random_draw (s' + j * 1)))
               (seq 0 Legacy.gridSize)) 20 Legacy.gridSize s).
  - apply f_equal. apply (f_equal2 pair); [|reflexivity].
    unfold Legacy.gridOf. apply map_ext. intro i.
    unfold Legacy.rowOf. apply map_ext. intro j.
    unfold Legacy.cellOf. rewrite Nat.mul_1_r. reflexivity.
  - intros i s1 _.
    rewrite (for_push_spec _
               (fun j s' => Legacy.noisyCell (Legacy.cellDensity params i j)
                                             (random_draw s'))
               1 Legacy.gridSize s1).
    + reflexivity.
    + intros j s2 _. unfold bind, Math_random, ret.
      rewrite Nat.add_1_r. reflexivity.
Qed.

Lemma legacy_cell_floor (params : ProcessParameters) (s i j : nat) :
  0.1 <= Legacy.cellOf params s i j.
Proof.
  unfold Legacy.cellOf, Legacy.noisyCell.
  apply toFixed_lower; [reflexivity | apply Q.le_max_l].
Qed.

Lemma legacy_row_floor (params : ProcessParameters) (s i : nat) :
  Forall (fun v => 0.1 <= v) (Legacy.rowOf params s i).
Proof.
  apply Forall_forall. intros v Hv. unfold Legacy.rowOf in Hv.
  apply in_map_iff in Hv. destruct Hv as [j [<- _]]. apply legacy_cell_floor.
Qed.

Lemma legacy_optAt (params : ProcessParameters) (s i j : nat) :
  (i <? Legacy.gridSize)%nat = true -> (j <? Legacy.gridSize)%nat = true ->
  Legacy.optAt (Legacy.gridOf params s) i j = Some (Legacy.cellOf params s i j).
Proof.
  intros Hi Hj. unfold Legacy.optAt, Legacy.gridOf.
  rewrite (nth_error_tabulate _ _ _ Hi). unfold Legacy.rowOf.
  apply nth_error_tabulate. exact Hj.
Qed.

Lemma legacy_rowOr (params : ProcessParameters) (s i : nat) :
  (i <? Legacy.gridSize)%nat = true ->
  Legacy.rowOr (Legacy.gridOf params s) i = Legacy.rowOf params s i.
Proof.
  intro Hi. unfold Legacy.rowOr, Legacy.gridOf.
  rewrite (nth_error_tabulate _ _ _ Hi). reflexivity.
Qed.

Lemma floor_weaken (l : list Q) :
  Forall (fun v => 0.1 <= v) l -> Forall (fun v => 0.05 <= v) l.
Proof.
  apply Forall_impl. intros v Hv. apply Qle_trans with 0.1; [discriminate | exact Hv].
Qed.

Lemma orDefault_floor (c : Q) : 0.1 <= c -> orDefault (Some c) 1 = c.
Proof.
  intro Hc. simpl. destruct (Qeq_bool c 0) eqn:E; [|reflexivity].
  apply Qeq_bool_eq in E. rewrite E in Hc. exfalso.
  revert Hc. apply Qlt_not_le. reflexivity.
Qed.

(** The legacy simulator returns on a pressure of at least 1, after 400
    draws, with the grid in closed form. *)
Lemma legacy_simulate_spec (params : ProcessParameters) (s : nat) :
  1 <= pressure params ->
  exists d,
    Legacy.simulateRadicalDistribution params s = Ok (d, (s + 400)%nat)
    /\ Legacy.grid d = Legacy.gridOf params s.
Proof.
  intro Hp. pose proof (pressureFactor_not_zero params Hp) as Hpf.
  eexists. split.
  - unfold Legacy.simulateRadicalDistribution.
    sim_step ltac:(apply legacy_grid_spec).
    rewrite !legacy_optAt by reflexivity.
    rewrite !legacy_rowOr by reflexivity.
    rewrite orDefault_floor by apply legacy_cell_floor.
    cbn [Legacy.defined flat_map app].
    sim_step ltac:(apply divide_Ok; apply length_not_zero; discriminate).
    sim_step ltac:(apply divide_Ok; apply length_not_zero; discriminate).
    sim_step ltac:(apply divide_Ok; apply length_not_zero; discriminate).
    sim_step ltac:(apply divide_Ok, positive_not_zero, mean_positive;
                   [discriminate
                   | repeat constructor;
                     (apply Qle_trans with 0.1;
                      [discriminate | apply legacy_cell_floor])
                   | reflexivity]).
    sim_step ltac:(apply divide_Ok, positive_not_zero, mean_positive;
                   [discriminate
                   | apply floor_weaken, legacy_row_floor
                   | apply length_positive; discriminate]).
    sim_step ltac:(apply divide_Ok; exact Hpf).
    reflexivity.
  - reflexivity.
Qed.

Lemma legacy_uniformity_range (params : ProcessParameters)
    (distribution : Legacy.RadicalDistribution) :
  75 <= Legacy.computeUniformity params distribution
  /\ Legacy.computeUniformity params distribution <= 99.5.
Proof.
  unfold Legacy.computeUniformity. cbv zeta. split.
  - apply Q.le_max_l.
  - apply Q.max_lub; [discriminate | apply Q.le_min_l].
Qed.

(** On valid parameters the legacy engine returns a result after 402
    draws; its grid has 20 rows of 20 cells, none below 0.1, and the etch
    uniformity it reports lies in [75, 99.5]. *)
Theorem legacy_prediction_bounds (params : ProcessParameters) (s : nat) :
  valid_params params ->
  exists r s',
    Legacy.generatePrediction params s = Ok (r, s')
    /\ s' = (s + 402)%nat
    /\ List.length (Legacy.grid (Legacy.radicalDistribution r)) = 20%nat
    /\ Forall (fun row => List.length row = 20%nat
                          /\ Forall (fun v => 0.1 <= v) row)
              (Legacy.grid (Legacy.radicalDistribution r))
    /\ 75 <= etchUniformity (Legacy.qualityMetrics r)
    /\ etchUniformity (Legacy.qualityMetrics r) <= 99.5.
Proof.
  intros (_ & (Hp & _) & _).
  destruct (legacy_simulate_spec params s Hp) as (d & Ed & Hgrid).
  eexists. eexists. split.
  - unfold Legacy.generatePrediction.
    rewrite (bind_Ok _ _ _ _ _ Ed).
    unfold Legacy.predictQualityMetrics, bind, Math_random, ret.
    cbv beta iota zeta. reflexivity.
  - cbn [Legacy.radicalDistribution Legacy.qualityMetrics etchUniformity].
    split; [lia|]. rewrite Hgrid.
    split; [unfold Legacy.gridOf; rewrite length_map, length_seq; reflexivity|].
    split.
    { apply Forall_forall. intros row Hrow. unfold Legacy.gridOf in Hrow.
      apply in_map_iff in Hrow. destruct Hrow as [i [<- _]].
      split; [|apply legacy_row_floor].
      unfold Legacy.rowOf. rewrite length_map, length_seq. reflexivity. }
    destruct (legacy_uniformity_range params d) as [Hlo Hhi].
    split; [apply toFixed_lower | apply toFixed_upper];
      try reflexivity; assumption.
Qed.

(** On one and the same centre/edge ratio of at most 1.5 and one and the
    same gradient, the 3D predictor never computes a higher uniformity than
    the legacy one, and the two agree when the ratio is at least 0.7 and
    the 3D uniformity is at least 75, the legacy floor. *)
Theorem legacy_uniformity_dominates (params : ProcessParameters)
    (d3 : RadicalDistribution) (d2 : Legacy.RadicalDistribution) :
  centerEdgeRatio d3 = Legacy.centerEdgeRatio d2 ->
  topBottomGradient d3 = Legacy.topBottomGradient d2 ->
  centerEdgeRatio d3 <= 1.5 ->
  computeUniformity params d3 <= Legacy.computeUniformity params d2
  /\ (0.7 <= centerEdgeRatio d3 -> 75 <= computeUniformity params d3 ->
      computeUniformity params d3 == Legacy.computeUniformity params d2).
Proof.
  intros Ec Eg Hc.
  unfold computeUniformity, Legacy.computeUniformity. cbv zeta.
  rewrite <- Ec, <- Eg.
  assert (E1 : (centerEdgeRatio d3 >? 1.5) = false) by (apply Qgtb_false; exact Hc).
  rewrite E1.
  set (u := 100 - Qabs (centerEdgeRatio d3 - 1) * 15
            - Qabs (topBottomGradient d3 - 1) * 10).
  set (bonus := fun v : Q =>
         if pressure params >? 60
         then (if pulseEnabled params then v + 2 else v) - (pressure params - 60) * 0.1
         else (if pulseEnabled params then v + 2 else v)).
  assert (Hmono : forall a b : Q, a <= b -> bonus a <= bonus b).
  { intros a b Hab. unfold bonus.
    destruct (pressure params >? 60), (pulseEnabled params); lra. }
  change (Qmax 50 (Qmin 99.5
            (bonus (if centerEdgeRatio d3 <? 0.7
                    then u - (0.7 - centerEdgeRatio d3) * 30 else u)))
          <= Qmax 75 (Qmin 99.5 (bonus u))
          /\ (0.7 <= centerEdgeRatio d3 ->
              75 <= Qmax 50 (Qmin 99.5
                      (bonus (if centerEdgeRatio d3 <? 0.7
                              then u - (0.7 - centerEdgeRatio d3) * 30 else u))) ->
              Qmax 50 (Qmin 99.5
                 (bonus (if centerEdgeRatio d3 <? 0.7
                         then u - (0.7 - centerEdgeRatio d3) * 30 else u)))
              == Qmax 75 (Qmin 99.5 (bonus u)))).
  split.
  - apply Q.max_le_compat; [discriminate|].
    apply Q.min_le_compat_l. apply Hmono.
    destruct (centerEdgeRatio d3 <? 0.7) eqn:E7; [|apply Qle_refl].
    apply Qltb_true in E7. lra.
  - intros H7 H75.
    assert (E7 : (centerEdgeRatio d3 <? 0.7) = false) by (apply Qltb_false; exact H7).
    rewrite E7 in *.
    set (v := Qmin 99.5 (bonus u)) in *.
    destruct (Q.max_spec 50 v) as [[Hlt Hm]|[Hle Hm]]; rewrite Hm in *.
    + rewrite Q.max_r; [reflexivity | exact H75].
    + exfalso. revert H75. apply Qlt_not_le. reflexivity.
Qed.

End LegacyFacts.

(** ** The map *)

Lemma JsMap_get_set_same {V} (k : string) (v : V) (m : JsMap.t V) :
  JsMap.get k (JsMap.set k v m) = Some v.
Proof.
  induction m as [|[k' v'] m IH]; simpl.
  - rewrite String.eqb_refl. reflexivity.
  - destruct (String.eqb k k') eqn:E; simpl.
    + rewrite String.eqb_refl. reflexivity.
    + rewrite E. exact IH.
Qed.

Lemma JsMap_get_set_other {V} (k k0 : string) (v : V) (m : JsMap.t V) :
  k0 <> k -> JsMap.get k0 (JsMap.set k v m) = JsMap.get k0 m.
Proof.
  intro Hne. induction m as [|[k' v'] m IH]; simpl.
  - destruct (String.eqb k0 k) eqn:E; [|reflexivity].
    apply String.eqb_eq in E. contradiction.
  - destruct (String.eqb k k') eqn:E; simpl.
    + apply String.eqb_eq in E. subst k'.
      destruct (String.eqb k0 k) eqn:E0; [|reflexivity].
      apply String.eqb_eq in E0. contradiction.
    + destruct (String.eqb k0 k'); [reflexivity | exact IH].
Qed.

Lemma JsMap_keys_set {V} (k : string) (v : V) (m : JsMap.t V) :
  JsMap.keys (JsMap.set k v m)
  = if existsb (String.eqb k) (JsMap.keys m) then JsMap.keys m
    else JsMap.keys m ++ [k].
Proof.
  unfold JsMap.keys.
  induction m as [|[k' v'] m IH]; simpl; [reflexivity|].
  destruct (String.eqb k k') eqn:E; simpl.
  - apply String.eqb_eq in E. subst k'. reflexivity.
  - rewrite IH.
    destruct (existsb (String.eqb k) (map fst m)); reflexivity.
Qed.

Lemma existsb_eqb_In (k : string) (l : list string) :
  existsb (String.eqb k) l = true <-> In k l.
Proof.
  rewrite existsb_exists. split.
  - intros [x [Hx E]]. apply String.eqb_eq in E. subst x. exact Hx.
  - intro Hk. exists k. split; [exact Hk | apply String.eqb_refl].
Qed.

Lemma JsMap_set_NoDup {V} (k : string) (v : V) (m : JsMap.t V) :
  NoDup (JsMap.keys m) -> NoDup (JsMap.keys (JsMap.set k v m)).
Proof.
  intro Hnd. rewrite JsMap_keys_set.
  destruct (existsb (String.eqb k) (JsMap.keys m)) eqn:E; [exact Hnd|].
  apply NoDup_app; [exact Hnd | constructor; [intros []|constructor] |].
  intros x Hx [<-|[]].
  apply existsb_eqb_In in Hx. congruence.
Qed.

Lemma JsMap_set_entries {V} (P : string * V -> Prop) (k : string) (v : V)
    (m : JsMap.t V) :
  P (k, v) -> Forall P m -> Forall P (JsMap.set k v m).
Proof.
  intros Hkv Hm. induction Hm as [|[k' v'] m Hx Hm IH]; simpl.
  - constructor; [exact Hkv | constructor].
  - destruct (String.eqb k k'); constructor; assumption.
Qed.

Lemma JsMap_get_In {V} (k : string) (v : V) (m : JsMap.t V) :
  JsMap.get k m = Some v -> In (k, v) m.
Proof.
  induction m as [|[k' v'] m IH]; simpl; [discriminate|].
  destruct (String.eqb k k') eqn:E.
  - apply String.eqb_eq in E. subst k'. intros [= ->]. left. reflexivity.
  - intro Hg. right. apply IH. exact Hg.
Qed.

Lemma JsMap_In_get {V} (k : string) (v : V) (m : JsMap.t V) :
  NoDup (JsMap.keys m) -> In (k, v) m -> JsMap.get k m = Some v.
Proof.
  induction m as [|[k' v'] m IH]; simpl; intros Hnd Hin; [contradiction|].
  inversion Hnd as [|? ? Hnotin Hnd']; subst.
  destruct Hin as [[= -> ->]|Hin].
  - rewrite String.eqb_refl. reflexivity.
  - destruct (String.eqb k k') eqn:E.
    + apply String.eqb_eq in E. subst k'. exfalso. apply Hnotin.
      unfold JsMap.keys. apply in_map_iff. exists (k, v). split; [reflexivity | exact Hin].
    + apply IH; assumption.
Qed.

(** ** Sorting by a key *)

Section SortByKey.

Context {A : Type} (key : A -> Q) (cmp : A -> A -> Q).
Hypothesis cmp_key : forall a b, cmp a b == key a - key b.

Lemma insert_by_sorted_key (a : A) (l : list A) :
  StronglySorted (fun x y => key x <= key y) l ->
  StronglySorted (fun x y => key x <= key y) (ArraySort.insert_by cmp a l).
Proof.
  induction 1 as [|b l Hl IH Hb]; simpl.
  - constructor; constructor.
  - destruct (cmp a b <=? 0) eqn:E.
    + apply Qleb_true in E. rewrite cmp_key in E. constructor.
      * constructor; assumption.
      * constructor; [lra|].
        eapply Forall_impl; [|exact Hb]. cbv beta. intros c Hc. lra.
    + apply Qleb_false in E. rewrite cmp_key in E. constructor; [exact IH|].
      eapply Permutation_Forall; [apply insert_by_perm|].
      constructor; [lra | exact Hb].
Qed.

Lemma sort_sorted_key (l : list A) :
  StronglySorted (fun x y => key x <= key y) (ArraySort.sort cmp l).
Proof.
  induction l as [|a l IH]; simpl.
  - constructor.
  - apply insert_by_sorted_key. exact IH.
Qed.

End SortByKey.

Lemma StronglySorted_weaken {A} (R R' : A -> A -> Prop) (l : list A) :
  (forall a b, R a b -> R' a b) -> StronglySorted R l -> StronglySorted R' l.
Proof.
  intros Himp. induction 1 as [|a l Hl IH Ha]; constructor.
  - exact IH.
  - eapply Forall_impl; [|exact Ha]. intros b. apply Himp.
Qed.

(** ** The storage *)

Lemma savePrediction_lookup_facts (prediction : PredictionResult) (st : MemStorage.t) :
  MemStorage.wellKeyed st ->
  let st' := snd (MemStorage.savePrediction prediction st) in
  MemStorage.wellKeyed st'
  /\ MemStorage.getPrediction (id prediction) st' = Some prediction
  /\ (forall key, key <> id prediction ->
        MemStorage.getPrediction key st' = MemStorage.getPrediction key st)
  /\ (forall key found,
        MemStorage.getPrediction key st' = Some found -> id found = key)
  /\ MemStorage.users st' = MemStorage.users st.
Proof.
  intros [Hnd Hkeys] st'. unfold st', MemStorage.savePrediction.
  cbn [snd]. unfold MemStorage.getPrediction, MemStorage.wellKeyed.
  cbn [MemStorage.predictions MemStorage.users].
  assert (Hkeys' : Forall (fun entry => fst entry = id (snd entry))
                     (JsMap.set (id prediction) prediction
                                (MemStorage.predictions st))).
  { apply JsMap_set_entries; [reflexivity | exact Hkeys]. }
  split; [split; [apply JsMap_set_NoDup; exact Hnd | exact Hkeys']|].
  split; [apply JsMap_get_set_same|].
  split; [intros key Hne; apply JsMap_get_set_other; exact Hne|].
  split; [|reflexivity].
  intros key found Hget. apply JsMap_get_In in Hget.
  rewrite Forall_forall in Hkeys'. symmetry. apply (Hkeys' _ Hget).
Qed.

(** Saving keeps every prediction filed once under its own identifier;
    the saved prediction is then found under its identifier, the other
    identifiers give what they gave before, and the users are untouched. *)
Theorem savePrediction_lookup (prediction : PredictionResult) (st : MemStorage.t) :
  MemStorage.wellKeyed st ->
  let st' := snd (MemStorage.savePrediction prediction st) in
  MemStorage.wellKeyed st'
  /\ MemStorage.getPrediction (id prediction) st' = Some prediction
  /\ (forall key, key <> id prediction ->
        MemStorage.getPrediction key st' = MemStorage.getPrediction key st)
  /\ (forall key found,
        MemStorage.getPrediction key st' = Some found -> id found = key)
  /\ MemStorage.users st' = MemStorage.users st.
Proof. apply savePrediction_lookup_facts. Qed.

(** [getAllPredictions] lists each stored prediction once, the newest
    first, and every listed prediction is found under its identifier. *)
Theorem getAllPredictions_sorted (getTime : string -> Q) (st : MemStorage.t) :
  MemStorage.wellKeyed st ->
  Permutation (JsMap.values (MemStorage.predictions st))
              (MemStorage.getAllPredictions getTime st)
  /\ StronglySorted (fun a b => getTime (timestamp b) <= getTime (timestamp a))
                    (MemStorage.getAllPredictions getTime st)
  /\ (forall p, In p (MemStorage.getAllPredictions getTime st) ->
        MemStorage.getPrediction (id p) st = Some p)
  /\ List.length (MemStorage.getAllPredictions getTime st)
     = List.length (MemStorage.predictions st).
Proof.
  intros [Hnd Hkeys]. unfold MemStorage.getAllPredictions.
  set (cmp := fun a b : PredictionResult =>
                getTime (timestamp b) - getTime (timestamp a)).
  pose proof (sort_perm cmp (JsMap.values (MemStorage.predictions st))) as Hperm.
  split; [exact Hperm|]. split; [|split].
  - pose proof (sort_sorted_key (fun p => - getTime (timestamp p)) cmp) as Hs.
    eapply StronglySorted_weaken; [|apply Hs].
    + intros a b Hab. cbv beta in Hab. lra.
    + intros a b. unfold cmp. ring.
  - intros p Hp. apply (Permutation_in _ (Permutation_sym Hperm)) in Hp.
    unfold JsMap.values in Hp. apply in_map_iff in Hp.
    destruct Hp as [[k v] [Ev Hin]]. simpl in Ev. subst v.
    rewrite Forall_forall in Hkeys. pose proof (Hkeys _ Hin) as Ek. simpl in Ek.
    subst k. unfold MemStorage.getPrediction. apply JsMap_In_get; assumption.
  - rewrite <- (Permutation_length Hperm). unfold JsMap.values.
    apply length_map.
Qed.

(** ** Users *)

Lemma find_app_some {A} (f : A -> bool) (l l' : list A) (a : A) :
  find f l = Some a -> find f (l ++ l') = Some a.
Proof.
  induction l as [|b l IH]; simpl; [discriminate|].
  destruct (f b); [trivial | exact IH].
Qed.

Lemma find_app_none {A} (f : A -> bool) (l l' : list A) :
  find f l = None -> find f (l ++ l') = find f l'.
Proof.
  induction l as [|b l IH]; simpl; [reflexivity|].
  destruct (f b); [discriminate | exact IH].
Qed.

Lemma JsMap_set_fresh {V} (k : string) (v : V) (m : JsMap.t V) :
  ~ In k (JsMap.keys m) -> JsMap.set k v m = m ++ [(k, v)].
Proof.
  unfold JsMap.keys. induction m as [|[k' v'] m IH]; simpl; intro Hk.
  - reflexivity.
  - destruct (String.eqb k k') eqn:E.
    + apply String.eqb_eq in E. subst k'. exfalso. apply Hk. left. reflexivity.
    + f_equal. apply IH. intro Hin. apply Hk. right. exact Hin.
Qed.

(** A created user is found under the identifier it was given.  Under a
    fresh identifier the user is filed last: a search by name still finds
    an older user of that name, and finds the new one only when the name
    was not taken. *)
Theorem createUser_lookup (insertUser : InsertUser.t) (uuid : string)
    (st : MemStorage.t) :
  ~ In uuid (JsMap.keys (MemStorage.users st)) ->
  let user := fst (MemStorage.createUser insertUser uuid st) in
  let st' := snd (MemStorage.createUser insertUser uuid st) in
  User.id user = uuid
  /\ User.username user = InsertUser.username insertUser
  /\ MemStorage.getUser uuid st' = Some user
  /\ (forall key, key <> uuid -> MemStorage.getUser key st' = MemStorage.getUser key st)
  /\ (forall name older, MemStorage.getUserByUsername name st = Some older ->
        MemStorage.getUserByUsername name st' = Some older)
  /\ (MemStorage.getUserByUsername (InsertUser.username insertUser) st = None ->
        MemStorage.getUserByUsername (InsertUser.username insertUser) st' = Some user)
  /\ MemStorage.predictions st' = MemStorage.predictions st.
Proof.
  intros Hfresh user st'. unfold user, st', MemStorage.createUser.
  cbn [fst snd]. unfold MemStorage.getUser, MemStorage.getUserByUsername.
  cbn [MemStorage.users MemStorage.predictions User.id User.username].
  split; [reflexivity|]. split; [reflexivity|].
  split; [apply JsMap_get_set_same|].
  split; [intros key Hne; apply JsMap_get_set_other; exact Hne|].
  rewrite (JsMap_set_fresh _ _ _ Hfresh). unfold JsMap.values.
  rewrite map_app. cbn [map snd].
  split; [|split; [|reflexivity]].
  - intros name older Hold. apply find_app_some. exact Hold.
  - intro Hnone. rewrite (find_app_none _ _ _ Hnone). cbn [find User.username].
    rewrite String.eqb_refl. reflexivity.
Qed.

(** ** Validation *)

Lemma Zod_number_sound (lo hi : Q) (name : string) fields (n : Q) :
  Zod.number lo hi name fields = Some n -> lo <= n /\ n <= hi.
Proof.
  unfold Zod.number. destruct (Zod.property name fields) as [[]|]; try discriminate.
  destruct (lo <=? n0) eqn:E1; [|discriminate].
  destruct (n0 <=? hi) eqn:E2; [|discriminate].
  intros [= <-]. split; apply Qleb_true; assumption.
Qed.

Lemma Zod_optionalNumber_sound (lo hi : Q) (name : string) fields (v : option Q) :
  Zod.optionalNumber lo hi name fields = Some v -> within lo hi v.
Proof.
  unfold Zod.optionalNumber.
  destruct (Zod.property name fields) as [[]|]; try discriminate.
  - destruct (lo <=? n) eqn:E1; [|discriminate].
    destruct (n <=? hi) eqn:E2; [|discriminate].
    intros [= <-]. split; apply Qleb_true; assumption.
  - intros [= <-]. exact I.
Qed.

Lemma Zod_parse_sound (body : Json) (params : ProcessParameters) :
  Zod.parse body = Some params -> valid_params params.
Proof.
  unfold Zod.parse. destruct body as [| | | | |fields]; try discriminate.
  destruct (Zod.number 100 2000 "rfPower" fields) as [a1|] eqn:E1; [|discriminate].
  destruct (Zod.number 1 100 "pressure" fields) as [a2|] eqn:E2; [|discriminate].
  destruct (Zod.number 0 200 "gasFlowCF4" fields) as [a3|] eqn:E3; [|discriminate].
  destruct (Zod.number 0 100 "gasFlowO2" fields) as [a4|] eqn:E4; [|discriminate].
  destruct (Zod.number 0 200 "gasFlowAr" fields) as [a5|] eqn:E5; [|discriminate].
  destruct (Zod.boolean "pulseEnabled" fields) as [a6|] eqn:E6; [|discriminate].
  destruct (Zod.optionalNumber 10 90 "pulseDutyCycle" fields) as [a7|] eqn:E7;
    [|discriminate].
  destruct (Zod.optionalNumber 100 10000 "pulseFrequency" fields) as [a8|] eqn:E8;
    [|discriminate].
  destruct (Zod.number 10 600 "processTime" fields) as [a9|] eqn:E9; [|discriminate].
  destruct (Zod.optionalNumber 0 500 "chamberRfHours" fields) as [a10|] eqn:E10;
    [|discriminate].
  intros [= <-]. unfold valid_params.
  cbn [rfPower pressure gasFlowCF4 gasFlowO2 gasFlowAr pulseDutyCycle
       pulseFrequency processTime chamberRfHours].
  pose proof (Zod_number_sound _ _ _ _ _ E1).
  pose proof (Zod_number_sound _ _ _ _ _ E2).
  pose proof (Zod_number_sound _ _ _ _ _ E3).
  pose proof (Zod_number_sound _ _ _ _ _ E4).
  pose proof (Zod_number_sound _ _ _ _ _ E5).
  pose proof (Zod_number_sound _ _ _ _ _ E9).
  pose proof (Zod_optionalNumber_sound _ _ _ _ _ E7).
  pose proof (Zod_optionalNumber_sound _ _ _ _ _ E8).
  pose proof (Zod_optionalNumber_sound _ _ _ _ _ E10).
  tauto.
Qed.

Lemma Qleb_intro a b : a <= b -> (a <=? b) = true.
Proof. apply Qleb_true. Qed.

(** The schema accepts the request body of given parameters exactly when
    they are within the documented bounds, and then gives them back
    unchanged; what it accepts is always within the bounds. *)
Theorem validation_exact (p : ProcessParameters) :
  (valid_params p <-> Zod.parse (requestBody p) = Some p)
  /\ (forall body, Zod.parse body = Some p -> valid_params p).
Proof.
  split; [|intros body; apply Zod_parse_sound].
  split; [|apply Zod_parse_sound].
  destruct p as [a1 a2 a3 a4 a5 a6 a7 a8 a9 a10].
  unfold valid_params.
  cbn [rfPower pressure gasFlowCF4 gasFlowO2 gasFlowAr pulseDutyCycle
       pulseFrequency processTime chamberRfHours].
  intros ((H1 & H1') & (H2 & H2') & (H3 & H3') & (H4 & H4') & (H5 & H5')
          & H7 & H8 & (H9 & H9') & H10).
  apply Qleb_intro in H1, H1', H2, H2', H3, H3', H4, H4', H5, H5', H9, H9'.
  unfold requestBody, Zod.parse, Zod.number, Zod.optionalNumber, Zod.boolean,
    Zod.property, optionalField, field.
  cbn [rfPower pressure gasFlowCF4 gasFlowO2 gasFlowAr pulseEnabled
       pulseDutyCycle pulseFrequency processTime chamberRfHours].
  destruct a7 as [a7|]; [destruct H7 as [H7 H7']; apply Qleb_intro in H7, H7'|];
  (destruct a8 as [a8|]; [destruct H8 as [H8 H8']; apply Qleb_intro in H8, H8'|]);
  (destruct a10 as [a10|];
     [destruct H10 as [H10 H10']; apply Qleb_intro in H10, H10'|]);
  cbn [app JsMap.get String.eqb Ascii.eqb Bool.eqb andb];
  rewrite ?H1, ?H1', ?H2, ?H2', ?H3, ?H3', ?H4, ?H4', ?H5, ?H5', ?H7, ?H7',
    ?H8, ?H8', ?H9, ?H9', ?H10, ?H10';
  reflexivity.
Qed.

(** ** The routes *)

Section RouteProperties.

Context `{JsEnv}.
Variable getTime : string -> Q.

Lemma postPredict_cases (body : Json) (server : Routes.Server) :
  match Zod.parse body with
  | Some params =>
      exists prediction draws',
        generatePrediction params (Routes.draws server) = Ok (prediction, draws')
        /\ Routes.postPredict body server
           = Ok (Routes.json (Routes.Prediction prediction),
                 {| Routes.storage :=
                      snd (MemStorage.savePrediction prediction (Routes.storage server));
                    Routes.draws := draws' |})
  | None =>
      Routes.postPredict body server
      = Ok (Routes.failure 400 "Invalid parameters", server)
  end.
Proof.
  unfold Routes.postPredict.
  destruct (Zod.parse body) as [params|] eqn:E; [|reflexivity].
  pose proof (generatePrediction_spec params (Routes.draws server)
                (Zod_parse_sound _ _ E)) as (r & d & m & st & series & Er & _).
  eexists. eexists. split; [exact Er|]. rewrite Er. reflexivity.
Qed.

(** [POST /api/predict] answers 400 and changes nothing when the body
    fails the schema.  Otherwise it answers 200 with the prediction of the
    engine for the parsed parameters, and from then on
    [GET /api/predictions/:id] gives that prediction back under its
    identifier while every other identifier answers as before. *)
Theorem postPredict_served (body : Json) (server : Routes.Server) :
  match Zod.parse body with
  | Some params =>
      exists prediction server',
        Routes.postPredict body server
        = Ok (Routes.json (Routes.Prediction prediction), server')
        /\ generatePrediction params (Routes.draws server)
           = Ok (prediction, Routes.draws server')
        /\ parameters prediction = params
        /\ Routes.getPredictionById (id prediction) server'
           = Routes.json (Routes.Prediction prediction)
        /\ (forall key, key <> id prediction ->
              Routes.getPredictionById key server'
              = Routes.getPredictionById key server)
  | None =>
      Routes.postPredict body server
      = Ok (Routes.failure 400 "Invalid parameters", server)
  end.
Proof.
  pose proof (postPredict_cases body server) as Hcases.
  destruct (Zod.parse body) as [params|] eqn:E; [|exact Hcases].
  destruct Hcases as (prediction & draws' & Eg & Ep).
  eexists. eexists. split; [exact Ep|].
  cbn [Routes.draws Routes.storage]. split; [exact Eg|].
  pose proof (generatePrediction_spec params (Routes.draws server)
                (Zod_parse_sound _ _ E)) as (r & d & m & st & series & Er & _ & _ & _ & Hr).
  rewrite Er in Eg. injection Eg as <- _.
  split; [rewrite Hr; reflexivity|].
  unfold Routes.getPredictionById, MemStorage.getPrediction,
    MemStorage.savePrediction.
  cbn [snd Routes.storage MemStorage.predictions].
  split.
  - rewrite JsMap_get_set_same. reflexivity.
  - intros key Hne. rewrite (JsMap_get_set_other _ _ _ _ Hne). reflexivity.
Qed.

(** After [DELETE /api/predictions] the list is empty and every identifier
    answers 404; users and the count of random draws are untouched. *)
Theorem deletePredictions_forgets (key : string) (server : Routes.Server) :
  let server' := snd (Routes.deletePredictions server) in
  fst (Routes.deletePredictions server) = Routes.json Routes.Success
  /\ Routes.getPredictions getTime server'
     = Routes.json (Routes.PredictionList [])
  /\ Routes.getPredictionById key server'
     = Routes.failure 404 "Prediction not found"
  /\ MemStorage.users (Routes.storage server')
     = MemStorage.users (Routes.storage server)
  /\ Routes.draws server' = Routes.draws server.
Proof. repeat split. Qed.

End RouteProperties.

(** What a request is answered with. *)
Lemma handle_answers (host : JsEnv) (getTime : string -> Q)
    (request : Routes.Request) (server : Routes.Server) :
  MemStorage.wellKeyed (Routes.storage server) ->
  exists response server',
    @Routes.handle host getTime request server = Ok (response, server')
    /\ MemStorage.wellKeyed (Routes.storage server')
    /\ MemStorage.users (Routes.storage server')
       = MemStorage.users (Routes.storage server)
    /\ Routes.answered request response.
Proof.
  intro Hwk. destruct request as [|key|body|]; cbn [Routes.handle].
  - eexists. eexists. split; [reflexivity|]. split; [exact Hwk|].
    split; reflexivity.
  - eexists. eexists. split; [reflexivity|]. split; [exact Hwk|].
    split; [reflexivity|]. cbn [Routes.answered].
    unfold Routes.getPredictionById.
    destruct (MemStorage.getPrediction key (Routes.storage server));
      [left | right]; reflexivity.
  - pose proof (@postPredict_cases host body server) as Hcases.
    cbn [Routes.answered].
    destruct (Zod.parse body) as [params|].
    + destruct Hcases as (prediction & draws' & _ & Ep).
      eexists. eexists. split; [exact Ep|]. cbn [Routes.storage].
      pose proof (savePrediction_lookup_facts prediction (Routes.storage server) Hwk)
        as (Hwk' & _ & _ & _ & Hu).
      split; [exact Hwk'|]. split; [exact Hu | reflexivity].
    + eexists. eexists. split; [exact Hcases|]. split; [exact Hwk|].
      split; reflexivity.
  - eexists. eexists. split; [reflexivity|].
    split; [split; constructor|]. split; reflexivity.
Qed.

(** Whatever requests arrive, in whatever order and on whatever host, the
    server answers each of them: a listing and a clearing with 200, a
    lookup with 200 or 404, a prediction request with 200 when the body
    passes the schema and 400 otherwise.  It never answers 500, and the
    storage keeps every prediction filed once under its own identifier. *)
Theorem serve_never_fails (getTime : string -> Q) (calls : list Routes.Call)
    (server : Routes.Server) :
  MemStorage.wellKeyed (Routes.storage server) ->
  exists responses final,
    Routes.serve getTime calls server = Ok (responses, final)
    /\ Forall2 (fun call response => Routes.answered (Routes.request call) response)
               calls responses
    /\ Forall (fun response => Routes.statusCode response <> 500%nat) responses
    /\ MemStorage.wellKeyed (Routes.storage final)
    /\ MemStorage.users (Routes.storage final)
       = MemStorage.users (Routes.storage server).
Proof.
  revert server. induction calls as [|call calls IH]; intros server Hwk.
  - exists [], server. repeat split; try constructor; apply Hwk.
  - cbn [Routes.serve].
    pose proof (handle_answers (Routes.host call) getTime (Routes.request call)
                  server Hwk) as (response & server' & Eh & Hwk' & Hu & Ha).
    rewrite Eh.
    pose proof (IH server' Hwk') as (responses & final & Es & Hall & Hno & Hwkf & Huf).
    rewrite Es. exists (response :: responses), final.
    split; [reflexivity|]. split; [constructor; assumption|].
    split; [|split; [exact Hwkf | congruence]].
    constructor; [|exact Hno].
    destruct (Routes.request call) as [| |body|]; cbn [Routes.answered] in Ha.
    + rewrite Ha. discriminate.
    + destruct Ha as [-> | ->]; discriminate.
    + destruct (Zod.parse body); rewrite Ha; discriminate.
    + rewrite Ha. discriminate.
Qed.

(** ** The colour scale *)

Lemma Math_round_between (lo hi : Z) (x : Q) :
  inject_Z lo <= x -> x <= inject_Z hi ->
  (lo <= Palette.Math_round x <= hi)%Z.
Proof.
  intros Hlo Hhi. unfold Palette.Math_round. split.
  - rewrite <- (Qfloor_Z lo). apply Qfloor_resp_le. lra.
  - pose proof (Qfloor_le (x + (1 # 2))) as Hf.
    assert (Hlt : inject_Z (Qfloor (x + (1 # 2))) < inject_Z (hi + 1)).
    { rewrite inject_Z_plus. change (inject_Z 1) with 1. lra. }
    rewrite <- Zlt_Qlt in Hlt. lia.
Qed.

Lemma blend_between (c1 c2 : Z) (p : Q) :
  0 <= p -> p <= 1 ->
  (Z.min c1 c2 <= Palette.blend c1 c2 p <= Z.max c1 c2)%Z.
Proof.
  intros Hp0 Hp1. unfold Palette.blend.
  pose proof (Z.le_min_l c1 c2) as Hm1. pose proof (Z.le_min_r c1 c2) as Hm2.
  pose proof (Z.le_max_l c1 c2) as HM1. pose proof (Z.le_max_r c1 c2) as HM2.
  rewrite Zle_Qle in Hm1, Hm2, HM1, HM2.
  apply Math_round_between; nra.
Qed.

Lemma blend_ext (c1 c2 : Z) (p p' : Q) :
  p == p' -> Palette.blend c1 c2 p = Palette.blend c1 c2 p'.
Proof.
  intro Hp. unfold Palette.blend, Palette.Math_round.
  apply Qfloor_comp. rewrite Hp. reflexivity.
Qed.

Lemma interpolateColor_ext (n n' : Q) :
  n == n' -> Palette.interpolateColor n = Palette.interpolateColor n'.
Proof.
  intro Hn. unfold Palette.interpolateColor. cbv zeta.
  assert (Hidx : Qfloor (n / (1 / (num (List.length Palette.colors) - 1)))
                 = Qfloor (n' / (1 / (num (List.length Palette.colors) - 1)))).
  { apply Qfloor_comp. rewrite Hn. reflexivity. }
  rewrite Hidx.
  destruct (Palette.colorAt _) as [c1|]; [|reflexivity].
  destruct (Palette.colorAt _) as [c2|]; [|reflexivity].
  f_equal. f_equal; apply blend_ext; rewrite Hn; reflexivity.
Qed.

Lemma segment_of (n : Q) :
  0 <= n -> n <= 1 ->
  exists i : Z,
    (0 <= i <= 4)%Z
    /\ Z.min (Qfloor (n / (1 / (num (List.length Palette.colors) - 1))))
             (Z.of_nat (List.length Palette.colors) - 2) = i
    /\ 0 <= (n - inject_Z i * (1 / (num (List.length Palette.colors) - 1)))
            / (1 / (num (List.length Palette.colors) - 1))
    /\ (n - inject_Z i * (1 / (num (List.length Palette.colors) - 1)))
       / (1 / (num (List.length Palette.colors) - 1)) <= 1.
Proof.
  intros H0 H1.
  assert (Hs : forall x, x / (1 / (num (List.length Palette.colors) - 1)) == x * 5).
  { intro x. change (num (List.length Palette.colors) - 1) with (6 - 1). field. }
  assert (Hsz : 1 / (num (List.length Palette.colors) - 1) == (1 # 5)).
  { reflexivity. }
  rewrite (Qfloor_comp _ _ (Hs n)).
  change (Z.of_nat (List.length Palette.colors) - 2)%Z with 4%Z.
  pose proof (Qfloor_le (n * 5)) as Hfl.
  pose proof (Qlt_floor (n * 5)) as Hfu.
  assert (Hnn : (0 <= Qfloor (n * 5))%Z).
  { rewrite <- (Qfloor_Z 0). apply Qfloor_resp_le. change (inject_Z 0) with 0. lra. }
  exists (Z.min (Qfloor (n * 5)) 4). split; [lia|]. split; [reflexivity|].
  rewrite Hs, Hsz.
  destruct (Z.min_spec (Qfloor (n * 5)) 4) as [[Hlt ->]|[Hge ->]].
  - rewrite inject_Z_plus in Hfu. change (inject_Z 1) with 1 in Hfu. split; lra.
  - rewrite Zle_Qle in Hge. change (inject_Z 4) with 4 in *. split; lra.
Qed.

Lemma interpolateColor_within (normalized : Q) :
  0 <= normalized -> normalized <= 1 ->
  exists c, Palette.interpolateColor normalized = Ok c /\ Palette.inGamut c.
Proof.
  intros H0 H1.
  pose proof (segment_of normalized H0 H1) as (i & Hi & Ei & Hp0 & Hp1).
  unfold Palette.interpolateColor. cbv zeta. rewrite Ei.
  set (p := (normalized - inject_Z i * _) / _) in *.
  assert (Hcase : i = 0%Z \/ i = 1%Z \/ i = 2%Z \/ i = 3%Z \/ i = 4%Z) by lia.
  destruct Hcase as [-> | [-> | [-> | [-> | ->]]]];
    cbn [Palette.colorAt Z.ltb Z.compare Z.to_nat Z.add Pos.add Pos.succ
         Pos.to_nat Pos.iter_op Nat.add nth_error Palette.colors
         Palette.r Palette.g Palette.b];
    (eexists; split; [reflexivity|]);
    unfold Palette.inGamut; cbn [Palette.r Palette.g Palette.b];
    repeat split;
    match goal with
    | |- (_ <= Palette.blend ?a ?c p)%Z =>
        pose proof (blend_between a c p Hp0 Hp1); lia
    | |- (Palette.blend ?a ?c p <= _)%Z =>
        pose proof (blend_between a c p Hp0 Hp1); lia
    end.
Qed.

(** On a normalised density between 0 and 1 the colour scale of the chamber
    view gives a colour whose three channels are whole numbers from 0 to
    255; on a negative one it reads before the first palette entry and
    fails. *)
Theorem interpolateColor_gamut (normalized : Q) :
  (0 <= normalized -> normalized <= 1 ->
   exists c, Palette.interpolateColor normalized = Ok c /\ Palette.inGamut c)
  /\ (normalized < 0 -> Palette.interpolateColor normalized = Err IndexOutOfRange).
Proof.
  split; [apply interpolateColor_within|].
  intro Hneg. unfold Palette.interpolateColor. cbv zeta.
  assert (Hs : normalized / (1 / (num (List.length Palette.colors) - 1))
               == normalized * 5).
  { change (num (List.length Palette.colors) - 1) with (6 - 1). field. }
  rewrite (Qfloor_comp _ _ Hs).
  change (Z.of_nat (List.length Palette.colors) - 2)%Z with 4%Z.
  pose proof (Qfloor_le (normalized * 5)) as Hfl.
  assert (Hlt : (Qfloor (normalized * 5) < 0)%Z).
  { rewrite Zlt_Qlt. change (inject_Z 0) with 0. lra. }
  rewrite Z.min_l by lia. unfold Palette.colorAt at 1.
  apply Z.ltb_lt in Hlt. rewrite Hlt. reflexivity.
Qed.

(** Between two different bounds the colour scale of the heat map always
    gives a colour within the gamut: the dark blue end for values at or
    below the lower bound, the red end for values at or above the upper
    bound. *)
Theorem interpolateColorIn_clamped (value min max : Q) :
  min < max ->
  exists c,
    Palette.interpolateColorIn value min max = Ok c
    /\ Palette.inGamut c
    /\ (value <= min -> c = {| Palette.r := 30; Palette.g := 58; Palette.b := 138 |})
    /\ (max <= value -> c = {| Palette.r := 239; Palette.g := 68; Palette.b := 68 |}).
Proof.
  intro Hlt. unfold Palette.interpolateColorIn.
  destruct (Qeq_bool (max - min) 0) eqn:E.
  { apply Qeq_bool_eq in E. lra. }
  set (x := (value - min) / (max - min)).
  set (n := Qmax 0 (Qmin 1 x)).
  assert (Hn0 : 0 <= n) by apply Q.le_max_l.
  assert (Hn1 : n <= 1).
  { unfold n. apply Q.max_lub; [lra | apply Q.le_min_l]. }
  pose proof (interpolateColor_within n Hn0 Hn1) as (c & Ec & Hc).
  exists c. split; [exact Ec|]. split; [exact Hc|].
  assert (Hd : 0 < max - min) by lra.
  split; intro Hv.
  - assert (Hx : x <= 0).
    { unfold x. apply Qle_shift_div_r; [exact Hd | lra]. }
    assert (En : n == 0).
    { unfold n. apply Qle_antisym; [|apply Q.le_max_l].
      apply Q.max_lub; [lra|]. eapply Qle_trans; [apply Q.le_min_r | exact Hx]. }
    rewrite (interpolateColor_ext _ _ En) in Ec.
    vm_compute in Ec. injection Ec as <-. reflexivity.
  - assert (Hx : 1 <= x).
    { unfold x. apply Qle_shift_div_l; [exact Hd | lra]. }
    assert (En : n == 1).
    { unfold n. apply Qle_antisym; [exact Hn1|].
      eapply Qle_trans; [|apply Q.le_max_r]. apply Q.min_glb; lra. }
    rewrite (interpolateColor_ext _ _ En) in Ec.
    vm_compute in Ec. injection Ec as <-. reflexivity.
Qed.

(** ** A recommendation that is sure to come *)

Lemma push_not_nil {A} (l : list A) (a : A) : push l a <> [].
Proof. unfold push. destruct l; discriminate. Qed.

Lemma not_nil_let {A} (e : list A) (b : list A -> list A) :
  e <> [] -> (forall l, l <> [] -> b l <> []) -> (let r := e in b r) <> [].
Proof. intros He Hb. cbv zeta. apply Hb. exact He. Qed.

Lemma any_let {A} (e : list A) (b : list A -> list A) :
  (forall l, b l <> []) -> (let r := e in b r) <> [].
Proof. intros Hb. cbv zeta. apply Hb. Qed.

(** Pushes never shorten the list. *)
Ltac keep_not_nil :=
  lazymatch goal with
  | |- (let r := ?e in @?b r) <> [] =>
      let l := fresh "l" in
      let Hl := fresh "Hl" in
      refine (not_nil_let e b _ _);
      [keep_not_nil | intros l Hl; cbv beta; keep_not_nil]
  | |- push _ _ <> [] => apply push_not_nil
  | |- (if ?c then _ else _) <> [] => destruct c; keep_not_nil
  | |- _ <> [] => assumption
  end.

Ltac skip_binding :=
  lazymatch goal with
  | |- (let r := ?e in @?b r) <> [] =>
      let l := fresh "l" in refine (any_let e b _); intro l; cbv beta
  end.

(** A reported uniformity below 88 with an Ar flow below 80 triggers the
    recommendation to raise the Ar flow, whatever else is triggered. *)
Lemma uniformity_rule_fires (params : ProcessParameters)
    (distribution : RadicalDistribution) (metrics : QualityMetrics) :
  etchUniformity metrics < 88 -> gasFlowAr params < 80 ->
  triggeredRecommendations params distribution metrics <> [].
Proof.
  intros Hu Ha. apply Qltb_true in Hu, Ha.
  cbv beta delta [triggeredRecommendations].
  skip_binding. skip_binding.
  lazymatch goal with
  | |- (let r := ?e in @?b r) <> [] => refine (not_nil_let e b _ _)
  end.
  - rewrite Hu, Ha. apply push_not_nil.
  - intros l1 Hl1. cbv beta. keep_not_nil.
Qed.

(** ** An edge-heavy run *)

Lemma edgeHeavyParams_valid : valid_params edgeHeavyParams.
Proof.
  unfold valid_params, within, edgeHeavyParams; simpl.
  repeat split; apply Qle_bool_imp_le; reflexivity.
Qed.

(** On the reference host the centre of the grid of [edgeHeavyParams]
    carries about a fifth of the density of the wall midpoints. *)
Lemma edgeHeavy_ratio : @ratioOf ReferenceHost.host edgeHeavyParams 0 = (215 # 1000).
Proof. vm_compute. reflexivity. Qed.

(** The run of [edgeHeavyParams] on the reference host ends in [danger]
    with a reported uniformity of at most 84 and at least one
    recommendation. *)
Lemma edgeHeavy_run :
  exists r s',
    @generatePrediction ReferenceHost.host edgeHeavyParams 0%nat = Ok (r, s')
    /\ status r = danger
    /\ centerEdgeRatio (radicalDistribution r) = (215 # 1000)
    /\ etchUniformity (qualityMetrics r) <= 84
    /\ recommendationList r <> [].
Proof.
  pose proof (@generatePrediction_spec ReferenceHost.host edgeHeavyParams 0%nat
                edgeHeavyParams_valid)
    as (r & d & m & st & series & E & Ed & Eq & _ & ->).
  assert (Hp : 1 <= pressure edgeHeavyParams)
    by (apply Qle_bool_imp_le; reflexivity).
  pose proof (@simulateRadicalDistribution_spec ReferenceHost.host edgeHeavyParams
                0%nat Hp) as (d' & Ed' & _ & _ & Hratio & _).
  rewrite Ed in Ed'. injection Ed' as <-.
  pose proof (@predictQualityMetrics_spec ReferenceHost.host edgeHeavyParams d 4000%nat)
    as (m' & st' & Eq' & Hu & _ & _ & Hst).
  change (0 + 4000)%nat with 4000%nat in Eq. rewrite Eq in Eq'.
  injection Eq' as <- <-.
  rewrite edgeHeavy_ratio in Hratio.
  assert (Hu84 : @computeUniformity ReferenceHost.host edgeHeavyParams d <= 84).
  { apply computeUniformity_edge_heavy. rewrite Hratio.
    apply Qle_bool_imp_le. reflexivity. }
  assert (Hdanger : st = danger).
  { rewrite Hst. apply classifyStatus_low_uniformity. lra. }
  assert (He84 : etchUniformity m <= 84).
  { rewrite Hu. apply toFixed_upper; [reflexivity | exact Hu84]. }
  assert (Hfires : triggeredRecommendations edgeHeavyParams d m <> []).
  { apply uniformity_rule_fires; [lra | reflexivity]. }
  assert (Hsome : generateRecommendations edgeHeavyParams d m st <> []).
  { intro Hnil. apply generateRecommendations_nil_iff in Hnil.
    destruct Hnil as [Hs | Hn]; [rewrite Hdanger in Hs; discriminate Hs|].
    exact (Hfires Hn). }
  eexists. eexists. split; [exact E|].
  cbn [status radicalDistribution qualityMetrics].
  split; [exact Hdanger|]. split; [exact Hratio|]. split; [exact He84|].
  unfold recommendationList. cbn [recommendations].
  rewrite optional_list.
  destruct (generateRecommendations edgeHeavyParams d m st) as [|a l];
    [contradiction | discriminate].
Qed.

(** ** The theorems at work on the reference host *)

#[local] Existing Instance ReferenceHost.host.

(** Closed bounds are decided by computation. *)
Ltac decide_bounds :=
  unfold valid_params, within; simpl;
  repeat split; apply Qle_bool_imp_le; reflexivity.

Lemma recommendation_list_bound_witness :
  valid_params quietParams
  /\ exists r s',
       generatePrediction quietParams 0%nat = Ok (r, s')
       /\ (List.length (recommendationList r) <= 3)%nat
       /\ (status r = safe -> recommendationList r = [])
       /\ (recommendationList r = []
           <-> (status r = safe
                \/ triggeredRecommendations quietParams (radicalDistribution r)
                     (qualityMetrics r) = [])).
Proof.
  split; [decide_bounds|].
  apply (recommendation_list_bound quietParams 0%nat). decide_bounds.
Defined.

Lemma density_floor_witness :
  valid_params quietParams
  /\ exists d s',
       simulateRadicalDistribution quietParams 0%nat = Ok (d, s')
       /\ Forall (Forall (Forall (fun v => 0.05 <= v))) (grid3D d)
       /\ Forall (Forall (fun v => 0.05 <= v)) (grid d)
       /\ nth_error (grid3D d) 5 = Some (grid d)
       /\ (forall (k : nat) (layer : list (list Q)) (i : nat) (row : list Q),
              nth_error (grid3D d) k = Some layer -> nth_error layer i = Some row ->
              Forall (fun cell =>
                        exists density rnd,
                          cell = toFixed 4 (Qmax 0.05 (density + (rnd - 0.5) * 0.03 * density))
                          /\ 0.05 <= Qmax 0.05 (density + (rnd - 0.5) * 0.03 * density)
                          /\ 0.05 <= cell) row).
Proof.
  split; [decide_bounds|].
  apply (density_floor quietParams 0%nat). decide_bounds.
Defined.

Lemma generatePrediction_total_witness :
  valid_params quietParams
  /\ exists r s', generatePrediction quietParams 0%nat = Ok (r, s').
Proof.
  split; [decide_bounds|].
  apply (generatePrediction_total quietParams 0%nat). decide_bounds.
Defined.

Lemma etchUniformity_range_witness :
  valid_params edgeHeavyParams
  /\ exists r s',
       generatePrediction edgeHeavyParams 0%nat = Ok (r, s')
       /\ 50 <= etchUniformity (qualityMetrics r)
       /\ etchUniformity (qualityMetrics r) <= 99.5
       /\ (centerEdgeRatio (radicalDistribution r) < 0.7 ->
           etchUniformity (qualityMetrics r)
           <= Qmax 50 (68.1 + 45 * centerEdgeRatio (radicalDistribution r)
                       - Qmax 0 (pressure edgeHeavyParams - 60) * 0.1))
       /\ (forall legacy : Legacy.RadicalDistribution,
              75 <= Legacy.computeUniformity edgeHeavyParams legacy
              /\ 75 <= toFixed 1 (Legacy.computeUniformity edgeHeavyParams legacy))
       /\ etchUniformity (qualityMetrics r) < 75.
Proof.
  assert (Hv : valid_params edgeHeavyParams) by decide_bounds.
  split; [exact Hv|].
  pose proof (etchUniformity_range edgeHeavyParams 0%nat Hv)
    as (r & s' & E & Hlo & Hhi & Hedge & Hleg).
  pose proof edgeHeavy_run as (r0 & s0 & E0 & _ & Hratio & _).
  rewrite E in E0. injection E0 as <- _.
  exists r, s'. split; [exact E|]. split; [exact Hlo|]. split; [exact Hhi|].
  split; [exact Hedge|]. split; [exact Hleg|].
  eapply Qle_lt_trans; [apply Hedge; rewrite Hratio; reflexivity|].
  rewrite Hratio. vm_compute. reflexivity.
Defined.

Lemma stability_series_shape_witness :
  valid_params quietParams
  /\ exists r s' series n,
       generatePrediction quietParams 0%nat = Ok (r, s')
       /\ stabilityTimeSeries r = Some series
       /\ n = Z.min 60 (Qfloor (processTime quietParams / 5) + 1)
       /\ (3 <= n <= 60)%Z
       /\ List.length series = Z.to_nat n
       /\ (forall (i : nat) (pt : StabilityDataPoint),
              nth_error series i = Some pt ->
              roundedTo 1 (num i / (inject_Z n - 1) * processTime quietParams)
                        (time pt))
       /\ (exists first, nth_error series 0 = Some first /\ time first == 0)
       /\ (exists last,
              nth_error series (Z.to_nat n - 1) = Some last
              /\ time last = toFixed 1 (processTime quietParams)
              /\ roundedTo 1 (processTime quietParams) (time last)).
Proof.
  split; [decide_bounds|].
  apply (stability_series_shape quietParams 0%nat). decide_bounds.
Defined.

Lemma roi_bounds_witness :
  valid_params quietParams
  /\ exists r s' roi (g : Z),
       generatePrediction quietParams 0%nat = Ok (r, s')
       /\ roiMetrics r = Some roi
       /\ roundedTo 1 (Qmax 30 (Qmin 99 (etchUniformity (qualityMetrics r) * 0.8
                                         - riskPenalty (defectRisk (qualityMetrics r))
                                         - Qabs (cdShift (qualityMetrics r)) * 2)))
                    (yieldRate roi)
       /\ 30 <= yieldRate roi /\ yieldRate roi <= 99
       /\ (7 <= g <= 24)%Z
       /\ 25 * yieldRate roi / 100 - 1.02 <= inject_Z g
       /\ inject_Z g <= 25 * yieldRate roi / 100 + 0.02
       /\ estimatedBatchProfit roi
          == inject_Z g * 200 - 25 * 150 - (25 - inject_Z g) * 150 * 0.5
       /\ - 3700 <= estimatedBatchProfit roi /\ estimatedBatchProfit roi <= 975
       /\ waferCost roi = 150 /\ batchSize roi = 25.
Proof.
  split; [decide_bounds|].
  apply (roi_bounds quietParams 0%nat). decide_bounds.
Defined.

Lemma closed_form_descriptors_witness :
  valid_params quietParams
  /\ exists d1 d2 t1 t2,
       @simulateRadicalDistribution ReferenceHost.host quietParams 0%nat = Ok (d1, t1)
       /\ @simulateRadicalDistribution driftingHost quietParams 7%nat = Ok (d2, t2)
       /\ highEnergyFraction d1 = highEnergyFraction d2
       /\ residenceTimeIndex d1 = residenceTimeIndex d2
       /\ roundedTo 3 (0.15 + powerFactor quietParams * 0.2
                       - pressureFactor quietParams * 0.1)
                    (highEnergyFraction d1)
       /\ roundedTo 2 (10 / pressureFactor quietParams * (1 + arFlow quietParams * 0.2))
                    (residenceTimeIndex d1)
       /\ grid3D d1 <> grid3D d2.
Proof.
  assert (Hv : valid_params quietParams) by decide_bounds.
  split; [exact Hv|].
  pose proof (closed_form_descriptors ReferenceHost.host driftingHost quietParams
                0%nat 7%nat Hv)
    as (d1 & d2 & t1 & t2 & E1 & E2 & Hh & Hr & Hc1 & Hc2).
  exists d1, d2, t1, t2.
  split; [exact E1|]. split; [exact E2|]. split; [exact Hh|]. split; [exact Hr|].
  split; [exact Hc1|]. split; [exact Hc2|].
  assert (Hp : 1 <= pressure quietParams) by (apply Qle_bool_imp_le; reflexivity).
  pose proof (@simulateRadicalDistribution_spec ReferenceHost.host quietParams 0%nat Hp)
    as (d1' & E1' & Hg1 & _).
  pose proof (@simulateRadicalDistribution_spec driftingHost quietParams 7%nat Hp)
    as (d2' & E2' & Hg2 & _).
  rewrite E1 in E1'. injection E1' as <- _.
  rewrite E2 in E2'. injection E2' as <- _.
  intro Heq. rewrite Hg1, Hg2 in Heq.
  pose proof (@at3_gridOf ReferenceHost.host quietParams 0%nat 5 0 10 0%nat
                eq_refl eq_refl eq_refl) as A1.
  pose proof (@at3_gridOf driftingHost quietParams 7%nat 5 0 10 0%nat
                eq_refl eq_refl eq_refl) as A2.
  rewrite Heq in A1. rewrite A1 in A2.
  vm_compute in A2. discriminate A2.
Defined.

Lemma recommendations_field_optional_witness :
  valid_params quietParams
  /\ exists r s' l,
       generatePrediction quietParams 0%nat = Ok (r, s')
       /\ l = generateRecommendations quietParams (radicalDistribution r)
                (qualityMetrics r) (status r)
       /\ (l <> [] <-> recommendations r = Some l)
       /\ (l = [] <-> recommendations r = None).
Proof.
  split; [decide_bounds|].
  apply (proj1 recommendations_field_optional ReferenceHost.host quietParams 0%nat).
  decide_bounds.
Defined.

Lemma grid_shape_witness :
  valid_params quietParams
  /\ exists d s',
       simulateRadicalDistribution quietParams 0%nat = Ok (d, s')
       /\ s' = (0 + 4000)%nat
       /\ List.length (grid3D d) = 10%nat
       /\ Forall (fun layer =>
                    List.length layer = 20%nat
                    /\ Forall (fun row => List.length row = 20%nat) layer) (grid3D d)
       /\ List.length (grid d) = 20%nat
       /\ Forall (fun row => List.length row = 20%nat) (grid d)
       /\ dimensions d
          = {| Dimensions.x := 20; Dimensions.y := 20; Dimensions.z := 10 |}.
Proof.
  split; [decide_bounds|].
  apply (grid_shape quietParams 0%nat). decide_bounds.
Defined.

Lemma draw_budget_witness :
  valid_params quietParams
  /\ exists r s' series,
       generatePrediction quietParams 0%nat = Ok (r, s')
       /\ stabilityTimeSeries r = Some series
       /\ s' = (0 + 4000 + 2 + List.length series)%nat
       /\ (0 + 4005 <= s' <= 0 + 4062)%nat.
Proof.
  split; [decide_bounds|].
  apply (draw_budget quietParams 0%nat). decide_bounds.
Defined.

Lemma defect_risk_consistent_witness :
  valid_params quietParams
  /\ exists r s',
       generatePrediction quietParams 0%nat = Ok (r, s')
       /\ 0 <= defectRiskScore (qualityMetrics r)
       /\ defectRiskScore (qualityMetrics r) <= 100
       /\ match defectRisk (qualityMetrics r) with
          | risk_low => defectRiskScore (qualityMetrics r) <= 25
          | risk_medium =>
              25 <= defectRiskScore (qualityMetrics r)
              /\ defectRiskScore (qualityMetrics r) <= 55
          | risk_high => 55 <= defectRiskScore (qualityMetrics r)
          end.
Proof.
  split; [decide_bounds|].
  apply (defect_risk_consistent quietParams 0%nat). decide_bounds.
Defined.

Lemma status_monotone_witness :
  90 <= 95 /\ Qabs 1 <= Qabs 3 /\ 10 <= 30
  /\ (statusRank (classifyStatus 95 1 (classifyRisk 10))
      <= statusRank (classifyStatus 90 3 (classifyRisk 30)))%nat.
Proof.
  assert (H1 : 90 <= 95) by (apply Qle_bool_imp_le; reflexivity).
  assert (H2 : Qabs 1 <= Qabs 3) by (apply Qle_bool_imp_le; reflexivity).
  assert (H3 : 10 <= 30) by (apply Qle_bool_imp_le; reflexivity).
  split; [exact H1|]. split; [exact H2|]. split; [exact H3|].
  exact (status_monotone 90 95 3 1 30 10 H1 H2 H3).
Defined.

Lemma stability_samples_bounded_witness :
  valid_params quietParams
  /\ exists r s' series,
       generatePrediction quietParams 0%nat = Ok (r, s')
       /\ stabilityTimeSeries r = Some series
       /\ Forall (fun pt =>
                    50 <= uniformity pt /\ uniformity pt <= 100
                    /\ 0 <= temperature pt /\ temperature pt <= 1
                    /\ 0 <= time pt /\ time pt <= toFixed 1 (processTime quietParams))
                 series
       /\ (forall (i j : nat) (a b : StabilityDataPoint),
              (i <= j)%nat -> nth_error series i = Some a ->
              nth_error series j = Some b -> time a <= time b).
Proof.
  split; [decide_bounds|].
  apply (stability_samples_bounded quietParams 0%nat). decide_bounds.
Defined.

Lemma recommendations_change_parameters_witness :
  valid_params edgeHeavyParams
  /\ exists r s',
       generatePrediction edgeHeavyParams 0%nat = Ok (r, s')
       /\ Forall helpful (recommendationList r)
       /\ Forall (fun a => ~ recommendedValue a == currentValue a)
                 (recommendationList r)
       /\ recommendationList r <> [].
Proof.
  assert (Hv : valid_params edgeHeavyParams) by decide_bounds.
  split; [exact Hv|].
  pose proof (recommendations_change_parameters edgeHeavyParams 0%nat Hv)
    as (r & s' & E & Hhelp & Hmove).
  pose proof edgeHeavy_run as (r0 & s0 & E0 & _ & _ & _ & Hsome).
  rewrite E in E0. injection E0 as <- _.
  exists r, s'. split; [exact E|]. split; [exact Hhelp|].
  split; [exact Hmove | exact Hsome].
Defined.

Lemma recommendations_within_schema_witness :
  valid_params edgeHeavyParams
  /\ exists r s',
       generatePrediction edgeHeavyParams 0%nat = Ok (r, s')
       /\ Forall inSchemaRange (recommendationList r)
       /\ recommendationList r <> [].
Proof.
  assert (Hv : valid_params edgeHeavyParams) by decide_bounds.
  split; [exact Hv|].
  pose proof (recommendations_within_schema edgeHeavyParams 0%nat Hv)
    as (r & s' & E & Hin).
  pose proof edgeHeavy_run as (r0 & s0 & E0 & _ & _ & _ & Hsome).
  rewrite E in E0. injection E0 as <- _.
  exists r, s'. split; [exact E|]. split; [exact Hin | exact Hsome].
Defined.


Lemma profit_never_positive_witness :
  valid_params quietParams
  /\ exists r s' roi,
       generatePrediction quietParams 0%nat = Ok (r, s')
       /\ roiMetrics r = Some roi
       /\ yieldRate roi <= 79.6
       /\ estimatedBatchProfit roi <= - 400.
Proof.
  split; [decide_bounds|].
  apply (profit_never_positive quietParams 0%nat). decide_bounds.
Defined.

Lemma normalised_factor_ranges_witness :
  valid_params quietParams
  /\ (inRange 0.1 2 (powerFactor quietParams)
      /\ inRange 0.02 2 (pressureFactor quietParams)
      /\ inRange 1 1.5 (agingFactor quietParams)
      /\ inRange 0.7 1 (agingEdgePenalty quietParams)
      /\ inRange 0.04 4 (baseGeneration quietParams)
      /\ inRange 0.1 0.75 (wallLossCoeff quietParams)
      /\ inRange (- 0.3) 0.99 (injectionDecayRate quietParams)
      /\ Qabs (injectionDecayRate quietParams
               - (70 + gasFlowAr quietParams * 0.15 - pressure quietParams) / 100)
         <= rounding_margin
      /\ (70.001 + gasFlowAr quietParams * 0.15 <= pressure quietParams ->
          injectionDecayRate quietParams < 0)
      /\ (pressure quietParams <= 69.999 + gasFlowAr quietParams * 0.15 ->
          0 < injectionDecayRate quietParams))
  /\ injectionDecayRate quietParams < 0
  /\ valid_params (atPressure 20)
  /\ 0 < injectionDecayRate (atPressure 20).
Proof.
  assert (Hq : valid_params quietParams) by decide_bounds.
  assert (Hl : valid_params (atPressure 20)) by decide_bounds.
  pose proof (normalised_factor_ranges quietParams Hq) as Hquiet.
  pose proof (normalised_factor_ranges (atPressure 20) Hl) as Hlow.
  split; [exact Hq|]. split; [exact Hquiet|].
  split.
  { apply Hquiet. apply Qle_bool_imp_le. reflexivity. }
  split; [exact Hl|].
  apply Hlow. apply Qle_bool_imp_le. reflexivity.
Defined.

Lemma legacy_prediction_bounds_witness :
  valid_params quietParams
  /\ exists r s',
       Legacy.generatePrediction quietParams 0%nat = Ok (r, s')
       /\ s' = (0 + 402)%nat
       /\ List.length (Legacy.grid (Legacy.radicalDistribution r)) = 20%nat
       /\ Forall (fun row => List.length row = 20%nat
                             /\ Forall (fun v => 0.1 <= v) row)
                 (Legacy.grid (Legacy.radicalDistribution r))
       /\ 75 <= etchUniformity (Legacy.qualityMetrics r)
       /\ etchUniformity (Legacy.qualityMetrics r) <= 99.5.
Proof.
  split; [decide_bounds|].
  apply (legacy_prediction_bounds quietParams 0%nat). decide_bounds.
Defined.

Lemma legacy_uniformity_dominates_witness :
  centerEdgeRatio sampleDistribution
  = Legacy.centerEdgeRatio sampleLegacyDistribution
  /\ topBottomGradient sampleDistribution
     = Legacy.topBottomGradient sampleLegacyDistribution
  /\ centerEdgeRatio sampleDistribution <= 1.5
  /\ computeUniformity quietParams sampleDistribution
     <= Legacy.computeUniformity quietParams sampleLegacyDistribution
  /\ (0.7 <= centerEdgeRatio sampleDistribution ->
      75 <= computeUniformity quietParams sampleDistribution ->
      computeUniformity quietParams sampleDistribution
      == Legacy.computeUniformity quietParams sampleLegacyDistribution).
Proof.
  assert (H3 : centerEdgeRatio sampleDistribution <= 1.5)
    by (apply Qle_bool_imp_le; reflexivity).
  split; [reflexivity|]. split; [reflexivity|]. split; [exact H3|].
  exact (legacy_uniformity_dominates quietParams sampleDistribution
           sampleLegacyDistribution eq_refl eq_refl H3).
Defined.

Lemma savePrediction_lookup_witness :
  MemStorage.wellKeyed MemStorage.create
  /\ MemStorage.wellKeyed
       (snd (MemStorage.savePrediction samplePrediction MemStorage.create))
  /\ MemStorage.getPrediction (id samplePrediction)
       (snd (MemStorage.savePrediction samplePrediction MemStorage.create))
     = Some samplePrediction
  /\ (forall key, key <> id samplePrediction ->
        MemStorage.getPrediction key
          (snd (MemStorage.savePrediction samplePrediction MemStorage.create))
        = MemStorage.getPrediction key MemStorage.create)
  /\ (forall key found,
        MemStorage.getPrediction key
          (snd (MemStorage.savePrediction samplePrediction MemStorage.create))
        = Some found -> id found = key)
  /\ MemStorage.users
       (snd (MemStorage.savePrediction samplePrediction MemStorage.create))
     = MemStorage.users MemStorage.create.
Proof.
  assert (H0 : MemStorage.wellKeyed MemStorage.create) by (split; constructor).
  split; [exact H0|].
  exact (savePrediction_lookup samplePrediction MemStorage.create H0).
Defined.

Lemma getAllPredictions_sorted_witness :
  MemStorage.wellKeyed sampleStorage
  /\ MemStorage.getAllPredictions sampleClock sampleStorage
     = [laterPrediction; samplePrediction]
  /\ Permutation (JsMap.values (MemStorage.predictions sampleStorage))
                 (MemStorage.getAllPredictions sampleClock sampleStorage)
  /\ StronglySorted
       (fun a b => sampleClock (timestamp b) <= sampleClock (timestamp a))
       (MemStorage.getAllPredictions sampleClock sampleStorage)
  /\ (forall p, In p (MemStorage.getAllPredictions sampleClock sampleStorage) ->
        MemStorage.getPrediction (id p) sampleStorage = Some p)
  /\ List.length (MemStorage.getAllPredictions sampleClock sampleStorage)
     = List.length (MemStorage.predictions sampleStorage).
Proof.
  assert (H0 : MemStorage.wellKeyed sampleStorage).
  { split.
    - constructor; [|constructor; [intros []|constructor]].
      intros [Hin|[]]. discriminate Hin.
    - repeat constructor. }
  split; [exact H0|]. split; [reflexivity|].
  exact (getAllPredictions_sorted sampleClock sampleStorage H0).
Defined.

Lemma createUser_lookup_witness :
  ~ In "user-1"%string (JsMap.keys (MemStorage.users MemStorage.create))
  /\ User.id (fst (MemStorage.createUser sampleUser "user-1" MemStorage.create))
     = "user-1"%string
  /\ User.username (fst (MemStorage.createUser sampleUser "user-1" MemStorage.create))
     = InsertUser.username sampleUser
  /\ MemStorage.getUser "user-1"
       (snd (MemStorage.createUser sampleUser "user-1" MemStorage.create))
     = Some (fst (MemStorage.createUser sampleUser "user-1" MemStorage.create))
  /\ (forall key, key <> "user-1"%string ->
        MemStorage.getUser key
          (snd (MemStorage.createUser sampleUser "user-1" MemStorage.create))
        = MemStorage.getUser key MemStorage.create)
  /\ (forall name older,
        MemStorage.getUserByUsername name MemStorage.create = Some older ->
        MemStorage.getUserByUsername name
          (snd (MemStorage.createUser sampleUser "user-1" MemStorage.create))
        = Some older)
  /\ (MemStorage.getUserByUsername (InsertUser.username sampleUser)
        MemStorage.create = None ->
      MemStorage.getUserByUsername (InsertUser.username sampleUser)
        (snd (MemStorage.createUser sampleUser "user-1" MemStorage.create))
      = Some (fst (MemStorage.createUser sampleUser "user-1" MemStorage.create)))
  /\ MemStorage.predictions
       (snd (MemStorage.createUser sampleUser "user-1" MemStorage.create))
     = MemStorage.predictions MemStorage.create.
Proof.
  assert (H0 : ~ In "user-1"%string (JsMap.keys (MemStorage.users MemStorage.create)))
    by (intros []).
  split; [exact H0|].
  exact (createUser_lookup sampleUser "user-1" MemStorage.create H0).
Defined.

Lemma validation_exact_witness :
  valid_params quietParams
  /\ Zod.parse (requestBody quietParams) = Some quietParams.
Proof.
  assert (H0 : valid_params quietParams) by decide_bounds.
  split; [exact H0|].
  exact (proj1 (proj1 (validation_exact quietParams)) H0).
Defined.

Lemma serve_never_fails_witness :
  MemStorage.wellKeyed (Routes.storage Routes.start)
  /\ exists responses final,
       Routes.serve frozenClock
         [ {| Routes.host := ReferenceHost.host;
              Routes.request := Routes.PostPredict (requestBody quietParams) |};
           {| Routes.host := ReferenceHost.host;
              Routes.request := Routes.GetPredictions |};
           {| Routes.host := ReferenceHost.host;
              Routes.request := Routes.DeletePredictions |} ]
         Routes.start
       = Ok (responses, final)
       /\ Forall2 (fun call response =>
                     Routes.answered (Routes.request call) response)
            [ {| Routes.host := ReferenceHost.host;
                 Routes.request := Routes.PostPredict (requestBody quietParams) |};
              {| Routes.host := ReferenceHost.host;
                 Routes.request := Routes.GetPredictions |};
              {| Routes.host := ReferenceHost.host;
                 Routes.request := Routes.DeletePredictions |} ]
            responses
       /\ Forall (fun response => Routes.statusCode response <> 500%nat) responses
       /\ MemStorage.wellKeyed (Routes.storage final)
       /\ MemStorage.users (Routes.storage final)
          = MemStorage.users (Routes.storage Routes.start).
Proof.
  assert (H0 : MemStorage.wellKeyed (Routes.storage Routes.start))
    by (split; constructor).
  split; [exact H0|].
  exact (serve_never_fails frozenClock _ Routes.start H0).
Defined.

Lemma interpolateColor_gamut_witness :
  0 <= (1 # 2) /\ (1 # 2) <= 1
  /\ exists c, Palette.interpolateColor (1 # 2) = Ok c /\ Palette.inGamut c.
Proof.
  assert (H0 : 0 <= (1 # 2)) by (apply Qle_bool_imp_le; reflexivity).
  assert (H1 : (1 # 2) <= 1) by (apply Qle_bool_imp_le; reflexivity).
  split; [exact H0|]. split; [exact H1|].
  exact (proj1 (interpolateColor_gamut (1 # 2)) H0 H1).
Defined.

Lemma interpolateColorIn_clamped_witness :
  0.05 < 1.2
  /\ exists c,
       Palette.interpolateColorIn 0.6 0.05 1.2 = Ok c
       /\ Palette.inGamut c
       /\ (0.6 <= 0.05 ->
           c = {| Palette.r := 30; Palette.g := 58; Palette.b := 138 |})
       /\ (1.2 <= 0.6 ->
           c = {| Palette.r := 239; Palette.g := 68; Palette.b := 68 |}).
Proof.
  assert (H0 : 0.05 < 1.2) by reflexivity.
  split; [exact H0|].
  exact (interpolateColorIn_clamped 0.6 0.05 1.2 H0).
Defined.
